(** * Multi-head ingest and key lookup (gpudb_multihead_io.py)

    A shallow embedding of the client-side sharding code of
    [gpudb/gpudb_multihead_io.py]: the record-key image ([_RecordKey]),
    the key schema analysis ([_RecordKeyBuilder]), the per-worker queue
    ([_WorkerQueue]) and the ingestor and retriever built on them,
    followed by the properties of the specification that concern them.

    Python integers are unbounded, so they are [Z]; a [bytearray] is a
    list of [Z] in [0, 256); a [str] is the list of its code points; a
    [dict] keyed by integers or strings is a [gmap]; a raised exception
    is the left injection of a sum. *)

From Stdlib Require Import ZArith List Lia Bool String Ascii DecimalString.
From stdpp Require Import base option list gmap strings.

Open Scope Z_scope.

(** ** Exceptions *)

Inductive pyexn : Type :=
  | GPUdbException (msg : string)
  | StructError
  | UnicodeEncodeError
  | KeyError (key : string)
  | TypeError
  | AttributeError
  | NameError
  | ValueError
  | IndexError.

(** A computation that returns a value or raises. *)
Definition exc (A : Type) : Type := pyexn + A.

Definition ret {A} (a : A) : exc A := inr a.
Definition raise {A} (e : pyexn) : exc A := inl e.
Definition bind {A B} (m : exc A) (k : A -> exc B) : exc B :=
  match m with
  | inl e => inl e
  | inr a => k a
  end.

Notation "'do' x <- m ; k" := (bind m (fun x => k))
  (at level 10, x binder, m at level 100, k at level 200).
Notation "'do_' m ; k" := (bind m (fun _ => k))
  (at level 10, m at level 100, k at level 200).

(** ** Strings and bytes *)

(** A Python 3 [str]: its code points. *)
Definition pystr : Type := list Z.

Definition str_of (s : string) : pystr :=
  map (fun a => Z.of_N (N_of_ascii a)) (list_ascii_of_string s).

Definition is_ascii (s : pystr) : Prop := Forall (fun c => 0 <= c < 128) s.

(** [bytes( s, "utf-8" )]: surrogate code points cannot be encoded. *)
Definition utf8_char (c : Z) : exc (list Z) :=
  if c <? 128 then ret [c]
  else if c <? 2048 then
    ret [Z.lor 192 (Z.shiftr c 6); Z.lor 128 (Z.land c 63)]
  else if (55296 <=? c) && (c <=? 57343) then raise UnicodeEncodeError
  else if c <? 65536 then
    ret [Z.lor 224 (Z.shiftr c 12);
         Z.lor 128 (Z.land (Z.shiftr c 6) 63);
         Z.lor 128 (Z.land c 63)]
  else
    ret [Z.lor 240 (Z.shiftr c 18);
         Z.lor 128 (Z.land (Z.shiftr c 12) 63);
         Z.lor 128 (Z.land (Z.shiftr c 6) 63);
         Z.lor 128 (Z.land c 63)].

Fixpoint utf8 (s : pystr) : exc (list Z) :=
  match s with
  | [] => ret []
  | c :: s' =>
      do b <- utf8_char c;
      do bs <- utf8 s';
      ret (b ++ bs)
  end.

(** ** [struct.pack] with the "=" prefix: native byte order, standard sizes *)

Inductive byteorder : Type := LittleEndian | BigEndian.

(** The [n] low bytes of [v], least significant first. *)
Fixpoint le_bytes (n : nat) (v : Z) : list Z :=
  match n with
  | O => []
  | S n' => Z.land v 255 :: le_bytes n' (Z.shiftr v 8)
  end.

(** The unsigned integer read from bytes, least significant first. *)
Fixpoint le_int (bs : list Z) : Z :=
  match bs with
  | [] => 0
  | b :: bs' => b + 256 * le_int bs'
  end.

Definition native_bytes (host : byteorder) (n : nat) (v : Z) : list Z :=
  match host with
  | LittleEndian => le_bytes n v
  | BigEndian => rev (le_bytes n v)
  end.

(** Signed formats "b", "h", "i", "q" of 1, 2, 4 and 8 bytes. *)
Definition pack_signed (host : byteorder) (n : nat) (v : Z) : exc (list Z) :=
  let half := 2 ^ (8 * Z.of_nat n - 1) in
  if (- half <=? v) && (v <? half) then ret (native_bytes host n v)
  else raise StructError.

(** Unsigned formats "I" and "Q" of 4 and 8 bytes. *)
Definition pack_unsigned (host : byteorder) (n : nat) (v : Z) : exc (list Z) :=
  if (0 <=? v) && (v <? 2 ^ (8 * Z.of_nat n)) then ret (native_bytes host n v)
  else raise StructError.

(** ** _ColumnTypeSize *)

Module _ColumnTypeSize.
Definition CHAR1 := 1.
Definition CHAR2 := 2.
Definition CHAR4 := 4.
Definition CHAR8 := 8.
Definition CHAR16 := 16.
Definition CHAR32 := 32.
Definition CHAR64 := 64.
Definition CHAR128 := 128.
Definition CHAR256 := 256.
Definition DATE := 4.
Definition DATETIME := 8.
Definition DECIMAL := 8.
Definition DOUBLE := 8.
Definition FLOAT := 4.
Definition INT := 4.
Definition INT8 := 1.
Definition INT16 := 2.
Definition IPV4 := 4.
Definition LONG := 8.
Definition STRING := 8.
Definition TIME := 4.
Definition TIMESTAMP := 8.

(** The ordered dict from column type to size in bytes. *)
Definition column_type_sizes : list (string * Z) :=
  [ ("char1", 1); ("char2", 2); ("char4", 4); ("char8", 8);
    ("char16", 16); ("char32", 32); ("char64", 64); ("char128", 128);
    ("char256", 256); ("date", 4); ("datetime", 8); ("decimal", 8);
    ("ipv4", 4); ("int8", 1); ("int16", 2); ("time", 4);
    ("timestamp", 8); ("int", 4); ("double", 8); ("float", 4);
    ("long", 8); ("string", 8) ]%string.

Fixpoint assoc (k : string) (l : list (string * Z)) : option Z :=
  match l with
  | [] => None
  | (k', v) :: l' => if String.eqb k k' then Some v else assoc k l'
  end.

Definition size_of (column_type : string) : option Z :=
  assoc column_type column_type_sizes.
End _ColumnTypeSize.

(** ** Values of a record's columns

    The values the appenders below are applied to: [None], an integer or
    a string. *)
Inductive pyval : Type :=
  | PyNone
  | PyInt (z : Z)
  | PyStr (s : pystr).

#[global] Instance pyval_eq_dec : EqDecision pyval.
Proof. solve_decision. Defined.

(** ** _RecordKey *)

Module _RecordKey.

Record t : Type := mk {
  _buffer_size : Z;
  _buffer_value : list Z;
  _is_valid : bool;
  _hash_code : Z;
  _routing_hash : Z
}.

Definition is_valid (self : t) : bool := _is_valid self.
Definition hash_code (self : t) : Z := _hash_code self.

Definition __init__ (buffer_size : Z) : exc t :=
  if buffer_size <? 1 then
    raise (GPUdbException "Buffer size must be greater than or equal to 1")
  else
    ret {| _buffer_size := buffer_size;
           _buffer_value := [];
           _is_valid := true;
           _hash_code := 0;
           _routing_hash := 0 |}.

(** [self._buffer_value += bs] *)
Definition extend (self : t) (bs : list Z) : t :=
  {| _buffer_size := _buffer_size self;
     _buffer_value := _buffer_value self ++ bs;
     _is_valid := _is_valid self;
     _hash_code := _hash_code self;
     _routing_hash := _routing_hash self |}.

(** [self._is_valid = False] *)
Definition invalidate (self : t) : t :=
  {| _buffer_size := _buffer_size self;
     _buffer_value := _buffer_value self;
     _is_valid := false;
     _hash_code := _hash_code self;
     _routing_hash := _routing_hash self |}.

(** [__will_buffer_overflow( n )] with [throw_if_overflow] left at its
    default: raises, or returns [False]. *)
Definition __will_buffer_overflow (self : t) (n : Z) : exc bool :=
  if n <? 0 then
    raise (GPUdbException "Argument 'n' must be greater than or equal to zero")
  else if Z.of_nat (length (_buffer_value self)) + n >? _buffer_size self then
    raise (GPUdbException "The buffer does not have sufficient room in it")
  else ret false.

Section Host.
(** The byte order of the machine the client runs on. *)
Variable host : byteorder.
(** [mmh3.hash64( data, seed )]: the two signed 64-bit halves. *)
Variable hash64 : list Z -> Z -> Z * Z.
(** The value of a code point that the regular expression [\d]
    accepts as a decimal digit. *)
Variable unicode_digit : Z -> option Z.

(** [struct.pack( "=b", 0 )] *)
Definition pack_b0 : list Z := native_bytes host 1 0.

(** [for i in range( 0, n ): self._buffer_value += struct.pack( "=b", 0 )] *)
Fixpoint pad (self : t) (n : nat) : t :=
  match n with
  | O => self
  | S n' => pad (extend self pack_b0) n'
  end.

(** The Python 3 definition. *)
Definition add_charN (self : t) (val : pyval) (N : Z) : exc t :=
  let too_long :=
    match val with
    | PyNone => ret false
    | PyInt z => if z =? 0 then ret false else raise TypeError
    | PyStr s =>
        match s with
        | [] => ret false
        | _ => ret (Z.of_nat (length s) >? N)
        end
    end in
  do long <- too_long;
  if long : bool then raise (GPUdbException "Char{N} given too long a value")
  else
    do_ __will_buffer_overflow self N;
    match val with
    | PyNone => ret (pad self (Z.to_nat N))
    | PyInt _ => raise TypeError
    | PyStr s =>
        let byte_count := Z.of_nat (length s) in
        let byte_count := if byte_count >? N then N else byte_count in
        let self := pad self (Z.to_nat (N - byte_count)) in
        do b <- utf8 (rev s);
        ret (extend self b)
    end.

Definition add_char1 (self : t) (val : pyval) := add_charN self val 1.
Definition add_char2 (self : t) (val : pyval) := add_charN self val 2.
Definition add_char4 (self : t) (val : pyval) := add_charN self val 4.
Definition add_char8 (self : t) (val : pyval) := add_charN self val 8.
Definition add_char16 (self : t) (val : pyval) := add_charN self val 16.
Definition add_char32 (self : t) (val : pyval) := add_charN self val 32.
Definition add_char64 (self : t) (val : pyval) := add_charN self val 64.
Definition add_char128 (self : t) (val : pyval) := add_charN self val 128.
Definition add_char256 (self : t) (val : pyval) := add_charN self val 256.

(** [add_int8], [add_int16], [add_int] and [add_long]: formats "=b",
    "=h", "=i" and "=q". *)
Definition add_signed (width : Z) (self : t) (val : pyval) : exc t :=
  do_ __will_buffer_overflow self width;
  match val with
  | PyNone =>
      do b <- pack_signed host (Z.to_nat width) 0;
      ret (extend self b)
  | PyInt z =>
      do b <- pack_signed host (Z.to_nat width) z;
      ret (extend self b)
  | PyStr _ => raise StructError
  end.

Definition add_int := add_signed _ColumnTypeSize.INT.
Definition add_int8 := add_signed _ColumnTypeSize.INT8.
Definition add_int16 := add_signed _ColumnTypeSize.INT16.
Definition add_long := add_signed _ColumnTypeSize.LONG.

(** The Python 3 definition. *)
Definition add_string (self : t) (val : pyval) : exc t :=
  do_ __will_buffer_overflow self _ColumnTypeSize.STRING;
  match val with
  | PyNone =>
      do b <- pack_signed host 8 0;
      ret (extend self b)
  | PyInt _ => raise TypeError
  | PyStr s =>
      do bs <- utf8 s;
      let a := hash64 bs 10 in
      let hash_val := fst a in
      do b <- pack_signed host 8 hash_val;
      ret (extend self b)
  end.

(** *** The IPv4 pattern
    [^(?P<a>\d{1,3})\.(?P<b>\d{1,3})\.(?P<c>\d{1,3})\.(?P<d>\d{1,3})$] *)

(** The longest run of at most [max] digits at the head of [s], as
    digit values, and what follows it.  A dot is not a digit, so the
    greedy run is the only one a match can use. *)
Fixpoint take_digits (max : nat) (s : pystr) : list Z * pystr :=
  match max, s with
  | S max', c :: s' =>
      match unicode_digit c with
      | Some d =>
          let '(ds, rest) := take_digits max' s' in (d :: ds, rest)
      | None => ([], s)
      end
  | _, _ => ([], s)
  end.

(** [int( digits )] *)
Definition int_of_digits (ds : list Z) : Z :=
  fold_left (fun acc d => 10 * acc + d) ds 0.

(** [\d{1,3}\.] *)
Definition match_octet_dot (s : pystr) : option (Z * pystr) :=
  match take_digits 3 s with
  | ((_ :: _) as ds, 46 :: rest) => Some (int_of_digits ds, rest)
  | _ => None
  end.

(** [\d{1,3}$]: the end of the string, or a newline that ends it. *)
Definition match_octet_end (s : pystr) : option Z :=
  match take_digits 3 s with
  | ((_ :: _) as ds, []) => Some (int_of_digits ds)
  | ((_ :: _) as ds, [10]) => Some (int_of_digits ds)
  | _ => None
  end.

(** [self._ipv4_regex.match( val )] and the four named groups read
    with [int]. *)
Definition ipv4_match (val : pystr) : option (Z * Z * Z * Z) :=
  match match_octet_dot val with
  | Some (a, s1) =>
      match match_octet_dot s1 with
      | Some (b, s2) =>
          match match_octet_dot s2 with
          | Some (c, s3) =>
              match match_octet_end s3 with
              | Some d => Some (a, b, c, d)
              | None => None
              end
          | None => None
          end
      | None => None
      end
  | None => None
  end.

Definition add_ipv4 (self : t) (val : pyval) : exc t :=
  do_ __will_buffer_overflow self _ColumnTypeSize.IPV4;
  match val with
  | PyNone =>
      do z <- pack_unsigned host 4 0;
      ret (extend self z)
  | PyInt _ => raise TypeError
  | PyStr s =>
      match ipv4_match s with
      | None =>
          do z <- pack_unsigned host 4 0;
          ret (invalidate (extend self z))
      | Some (a, b, c, d) =>
          if (a >? 255) || (b >? 255) || (c >? 255) || (d >? 255) then
            do z <- pack_unsigned host 4 0;
            ret (invalidate (extend self z))
          else
            let ipv4_integer :=
              Z.lor (Z.lor (Z.lor (Z.shiftl a 24) (Z.shiftl b 16))
                            (Z.shiftl c 8)) d in
            do bs <- pack_unsigned host 4 ipv4_integer;
            ret (extend self bs)
      end
  end.

(** *** The decimal pattern
    [^\s*(?P<sign>[+-]?)((?P<int>\d+)(\.(?P<frac1>\d{0,4}))?|\.(?P<frac2>\d{1,4}))\s*\Z]

    White space, the signs, the dot and the digits are different
    characters, so each greedy run is the only one a match can use. *)

(** The characters the regular expression [\s] accepts. *)
Variable unicode_space : Z -> bool.
(** [sys.get_int_max_str_digits()], the greatest number of digits [int]
    converts; 0 when there is no limit, as in the interpreters that do
    not have the function. *)
Variable max_str_digits : nat.

(** The groups of a match: the characters of "sign" and the digits of
    "int", "frac1" and "frac2", [None] for a group that took no part. *)
Record decimal_groups : Type := {
  g_sign : pystr;
  g_int : option (list Z);
  g_frac1 : option (list Z);
  g_frac2 : option (list Z)
}.

(** [\s*] *)
Fixpoint skip_spaces (s : pystr) : pystr :=
  match s with
  | c :: s' => if unicode_space c then skip_spaces s' else s
  | [] => []
  end.

(** [\s*\Z] *)
Definition spaces_to_end (s : pystr) : bool := forallb unicode_space s.

(** [self._decimal_regex.match( val )] *)
Definition decimal_match (val : pystr) : option decimal_groups :=
  let s := skip_spaces val in
  let '(sign, s) :=
    match s with
    | c :: s' => if (c =? 43) || (c =? 45) then ([c], s') else ([], s)
    | [] => ([], [])
    end in
  match take_digits (length s) s with
  | ((_ :: _) as ds, 46 :: rest) =>
      let '(fs, rest') := take_digits (length rest) rest in
      if (length fs <=? 4)%nat && spaces_to_end rest' then
        Some {| g_sign := sign; g_int := Some ds; g_frac1 := Some fs;
                g_frac2 := None |}
      else None
  | ((_ :: _) as ds, rest) =>
      if spaces_to_end rest then
        Some {| g_sign := sign; g_int := Some ds; g_frac1 := None;
                g_frac2 := None |}
      else None
  | ([], 46 :: rest) =>
      let '(fs, rest') := take_digits (length rest) rest in
      if (1 <=? length fs)%nat && (length fs <=? 4)%nat && spaces_to_end rest'
      then
        Some {| g_sign := sign; g_int := None; g_frac1 := None;
                g_frac2 := Some fs |}
      else None
  | _ => None
  end.

(** [int( digits )] for the digits of a group. *)
Definition int_of_group (ds : list Z) : exc Z :=
  if (0 <? max_str_digits)%nat && (max_str_digits <? length ds)%nat then
    raise ValueError
  else ret (int_of_digits ds).

(** The body of the [try] of [add_decimal]. *)
Definition decimal_value (values : decimal_groups) : exc Z :=
  do integral_part <-
    match g_int values with
    | Some ((_ :: _) as ds) => int_of_group ds
    | _ => ret 0
    end;
  let fraction :=
    match g_frac1 values with
    | Some ((_ :: _) as fs) => fs
    | _ => match g_frac2 values with
           | Some ((_ :: _) as fs) => fs
           | _ => []
           end
    end in
  let sign := g_sign values in
  let decimal_value := integral_part * 10000 in
  let frac_len := Z.of_nat (length fraction) in
  do decimal_value <-
    (if frac_len >? 0 then
       do fraction_int <- int_of_group fraction;
       let fractional_part := fraction_int * 10 ^ (4 - frac_len) in
       ret (integral_part * 10000 + fractional_part)
     else ret decimal_value);
  if bool_decide (sign = [45]) then ret (- decimal_value)
  else ret decimal_value.

(** [add_decimal], the entry "decimal" of the dict of add functions. *)
Definition add_decimal (self : t) (val : pyval) : exc t :=
  do_ __will_buffer_overflow self _ColumnTypeSize.DECIMAL;
  match val with
  | PyNone =>
      do z <- pack_unsigned host 8 0;
      ret (extend self z)
  | PyInt _ => raise TypeError
  | PyStr s =>
      match decimal_match s with
      | None =>
          do z <- pack_signed host 8 0;
          ret (invalidate (extend self z))
      | Some values =>
          match decimal_value values with
          | inl _ =>
              do z <- pack_signed host 8 0;
              ret (invalidate (extend self z))
          | inr decimal_value =>
              do b <- pack_signed host 8 decimal_value;
              ret (extend self b)
          end
      end
  end.

(** The Python 3 definition. *)
Definition compute_hashes (self : t) : t :=
  let a := hash64 (_buffer_value self) 10 in
  let routing_hash := fst a in
  {| _buffer_size := _buffer_size self;
     _buffer_value := _buffer_value self;
     _is_valid := _is_valid self;
     _hash_code := Z.lxor routing_hash (Z.shiftr routing_hash 32);
     _routing_hash := routing_hash |}.

End Host.

(** [abs( self._routing_hash ) % routing_table_len] *)
Definition routing_index (self : t) (routing_table_len : Z) : Z :=
  Z.abs (_routing_hash self) mod routing_table_len.

(** [routing_table] is [None] or a list of worker indices. *)
Definition route (self : t) (routing_table : option (list Z)) : exc Z :=
  match routing_table with
  | None => ret 0
  | Some [] => ret 0
  | Some table =>
      let routing_table_len := Z.of_nat (length table) in
      let routing_index := routing_index self routing_table_len in
      if routing_index >=? routing_table_len then
        raise (GPUdbException "Computed routing index is out-of-bounds")
      else
        match table !! Z.to_nat routing_index with
        | Some rank => ret rank
        | None => raise IndexError
        end
  end.

End _RecordKey.

(** ** _WorkerQueue

    The queue of one worker rank.  [R] is the type of the (encoded)
    records it holds.  The client handle the queue creates for its URL is
    identified with that URL. *)

Module _WorkerQueue.

Section Queue.
Context {R : Type}.

Record t : Type := mk {
  url : string;
  capacity : Z;
  has_primary_key : bool;
  update_on_existing_pk : bool;
  record_queue : list R;
  primary_key_to_queue_index_map : option (gmap Z nat)
}.

Definition __init__ (url : string) (capacity : Z)
    (has_primary_key update_on_existing_pk : bool) : exc t :=
  if capacity <=? 0 then
    raise (GPUdbException
             "Constructor parameter 'capacity' must be a non-zero positive value")
  else
    ret {| url := url;
           capacity := capacity;
           has_primary_key := has_primary_key;
           update_on_existing_pk := update_on_existing_pk;
           record_queue := [];
           primary_key_to_queue_index_map :=
             if has_primary_key then Some ∅ else None |}.

Definition set_queue (self : t) (q : list R) (m : option (gmap Z nat)) : t :=
  {| url := url self;
     capacity := capacity self;
     has_primary_key := has_primary_key self;
     update_on_existing_pk := update_on_existing_pk self;
     record_queue := q;
     primary_key_to_queue_index_map := m |}.

(** [self.record_queue.append( record )] *)
Definition append (self : t) (record : R) : t :=
  set_queue self (record_queue self ++ [record])
            (primary_key_to_queue_index_map self).

(** [self.primary_key_to_queue_index_map[ key_hash_code ] = index] *)
Definition index_key (self : t) (m : gmap Z nat) (key_hash_code : Z)
    (index : nat) : t :=
  set_queue self (record_queue self) (Some (<[key_hash_code := index]> m)).

(** The truth value of the index in [if self.primary_key_to_queue_index_map:]:
    false for [None] and for the empty dict. *)
Definition index_truthy (m : option (gmap Z nat)) : bool :=
  match m with
  | None => false
  | Some m => negb (bool_decide (m = ∅))
  end.

(** Returns the old queue and leaves a new empty one. *)
Definition flush (self : t) : t * list R :=
  let old_queue := record_queue self in
  let m := primary_key_to_queue_index_map self in
  (set_queue self [] (if index_truthy m then Some ∅ else m), old_queue).

(** The end of [insert]: flush when the capacity has been reached. *)
Definition flush_if_full (self : t) : t * option (list R) :=
  if Z.of_nat (length (record_queue self)) =? capacity self then
    let '(self', old_queue) := flush self in (self', Some old_queue)
  else (self, None).

(** [insert( record, key )]: the queue after the call and the value
    returned, [None] or the list of records of the full queue. *)
Definition insert (self : t) (record : R) (key : option _RecordKey.t)
    : exc (t * option (list R)) :=
  let old_queue_length := length (record_queue self) in
  do key_is_valid <-
    (if has_primary_key self then
       match key with
       | Some k => ret (_RecordKey.is_valid k)
       | None => raise AttributeError
       end
     else ret false);
  if key_is_valid : bool then
    match key, primary_key_to_queue_index_map self with
    | Some k, Some m =>
        let key_hash_code := _RecordKey.hash_code k in
        if update_on_existing_pk self then
          match m !! key_hash_code with
          | Some key_index =>
              if (key_index <? length (record_queue self))%nat then
                ret (flush_if_full
                       (set_queue self
                          (<[key_index := record]> (record_queue self))
                          (Some m)))
              else raise IndexError
          | None =>
              ret (flush_if_full
                     (index_key (append self record) m key_hash_code
                                old_queue_length))
          end
        else
          match m !! key_hash_code with
          | Some _ => ret (self, None)
          | None =>
              ret (flush_if_full
                     (index_key (append self record) m key_hash_code
                                old_queue_length))
          end
    | _, _ => raise TypeError
    end
  else ret (flush_if_full (append self record)).

Definition get_url (self : t) : string := url self.

End Queue.

Arguments t R : clear implicits.

End _WorkerQueue.

(** ** Record types and records

    What the code reads of a [GPUdbRecordType]: the ordered columns, each
    with a name and a type, and the dict from column name to the list of
    the column's properties.  A record is the ordered dict of its column
    values. *)

Record GPUdbRecordColumn : Type := {
  name : string;
  column_type : string
}.

Record GPUdbRecordType : Type := {
  columns : list GPUdbRecordColumn;
  column_properties : gmap string (list string)
}.

Definition record : Type := list (string * pyval).

(** String constants of class [C] and of [GPUdbColumnProperty]. *)
Module C.
Definition _pk : string := "primary_key".
Definition _shard_key : string := "shard_key".
Definition _ok : string := "OK".
Definition NULLABLE : string := "nullable".
Definition _error : string := "ERROR".
Definition _multihead_enabled : string := "conf.enable_worker_http_servers".
Definition _worker_URLs : string := "conf.worker_http_server_urls".
Definition _worker_IPs : string := "conf.worker_http_server_ips".
Definition _worker_ports : string := "conf.worker_http_server_ports".
Definition _TRUE : string := "TRUE".
End C.

(** [x in l] for a list of strings. *)
Definition str_in (x : string) (l : list string) : bool :=
  existsb (String.eqb x) l.

(** [l.index( x )] *)
Fixpoint str_index (x : string) (l : list string) : option nat :=
  match l with
  | [] => None
  | y :: l' => if String.eqb x y then Some O else S <$> str_index x l'
  end.

(** ** _RecordKeyBuilder *)

Module _RecordKeyBuilder.

(** One entry of [key_schema_fields]: an ordered dict with the keys
    "name" and "type" and, when it was set, "is_nullable". *)
Record key_field : Type := {
  _name : string;
  _type : string;
  _is_nullable : option bool
}.

Record t : Type := mk {
  _record_type : GPUdbRecordType;
  _record_column_names : list string;
  _column_properties : gmap string (list string);
  routing_key_indices : list nat;
  key_columns_names : list string;
  key_schema_fields : list key_field;
  key_schema_str : option string;
  _key_types : list string;
  _key_buffer_size : Z
}.

(** *** The loop over all columns

    The lists it fills, and the loop variables [column_name] and
    [column_type], which stay bound after the loop. *)
Record scan : Type := {
  s_routing_key_indices : list nat;
  s_key_columns_names : list string;
  s_key_schema_fields : list key_field;
  s_column_name : option string;
  s_column_type : option string
}.

Definition scan_init : scan :=
  {| s_routing_key_indices := [];
     s_key_columns_names := [];
     s_key_schema_fields := [];
     s_column_name := None;
     s_column_type := None |}.

(** One iteration, for column [i]. *)
Definition scan_column (props : gmap string (list string))
    (is_primary_key : bool) (st : scan) (i : nat) (col : GPUdbRecordColumn)
    : scan :=
  let column_name := name col in
  let column_type := column_type col in
  let column_properties := props !! column_name in
  let has tag :=
    match column_properties with
    | Some ((_ :: _) as ps) => str_in tag ps
    | _ => false
    end in
  let is_key := if is_primary_key then has C._pk else has C._shard_key in
  if is_key then
    {| s_routing_key_indices := s_routing_key_indices st ++ [i];
       s_key_columns_names := s_key_columns_names st ++ [column_name];
       s_key_schema_fields :=
         s_key_schema_fields st ++
         [ {| _name := column_name;
              _type := column_type;
              _is_nullable :=
                Some (str_in C.NULLABLE (default [] column_properties)) |} ];
       s_column_name := Some column_name;
       s_column_type := Some column_type |}
  else
    {| s_routing_key_indices := s_routing_key_indices st;
       s_key_columns_names := s_key_columns_names st;
       s_key_schema_fields := s_key_schema_fields st;
       s_column_name := Some column_name;
       s_column_type := Some column_type |}.

Fixpoint scan_columns (props : gmap string (list string))
    (is_primary_key : bool) (st : scan) (i : nat)
    (cols : list GPUdbRecordColumn) : scan :=
  match cols with
  | [] => st
  | col :: cols' =>
      scan_columns props is_primary_key
                   (scan_column props is_primary_key st i col) (S i) cols'
  end.

(** *** The track-type check *)

Definition track_type_special_columns : list string :=
  ["TRACKID"; "TIMESTAMP"; "x"; "y"]%string.

Definition is_track_type (record_column_names : list string) : bool :=
  forallb (fun c => str_in c record_column_names) track_type_special_columns.

Definition track_type (record_column_names : list string)
    (is_primary_key : bool) (st : scan) : exc scan :=
  if negb is_primary_key && is_track_type record_column_names then
    match str_index "TRACKID" record_column_names with
    | None => raise ValueError
    | Some track_id_index =>
        match s_routing_key_indices st with
        | [] =>
            match s_column_name st, s_column_type st with
            | Some column_name, Some column_type =>
                ret {| s_routing_key_indices := [track_id_index];
                       s_key_columns_names := s_key_columns_names st;
                       s_key_schema_fields :=
                         s_key_schema_fields st ++
                         [ {| _name := column_name;
                              _type := column_type;
                              _is_nullable := None |} ];
                       s_column_name := s_column_name st;
                       s_column_type := s_column_type st |}
            | _, _ => raise NameError
            end
        | [i] =>
            if (i =? track_id_index)%nat then ret st
            else raise (GPUdbException
                   "Cannot have a shard key other than 'TRACKID' for track-type tables.")
        | _ => raise (GPUdbException
                   "Cannot have a shard key other than 'TRACKID' for track-type tables.")
        end
    end
  else ret st.

(** The key columns and the descriptors of their schema, as they stand
    after the loop over the columns and the track-type check. *)
Definition analyze (record_type : GPUdbRecordType) (is_primary_key : bool)
    : exc scan :=
  let record_column_names := map name (columns record_type) in
  track_type record_column_names is_primary_key
    (scan_columns (column_properties record_type) is_primary_key
                  scan_init O (columns record_type)).

(** *** The key buffer size and the key types *)

(** [list( set( column_properties ).intersection( column_type_sizes.keys() ) )] *)
Definition type_related_properties (column_properties : list string)
    : list string :=
  remove_dups
    (filter (fun p => is_Some (_ColumnTypeSize.size_of p)) column_properties).

(** One iteration of the loop over [routing_key_indices]: the size and
    the type of key column [i]. *)
Definition key_column (record_type : GPUdbRecordType) (i : nat)
    : exc (Z * string) :=
  match columns record_type !! i with
  | None => raise IndexError
  | Some col =>
      match column_properties record_type !! name col with
      | None => raise TypeError
      | Some column_properties =>
          do column_type <-
            match type_related_properties column_properties with
            | [] => ret (column_type col)
            | [p] => ret p
            | _ => raise (GPUdbException
                     "Column has multiple type-related properties (can have at most one)")
            end;
          match _ColumnTypeSize.size_of column_type with
          | Some size => ret (size, column_type)
          | None => raise (KeyError column_type)
          end
      end
  end.

Fixpoint key_columns (record_type : GPUdbRecordType) (indices : list nat)
    (key_buffer_size : Z) (key_types : list string) : exc (Z * list string) :=
  match indices with
  | [] => ret (key_buffer_size, key_types)
  | i :: indices' =>
      do st <- key_column record_type i;
      key_columns record_type indices'
                  (key_buffer_size + fst st) (key_types ++ [snd st])
  end.

(** *** The key schema string *)

Definition dq : string := String (ascii_of_nat 34) EmptyString.

(** [s.replace( " ", "" ).replace( "\n", "" )] *)
Definition strip_blanks (s : string) : string :=
  string_of_list_ascii
    (filter (fun a => negb (Ascii.eqb a " " || Ascii.eqb a (ascii_of_nat 10)))
            (list_ascii_of_string s)).

Definition key_field_description (key : key_field) : exc string :=
  match _is_nullable key with
  | None => raise (KeyError "is_nullable")
  | Some nullable =>
      let key_type :=
        if nullable then "[" ++ dq ++ _type key ++ dq ++ ", " ++ dq ++ "null" ++ dq ++ "]"
        else dq ++ _type key ++ dq in
      ret ("{" ++ dq ++ "name" ++ dq ++ ":" ++ dq ++ _name key ++ dq ++ ", "
               ++ dq ++ "type" ++ dq ++ ":" ++ key_type ++ "}")
  end%string.

Fixpoint key_field_descriptions (keys : list key_field) : exc (list string) :=
  match keys with
  | [] => ret []
  | key :: keys' =>
      do d <- key_field_description key;
      do ds <- key_field_descriptions keys';
      ret (d :: ds)
  end.

Definition make_key_schema_str (keys : list key_field) : exc string :=
  do key_schema_fields_str <- key_field_descriptions keys;
  let key_schema_fields_str :=
    strip_blanks (String.concat "," key_schema_fields_str) in
  ret (strip_blanks
         ("{ " ++ dq ++ "type" ++ dq ++ " : " ++ dq ++ "record" ++ dq ++ ", "
               ++ dq ++ "name" ++ dq ++ " : " ++ dq ++ "key_schema" ++ dq ++ ", "
               ++ dq ++ "fields" ++ dq ++ " : [" ++ key_schema_fields_str
               ++ "] }"))%string.

(** *** The constructor

    The Avro schema [key_schema] parsed from [key_schema_str] is not
    kept: nothing below reads it. *)
Definition __init__ (record_type : GPUdbRecordType) (is_primary_key : bool)
    : exc t :=
  do st <- analyze record_type is_primary_key;
  let base key_schema_str key_types key_buffer_size :=
    {| _record_type := record_type;
       _record_column_names := map name (columns record_type);
       _column_properties := column_properties record_type;
       routing_key_indices := s_routing_key_indices st;
       key_columns_names := s_key_columns_names st;
       key_schema_fields := s_key_schema_fields st;
       key_schema_str := key_schema_str;
       _key_types := key_types;
       _key_buffer_size := key_buffer_size |} in
  match s_routing_key_indices st with
  | [] => ret (base None [] 0)
  | indices =>
      do sz <- key_columns record_type indices 0 [];
      do str <- make_key_schema_str (s_key_schema_fields st);
      ret (base (Some str) (snd sz) (fst sz))
  end.

Definition has_key (self : t) : bool :=
  (0 <? length (key_columns_names self))%nat.

Definition has_same_key (self other_record_key_builder : t) : bool :=
  bool_decide (key_schema_str self = key_schema_str other_record_key_builder).

(** The argument [key_values] of the methods that take the values of
    the key columns only: a list, or a dict from column name to value. *)
Inductive key_values : Type :=
  | KeyList (values : list pyval)
  | KeyDict (values : gmap string pyval).

(** [len( key_values )] *)
Definition key_values_len (kv : key_values) : nat :=
  match kv with
  | KeyList values => length values
  | KeyDict values => size values
  end.

(** [[ key_values[ _name ] for _name in self.key_columns_names ]], with
    the [KeyError] of a missing name turned into a [GPUdbException]. *)
Fixpoint values_of_names (values : gmap string pyval) (names : list string)
    : exc (list pyval) :=
  match names with
  | [] => ret []
  | _name :: names' =>
      match values !! _name with
      | None =>
          raise (GPUdbException
                   "Missing value for column in input argument 'key_values'")
      | Some v =>
          do vs <- values_of_names values names';
          ret (v :: vs)
      end
  end.

(** The list of key values the methods go on with. *)
Definition key_values_list (self : t) (kv : key_values) : exc (list pyval) :=
  match kv with
  | KeyList values => ret values
  | KeyDict values => values_of_names values (key_columns_names self)
  end.

(** *** The expression of a key *)

Definition _string_types : list string :=
  [ "char1"; "char2"; "char4"; "char8"; "char16"; "char32"; "char64";
    "char128"; "char256"; "date"; "datetime"; "decimal"; "ipv4"; "time";
    "string" ]%string.

(** [str( z )] *)
Definition str_of_int (z : Z) : pystr :=
  str_of (NilZero.string_of_int (Z.to_int z)).

(** The value as [str.format] writes it for the field [{d}]. *)
Definition format_value (key_value : pyval) : pystr :=
  match key_value with
  | PyNone => str_of "None"
  | PyInt z => str_of_int z
  | PyStr s => s
  end.

(** The expression of one key column: [is_null(n)] for a null,
    [(n = "d")] for a value of a string type and [(n = d)] for any
    other. *)
Definition key_expression (key_value : pyval) (col_type col_name : string)
    : pystr :=
  match key_value with
  | PyNone => str_of "is_null(" ++ str_of col_name ++ str_of ")"
  | _ =>
      if str_in col_type _string_types then
        str_of "(" ++ str_of col_name ++ str_of " = " ++ [34]
          ++ format_value key_value ++ [34] ++ str_of ")"
      else
        str_of "(" ++ str_of col_name ++ str_of " = "
          ++ format_value key_value ++ str_of ")"
  end.

(** The expression of key column [i]. *)
Definition key_expression_at (self : t) (key_values : list pyval) (i : nat)
    : exc pystr :=
  match key_values !! i with
  | None => raise IndexError
  | Some key_value =>
      match _key_types self !! i with
      | None => raise IndexError
      | Some col_type =>
          match key_columns_names self !! i with
          | None => raise IndexError
          | Some col_name => ret (key_expression key_value col_type col_name)
          end
      end
  end.

(** The loop [for i in range( 1, len( self.routing_key_indices ) )], with
    [n] rounds left from [i] on. *)
Fixpoint expression_loop (self : t) (key_values : list pyval) (n i : nat)
    (expression : pystr) : exc pystr :=
  match n with
  | O => ret expression
  | S n' =>
      do exp <- key_expression_at self key_values i;
      expression_loop self key_values n' (S i)
                      (expression ++ str_of " and " ++ exp)
  end.

(** [build_expression_with_key_values_only( key_values )]: [None] when
    there is no key. *)
Definition build_expression_with_key_values_only (self : t) (kv : key_values)
    : exc (option pystr) :=
  if _key_buffer_size self =? 0 then ret None
  else if negb (key_values_len kv =? length (key_columns_names self))%nat then
    raise (GPUdbException "Incorrect number of key values specified")
  else
    do key_values <- key_values_list self kv;
    do expression <- key_expression_at self key_values 0;
    do expression <-
      expression_loop self key_values
                      (length (routing_key_indices self) - 1) 1 expression;
    ret (Some expression).

Section Host.
Variable host : byteorder.
Variable hash64 : list Z -> Z -> Z * Z.
Variable unicode_digit : Z -> option Z.
(** The appenders of the column types whose images depend on the
    floating-point format, on [datetime] or on the decimal pattern:
    "date", "datetime", "double", "float", "decimal", "time" and
    "timestamp". *)
Variable add_other : string -> _RecordKey.t -> pyval -> exc _RecordKey.t.

(** The dict from column type to the [_RecordKey] add function. *)
Definition _column_type_add_functions (column_type : string)
    : option (_RecordKey.t -> pyval -> exc _RecordKey.t) :=
  if str_in column_type
       ["date"; "datetime"; "double"; "float"; "decimal"; "time"; "timestamp"]
  then Some (add_other column_type)
  else if String.eqb column_type "char1" then Some (_RecordKey.add_char1 host)
  else if String.eqb column_type "char2" then Some (_RecordKey.add_char2 host)
  else if String.eqb column_type "char4" then Some (_RecordKey.add_char4 host)
  else if String.eqb column_type "char8" then Some (_RecordKey.add_char8 host)
  else if String.eqb column_type "char16" then Some (_RecordKey.add_char16 host)
  else if String.eqb column_type "char32" then Some (_RecordKey.add_char32 host)
  else if String.eqb column_type "char64" then Some (_RecordKey.add_char64 host)
  else if String.eqb column_type "char128" then Some (_RecordKey.add_char128 host)
  else if String.eqb column_type "char256" then Some (_RecordKey.add_char256 host)
  else if String.eqb column_type "int" then Some (_RecordKey.add_int host)
  else if String.eqb column_type "int8" then Some (_RecordKey.add_int8 host)
  else if String.eqb column_type "int16" then Some (_RecordKey.add_int16 host)
  else if String.eqb column_type "long" then Some (_RecordKey.add_long host)
  else if String.eqb column_type "string" then
    Some (_RecordKey.add_string host hash64)
  else if String.eqb column_type "ipv4" then
    Some (_RecordKey.add_ipv4 host unicode_digit)
  else None.

(** The loop of [build] over the routing columns: [indices] and
    [key_types] advance together. *)
Fixpoint add_columns (values : list pyval) (indices : list nat)
    (key_types : list string) (record_key : _RecordKey.t)
    : exc _RecordKey.t :=
  match indices with
  | [] => ret record_key
  | key_idx :: indices' =>
      match values !! key_idx with
      | None => raise IndexError
      | Some value =>
          match key_types with
          | [] => raise IndexError
          | col_type :: key_types' =>
              match _column_type_add_functions col_type with
              | None => raise (KeyError col_type)
              | Some add =>
                  do record_key <- add record_key value;
                  add_columns values indices' key_types' record_key
              end
          end
      end
  end.

(** [build( record )]: [None] when there is no key. *)
Definition build (self : t) (rec : record) : exc (option _RecordKey.t) :=
  if _key_buffer_size self =? 0 then ret None
  else if negb (bool_decide (map fst rec = _record_column_names self)) then
    raise (GPUdbException "Given record must be of the type of the table")
  else
    do record_key <- _RecordKey.__init__ (_key_buffer_size self);
    do record_key <-
      add_columns (map snd rec) (routing_key_indices self)
                  (_key_types self) record_key;
    ret (Some (_RecordKey.compute_hashes hash64 record_key)).

(** The loop of [build_key_with_shard_values_only]:
    [for i in range( 0, len( self.routing_key_indices ) )], with [n]
    rounds left from [i] on. *)
Fixpoint add_key_values (key_values : list pyval) (key_types : list string)
    (n : nat) (i : nat) (record_key : _RecordKey.t) : exc _RecordKey.t :=
  match n with
  | O => ret record_key
  | S n' =>
      match key_values !! i with
      | None => raise IndexError
      | Some value =>
          match key_types !! i with
          | None => raise IndexError
          | Some col_type =>
              match _column_type_add_functions col_type with
              | None => raise (KeyError col_type)
              | Some add =>
                  do record_key <- add record_key value;
                  add_key_values key_values key_types n' (S i) record_key
              end
          end
      end
  end.

(** [build_key_with_shard_values_only( key_values )]: [None] when there
    is no key. *)
Definition build_key_with_shard_values_only (self : t) (kv : key_values)
    : exc (option _RecordKey.t) :=
  if _key_buffer_size self =? 0 then ret None
  else if negb (key_values_len kv =? length (key_columns_names self))%nat then
    raise (GPUdbException "Incorrect number of key values specified")
  else
    do key_values <- key_values_list self kv;
    do record_key <- _RecordKey.__init__ (_key_buffer_size self);
    do record_key <-
      add_key_values key_values (_key_types self)
                     (length (routing_key_indices self)) O record_key;
    ret (Some (_RecordKey.compute_hashes hash64 record_key)).

End Host.

End _RecordKeyBuilder.

(** ** The database client and the worker list

    What the code reads of its collaborators: of a [GPUdbWorkerList], the
    worker URLs and whether multi-head I/O is enabled at the server; of
    the [GPUdb] handle, the worker list it yields when none is passed in
    ([GPUdbWorkerList( gpudb, use_head_node_only = b )]) and the "rank"
    entry of the [admin_show_shards] response. *)

Module GPUdbWorkerList.
Record t : Type := {
  worker_urls : list string;
  _is_multihead_enabled : bool
}.

Definition get_worker_urls (self : t) := worker_urls self.
Definition is_multihead_enabled (self : t) := _is_multihead_enabled self.

(** *** The constructor *)

(** [s.split( sep )] for a separator of one character. *)
Fixpoint split (sep : ascii) (s : string) : list string :=
  match s with
  | EmptyString => [EmptyString]
  | String c s' =>
      if Ascii.eqb c sep then EmptyString :: split sep s'
      else match split sep s' with
           | part :: parts => String c part :: parts
           | [] => [String c EmptyString]
           end
  end.

(** What the constructor reads of the response of
    [show_system_properties]: the status and the property map. *)
Record system_properties_response : Type := {
  sp_status : string;
  sp_property_map : gmap string string
}.

Section Parsers.
(** [urlparse( url_str )]: whether the scheme, the host name or the port
    is missing.  Reading the port raises when it is not a number. *)
Variable malformed_url : string -> exc bool.
(** The truth value of [re.match( ip_regex, s )]; the pattern may not
    compile. *)
Variable re_match : string -> string -> exc bool.
(** [int( part )], [None] when it raises [ValueError]. *)
Variable int_of_str : string -> option Z.

Definition validate_ip_address (ip_address : string) : bool :=
  let parts := split "." ip_address in
  (length parts =? 4)%nat
  && forallb (fun part =>
                match int_of_str part with
                | Some v => (0 <=? v) && (v <? 256)
                | None => false
                end) parts.

(** The loop over the URLs of one rank: the URL that is taken, if any. *)
Fixpoint first_url (ip_regex : string) (url_addresses_for_this_rank : list string)
    : exc (option string) :=
  match url_addresses_for_this_rank with
  | [] => ret None
  | url_str :: rest =>
      do malformed <- malformed_url url_str;
      if malformed : bool then raise (GPUdbException "Malformed URL")
      else if String.eqb ip_regex EmptyString then ret (Some url_str)
      else
        do matched <- re_match ip_regex url_str;
        if matched : bool then ret (Some url_str)
        else first_url ip_regex rest
  end.

(** The loop over the ranks after rank 0, the worker URLs given. *)
Fixpoint urls_of_ranks (ip_regex : string) (ranks : list string)
    : exc (list string) :=
  match ranks with
  | [] => ret []
  | urls_per_rank :: ranks' =>
      do found <- first_url ip_regex (split "," urls_per_rank);
      match found with
      | None => raise (GPUdbException "No matching URL found for worker")
      | Some url =>
          do urls <- urls_of_ranks ip_regex ranks';
          ret (url :: urls)
      end
  end.

(** The loop over the IP addresses of one rank, whose port is [port]. *)
Fixpoint first_ip (protocol ip_regex port : string)
    (ip_addresses_for_this_rank : list string) : exc (option string) :=
  match ip_addresses_for_this_rank with
  | [] => ret None
  | ip_address :: rest =>
      if negb (validate_ip_address ip_address) then
        raise (GPUdbException "Malformed IP address")
      else
        let url := (protocol ++ ip_address ++ ":" ++ port)%string in
        if String.eqb ip_regex EmptyString then ret (Some url)
        else
          do matched <- re_match ip_regex ip_address;
          if matched : bool then ret (Some url)
          else first_ip protocol ip_regex port rest
  end.

(** The loop over the ranks after rank 0, the IP addresses and the
    ports given: each rank with its port. *)
Fixpoint urls_of_ips (protocol ip_regex : string)
    (ranks : list (string * string)) : exc (list string) :=
  match ranks with
  | [] => ret []
  | (ips_per_rank, port) :: ranks' =>
      do found <- first_ip protocol ip_regex port (split "," ips_per_rank);
      match found with
      | None => raise (GPUdbException "No matching IP address found for worker")
      | Some url =>
          do urls <- urls_of_ips protocol ip_regex ranks';
          ret (url :: urls)
      end
  end.

(** [GPUdbWorkerList( gpudb, ip_regex, use_head_node_only )], given the
    answer of [gpudb.show_system_properties()], [gpudb.get_url()] and
    [gpudb.connection]. *)
Definition __init__ (show_system_properties : exc system_properties_response)
    (gpudb_url connection : string) (ip_regex : string)
    (use_head_node_only : bool) : exc t :=
  do system_prop_rsp <- show_system_properties;
  if String.eqb (sp_status system_prop_rsp) C._error then
    raise (GPUdbException "Unable to retrieve system properties")
  else
    let system_properties := sp_property_map system_prop_rsp in
    match system_properties !! C._multihead_enabled with
    | None =>
        raise (GPUdbException
                 "Missing value for conf.enable_worker_http_servers")
    | Some enabled =>
        let is_multihead_enabled := String.eqb enabled C._TRUE in
        if negb is_multihead_enabled then
          ret {| worker_urls := [gpudb_url];
                 _is_multihead_enabled := is_multihead_enabled |}
        else if use_head_node_only then
          ret {| worker_urls := [gpudb_url];
                 _is_multihead_enabled := is_multihead_enabled |}
        else
          do worker_urls <-
            match system_properties !! C._worker_URLs with
            | Some worker_URLs =>
                urls_of_ranks ip_regex (tail (split ";" worker_URLs))
            | None =>
                match system_properties !! C._worker_IPs with
                | None =>
                    raise (GPUdbException
                             "Missing value for conf.worker_http_server_ips")
                | Some worker_IPs =>
                    match system_properties !! C._worker_ports with
                    | None =>
                        raise (GPUdbException
                                 "Missing value for conf.worker_http_server_ports")
                    | Some worker_ports =>
                        let worker_IPs_per_rank := split ";" worker_IPs in
                        let worker_ports := split ";" worker_ports in
                        if negb (length worker_IPs_per_rank
                                 =? length worker_ports)%nat
                        then
                          (* [C._worker_IPs_per_rank] does not exist *)
                          raise AttributeError
                        else
                          let protocol :=
                            if String.eqb connection "HTTPS" then "https://"
                            else "http://" in
                          urls_of_ips protocol ip_regex
                            (zip (tail worker_IPs_per_rank)
                                 (tail worker_ports))
                    end
                end
            end;
          match worker_urls with
          | [] => raise (GPUdbException "No worker HTTP servers found.")
          | _ =>
              ret {| worker_urls := worker_urls;
                     _is_multihead_enabled := is_multihead_enabled |}
          end
    end.

End Parsers.
End GPUdbWorkerList.

Record GPUdb : Type := {
  make_worker_list : bool -> exc GPUdbWorkerList.t;
  admin_show_shards : exc (list Z)
}.

(** The response of [insert_records]. *)
Record insert_rsp : Type := {
  status : string;
  message : string;
  rsp_count_inserted : Z;
  rsp_count_updated : Z
}.

(** A record as a queue holds it: its binary encoding, or its column
    values under the "json" encoding. *)
Inductive encoded : Type :=
  | Binary (binary_data : list Z)
  | Json (column_values : record).

(** An element of the list an [InsertionException] carries: a record of
    the flushed queue, or one of the caller's records appended to it. *)
Inductive item : Type :=
  | Queued (e : encoded)
  | Remaining (r : record).

Inductive failure : Type :=
  | InsertionException (msg : string) (records : list item)
  | Raised (e : pyexn).

Definition get_records (e : failure) : list item :=
  match e with
  | InsertionException _ records => records
  | Raised _ => []
  end.

(** [l[ i ]] with Python's negative indices. *)
Definition py_index {A} (l : list A) (i : Z) : exc A :=
  let n := Z.of_nat (length l) in
  let j := if i <? 0 then i + n else i in
  if (j <? 0) || (j >=? n) then raise IndexError
  else match l !! Z.to_nat j with
       | Some a => ret a
       | None => raise IndexError
       end.

(** [s.lower()] on the letters A to Z. *)
Definition lower (s : string) : string :=
  string_of_list_ascii
    (map (fun a =>
            let n := nat_of_ascii a in
            if (65 <=? n)%nat && (n <=? 90)%nat then ascii_of_nat (n + 32) else a)
         (list_ascii_of_string s)).

(** The routing table both the ingestor and the retriever build from the
    shard ranks: one less than each rank, checked against the number of
    workers. *)
Fixpoint check_routing_table (num_ranks : Z) (routing_table : list Z)
    : exc unit :=
  match routing_table with
  | [] => ret tt
  | routing_table_entry :: rest =>
      if routing_table_entry >? num_ranks then
        raise (GPUdbException "Not enough worker URLs specified.")
      else check_routing_table num_ranks rest
  end.

Definition make_routing_table (gpudb : GPUdb) (num_ranks : Z)
    : exc (list Z) :=
  do shard_ranks <- admin_show_shards gpudb;
  let routing_table := map (fun rank => rank - 1) shard_ranks in
  do_ check_routing_table num_ranks routing_table;
  ret routing_table.

(** [for worker in workers.get_worker_urls(): ... _WorkerQueue( ... )] *)
Fixpoint make_worker_queues {R} (urls : list string) (capacity : Z)
    (has_primary_key update_on_existing_pk : bool)
    : exc (list (_WorkerQueue.t R)) :=
  match urls with
  | [] => ret []
  | worker_url :: urls' =>
      do wq <- _WorkerQueue.__init__ worker_url capacity
                 has_primary_key update_on_existing_pk;
      do wqs <- make_worker_queues urls' capacity
                  has_primary_key update_on_existing_pk;
      ret (wq :: wqs)
  end.

(** ** GPUdbIngestor *)

Module GPUdbIngestor.

Record t : Type := mk {
  gpudb : GPUdb;
  table_name : string;
  record_type : GPUdbRecordType;
  batch_size : Z;
  options : option (gmap string string);
  is_table_replicated : bool;
  count_inserted : Z;
  count_updated : Z;
  shard_key_builder : option _RecordKeyBuilder.t;
  primary_key_builder : option _RecordKeyBuilder.t;
  worker_queues : list (_WorkerQueue.t encoded);
  num_ranks : Z;
  is_multihead_enabled : bool;
  routing_table : option (list Z)
}.

(** *** The constructor *)

Definition __init__ (gpudb : GPUdb) (table_name : string)
    (record_type : GPUdbRecordType) (batch_size : Z)
    (options : option (gmap string string))
    (workers : option GPUdbWorkerList.t) (is_table_replicated : bool)
    : exc t :=
  if batch_size <? 1 then
    raise (GPUdbException "Parameter 'batch_size' must be greater than zero")
  else
    do shard_key_builder <- _RecordKeyBuilder.__init__ record_type false;
    do primary_key_builder <- _RecordKeyBuilder.__init__ record_type true;
    let '(primary_key_builder, shard_key_builder) :=
      if _RecordKeyBuilder.has_key primary_key_builder then
        if negb (_RecordKeyBuilder.has_key shard_key_builder)
           || _RecordKeyBuilder.has_same_key shard_key_builder primary_key_builder
        then (Some primary_key_builder, Some primary_key_builder)
        else (Some primary_key_builder, Some shard_key_builder)
      else
        (None,
         if negb (_RecordKeyBuilder.has_key shard_key_builder) then None
         else Some shard_key_builder) in
    let has_primary_key := bool_decide (is_Some primary_key_builder) in
    let update_on_existing_pk :=
      match options with
      | Some opts =>
          match opts !! "update_on_existing_pk"%string with
          | Some v => String.eqb v "true"
          | None => false
          end
      | None => false
      end in
    do workers <-
      match workers with
      | Some workers => ret workers
      | None => make_worker_list gpudb is_table_replicated
      end;
    do worker_queues <-
      make_worker_queues (GPUdbWorkerList.get_worker_urls workers) batch_size
                         has_primary_key update_on_existing_pk;
    let num_ranks :=
      Z.of_nat (length (GPUdbWorkerList.get_worker_urls workers)) in
    let is_multihead_enabled :=
      GPUdbWorkerList.is_multihead_enabled workers in
    do routing_table <-
      (if is_multihead_enabled && negb is_table_replicated
          && (bool_decide (is_Some primary_key_builder)
              || bool_decide (is_Some shard_key_builder))
       then
         do routing_table <- make_routing_table gpudb num_ranks;
         ret (Some routing_table)
       else ret None);
    ret {| gpudb := gpudb;
           table_name := table_name;
           record_type := record_type;
           batch_size := batch_size;
           options := options;
           is_table_replicated := is_table_replicated;
           count_inserted := 0;
           count_updated := 0;
           shard_key_builder := shard_key_builder;
           primary_key_builder := primary_key_builder;
           worker_queues := worker_queues;
           num_ranks := num_ranks;
           is_multihead_enabled := is_multihead_enabled;
           routing_table := routing_table |}.

Definition get_count_inserted (self : t) := count_inserted self.
Definition get_count_updated (self : t) := count_updated self.

Definition set_worker_queues (self : t) (wqs : list (_WorkerQueue.t encoded)) : t :=
  {| gpudb := gpudb self;
     table_name := table_name self;
     record_type := record_type self;
     batch_size := batch_size self;
     options := options self;
     is_table_replicated := is_table_replicated self;
     count_inserted := count_inserted self;
     count_updated := count_updated self;
     shard_key_builder := shard_key_builder self;
     primary_key_builder := primary_key_builder self;
     worker_queues := wqs;
     num_ranks := num_ranks self;
     is_multihead_enabled := is_multihead_enabled self;
     routing_table := routing_table self |}.

Definition add_counts (self : t) (inserted updated : Z) : t :=
  {| gpudb := gpudb self;
     table_name := table_name self;
     record_type := record_type self;
     batch_size := batch_size self;
     options := options self;
     is_table_replicated := is_table_replicated self;
     count_inserted := count_inserted self + inserted;
     count_updated := count_updated self + updated;
     shard_key_builder := shard_key_builder self;
     primary_key_builder := primary_key_builder self;
     worker_queues := worker_queues self;
     num_ranks := num_ranks self;
     is_multihead_enabled := is_multihead_enabled self;
     routing_table := routing_table self |}.

(** *** The world the ingestor acts on

    The workers answer [insert_records] and [random.randint] draws a
    number; both are read from oracles indexed by the number of
    answers and draws so far.  The world keeps that number and, for
    each call a worker answered with "OK", the worker and the batch it
    was sent. *)
Record world : Type := {
  clock : nat;
  committed : list (string * list encoded)
}.

Definition tick (w : world) : world :=
  {| clock := S (clock w); committed := committed w |}.

Definition commit (w : world) (url : string) (batch : list encoded) : world :=
  {| clock := S (clock w); committed := committed w ++ [(url, batch)] |}.

(** The result of a method: it raises or returns, and leaves the
    ingestor and the world as they are by then. *)
Definition M (A : Type) : Type := t -> world -> (failure + A) * t * world.

Definition mret {A} (a : A) : M A := fun self w => (inr a, self, w).
Definition mfail {A} (e : failure) : M A := fun self w => (inl e, self, w).
Definition mbind {A B} (m : M A) (k : A -> M B) : M B :=
  fun self w =>
    match m self w with
    | (inl e, self', w') => (inl e, self', w')
    | (inr a, self', w') => k a self' w'
    end.
(** A step that only computes: it raises a plain exception or returns. *)
Definition lift {A} (m : exc A) : M A :=
  match m with
  | inl e => mfail (Raised e)
  | inr a => mret a
  end.

Section Oracles.
Variable host : byteorder.
Variable hash64 : list Z -> Z -> Z * Z.
Variable unicode_digit : Z -> option Z.
Variable add_other : string -> _RecordKey.t -> pyval -> exc _RecordKey.t.
(** [GPUdbRecord( record_type, record ).binary_data] *)
Variable binary_data : GPUdbRecordType -> record -> list Z.
(** The answer of the worker at [url] to the call of [insert_records]
    made at time [clock] for a table and a batch: a response, or an
    exception of the client. *)
Variable rpc_insert_records :
  nat -> string -> string -> list encoded -> exc insert_rsp.
(** The number drawn at time [clock]. *)
Variable random : nat -> Z.

(** [random.randint( a, b )] *)
Definition randint (a b : Z) : M Z :=
  fun self w =>
    if b <? a then (inl (Raised ValueError), self, w)
    else (inr (a + random (clock w) mod (b - a + 1)), self, tick w).

(** [__flush( queue, worker_gpudb )]: the worker is named by its URL. *)
Definition __flush (queue : list encoded) (worker_url : string) : M unit :=
  fun self w =>
    match queue with
    | [] => (inr tt, self, w)
    | _ =>
        match rpc_insert_records (clock w) worker_url (table_name self) queue with
        | inl e => (inl (Raised e), self, tick w)
        | inr insert_rsp =>
            if negb (String.eqb (status insert_rsp) C._ok) then
              (inl (InsertionException (message insert_rsp) (map Queued queue)),
               self, tick w)
            else
              (inr tt,
               add_counts self (rsp_count_inserted insert_rsp)
                          (rsp_count_updated insert_rsp),
               commit w worker_url queue)
        end
    end.

Definition build_key (builder : option _RecordKeyBuilder.t) (rec : record)
    : exc (option _RecordKey.t) :=
  match builder with
  | Some b => _RecordKeyBuilder.build host hash64 unicode_digit add_other b rec
  | None => ret None
  end.

(** The record as the queue takes it. *)
Definition encode (record_type : GPUdbRecordType) (record_encoding : string)
    (rec : record) : encoded :=
  if String.eqb record_encoding "binary" then Binary (binary_data record_type rec)
  else Json rec.

(** [worker_queue.insert( encoded_record, primary_key )] on the queue
    at [worker_index], which the ingestor keeps. *)
Definition queue_insert (worker_index : Z) (encoded_record : encoded)
    (primary_key : option _RecordKey.t)
    : M (_WorkerQueue.t encoded * option (list encoded)) :=
  fun self w =>
    match py_index (worker_queues self) worker_index with
    | inl e => (inl (Raised e), self, w)
    | inr worker_queue =>
        match _WorkerQueue.insert worker_queue encoded_record primary_key with
        | inl e => (inl (Raised e), self, w)
        | inr (worker_queue', queue) =>
            let n := Z.of_nat (length (worker_queues self)) in
            let j := if worker_index <? 0 then worker_index + n else worker_index in
            (inr (worker_queue', queue),
             set_worker_queues self
               (<[Z.to_nat j := worker_queue']> (worker_queues self)),
             w)
        end
    end.

(** The index of the worker: drawn when the record has no shard key,
    routed by the shard key otherwise. *)
Definition choose_worker (shard_key : option _RecordKey.t) : M Z :=
  fun self w =>
    match shard_key with
    | None => randint 0 (num_ranks self - 1) self w
    | Some shard_key =>
        lift (_RecordKey.route shard_key (routing_table self)) self w
    end.

(** [if queue: self.__flush( queue, worker_queue.get_gpudb() )] *)
Definition flush_returned
    (res : _WorkerQueue.t encoded * option (list encoded)) : M unit :=
  match snd res with
  | Some ((_ :: _) as queue) => __flush queue (_WorkerQueue.get_url (fst res))
  | _ => mret tt
  end.

(** [insert_record( record, record_encoding )] for a [GPUdbRecord]. *)
Definition insert_record (rec : record) (record_encoding : string) : M unit :=
  fun self w =>
    (if negb (str_in (lower record_encoding) ["json"; "binary"]%string) then
       mfail (Raised (GPUdbException
                "Input parameter 'record_encoding' must be one of ['json', 'binary']"))
     else
       mbind (lift (build_key (primary_key_builder self) rec)) (fun primary_key =>
       mbind (lift (build_key (shard_key_builder self) rec)) (fun shard_key =>
       mbind (choose_worker shard_key) (fun worker_index =>
       let encoded_record := encode (record_type self) record_encoding rec in
       mbind (queue_insert worker_index encoded_record primary_key)
             flush_returned)))) self w.

(** [records.index( record )] *)
Fixpoint index (rec : record) (records : list record) : option nat :=
  match records with
  | [] => None
  | r :: records' =>
      if bool_decide (r = rec) then Some O else S <$> index rec records'
  end.

(** The loop of [insert_records] over what is left of [records]. *)
Fixpoint insert_records_loop (records rest : list record)
    (record_encoding : string) : M unit :=
  match rest with
  | [] => mret tt
  | rec :: rest' =>
      fun self w =>
        match insert_record rec record_encoding self w with
        | (inl (InsertionException msg uninserted_records), self', w') =>
            match index rec records with
            | Some i =>
                let remaining_records := drop i records in
                (inl (InsertionException msg
                        (uninserted_records ++ map Remaining remaining_records)),
                 self', w')
            | None => (inl (Raised ValueError), self', w')
            end
        | (inl (Raised e), self', w') => (inl (Raised e), self', w')
        | (inr _, self', w') =>
            insert_records_loop records rest' record_encoding self' w'
        end
  end.

(** [insert_records( records, record_encoding )] for a list of records. *)
Definition insert_records (records : list record) (record_encoding : string)
    : M unit :=
  match records with
  | [] => mret tt
  | _ =>
      if negb (str_in record_encoding ["json"; "binary"]%string) then
        mfail (Raised (GPUdbException
                 "Input parameter 'record_encoding' must be one of ['json', 'binary']"))
      else insert_records_loop records records record_encoding
  end.

(** The loop of [flush] over the worker queues from index [i] on. *)
Fixpoint flush_loop (n : nat) (i : nat) : M unit :=
  match n with
  | O => mret tt
  | S n' =>
      fun self w =>
        match worker_queues self !! i with
        | None => (inr tt, self, w)
        | Some worker =>
            let '(worker', queue) := _WorkerQueue.flush worker in
            let self' :=
              set_worker_queues self (<[i := worker']> (worker_queues self)) in
            mbind (__flush queue (_WorkerQueue.get_url worker'))
                  (fun _ => flush_loop n' (S i)) self' w
        end
  end.

Definition flush : M unit :=
  fun self w => flush_loop (length (worker_queues self)) O self w.

End Oracles.

End GPUdbIngestor.

(** ** RecordRetriever: the constructor *)

Module RecordRetriever.

Record t : Type := mk {
  gpudb : GPUdb;
  table_name : string;
  record_type : GPUdbRecordType;
  shard_key_builder : option _RecordKeyBuilder.t;
  worker_queues : list (_WorkerQueue.t encoded);
  num_ranks : Z;
  is_multihead_enabled : bool;
  routing_table : option (list Z)
}.

Definition __init__ (gpudb : GPUdb) (table_name : string)
    (record_type : GPUdbRecordType) (workers : option GPUdbWorkerList.t)
    : exc t :=
  do shard_key_builder <- _RecordKeyBuilder.__init__ record_type false;
  do shard_key_builder <-
    (if negb (_RecordKeyBuilder.has_key shard_key_builder) then
       _RecordKeyBuilder.__init__ record_type true
     else ret shard_key_builder);
  let shard_key_builder :=
    if negb (_RecordKeyBuilder.has_key shard_key_builder) then None
    else Some shard_key_builder in
  do workers <-
    match workers with
    | Some workers => ret workers
    | None => make_worker_list gpudb false
    end;
  do worker_queues <-
    make_worker_queues (GPUdbWorkerList.get_worker_urls workers) 1 false false;
  let num_ranks :=
    Z.of_nat (length (GPUdbWorkerList.get_worker_urls workers)) in
  let is_multihead_enabled :=
    GPUdbWorkerList.is_multihead_enabled workers in
  do routing_table <-
    (if is_multihead_enabled && bool_decide (is_Some shard_key_builder) then
       do routing_table <- make_routing_table gpudb num_ranks;
       ret (Some routing_table)
     else ret None);
  ret {| gpudb := gpudb;
         table_name := table_name;
         record_type := record_type;
         shard_key_builder := shard_key_builder;
         worker_queues := worker_queues;
         num_ranks := num_ranks;
         is_multihead_enabled := is_multihead_enabled;
         routing_table := routing_table |}.

(** *** get_records_by_key *)

(** What the method reads of the response of [get_records]. *)
Record get_records_rsp : Type := {
  gr_status : string;
  gr_message : string;
  gr_type_schema : string;
  gr_records_binary : list (list Z)
}.

Section Workers.
Variable host : byteorder.
Variable hash64 : list Z -> Z -> Z * Z.
Variable unicode_digit : Z -> option Z.
Variable add_other : string -> _RecordKey.t -> pyval -> exc _RecordKey.t.
(** The answer of the worker at [url] to [get_records] for a table and
    the expression of the options, with "fast_index_lookup" set. *)
Variable rpc_get_records :
  string -> string -> option pystr -> exc get_records_rsp.
(** [GPUdbRecord.decode_binary_data( type_schema, records_binary )] *)
Variable decode_binary_data : string -> list (list Z) -> exc (list record).

(** [get_records_by_key( key_values, expression )]: the response and the
    decoded records it is given as "data" and "records". *)
Definition get_records_by_key (self : t)
    (key_values : _RecordKeyBuilder.key_values) (expression : pystr)
    : exc (get_records_rsp * list record) :=
  match shard_key_builder self with
  | None => raise (GPUdbException "Cannot get key from unsharded table")
  | Some shard_key_builder =>
      do built <-
        _RecordKeyBuilder.build_expression_with_key_values_only
          shard_key_builder key_values;
      do expression <-
        match expression with
        | [] => ret built
        | _ =>
            match built with
            | None => raise TypeError
            | Some built =>
                ret (Some (str_of "(" ++ built ++ str_of ") and ("
                             ++ expression ++ str_of ")"))
            end
        end;
      do shard_key <-
        _RecordKeyBuilder.build_key_with_shard_values_only host hash64
          unicode_digit add_other shard_key_builder key_values;
      match shard_key with
      | None => raise AttributeError
      | Some shard_key =>
          do worker_index <- _RecordKey.route shard_key (routing_table self);
          do worker_queue <- py_index (worker_queues self) worker_index;
          do gr_rsp <-
            rpc_get_records (_WorkerQueue.get_url worker_queue)
                            (table_name self) expression;
          if negb (String.eqb (gr_status gr_rsp) "OK") then
            raise (GPUdbException (gr_message gr_rsp))
          else
            do records <-
              decode_binary_data (gr_type_schema gr_rsp)
                                 (gr_records_binary gr_rsp);
            ret (gr_rsp, records)
      end
  end.

End Workers.

End RecordRetriever.

(** * The vocabulary of the properties

    Predicates that word the claims, the bookkeeping their proofs keep,
    and the concrete tables, queues and runs they are tried on. *)

(** ** Key images *)

(** A key image of [n] bytes, as the constructor leaves it. *)
Definition fresh_key (n : Z) : _RecordKey.t :=
  {| _RecordKey._buffer_size := n;
     _RecordKey._buffer_value := [];
     _RecordKey._is_valid := true;
     _RecordKey._hash_code := 0;
     _RecordKey._routing_hash := 0 |}.

(** What the specification says of a charN value that is too long: the
    appender returns, having written [N] zero bytes and marked the image
    invalid. *)
Definition charN_overflow_marks_invalid (host : byteorder)
    (self : _RecordKey.t) (s : pystr) (N : Z) : Prop :=
  exists k : _RecordKey.t,
    _RecordKey.add_charN host self (PyStr s) N = ret k
    /\ _RecordKey._buffer_value k =
       _RecordKey._buffer_value self ++ replicate (Z.to_nat N) 0
    /\ _RecordKey.is_valid k = false.

(** The decimal digits of ASCII. *)
Definition ascii_digit (c : Z) : option Z :=
  if (48 <=? c) && (c <=? 57) then Some (c - 48) else None.

(** The signed 64-bit integer with the bit pattern [u], as [mmh3.hash64]
    returns each half. *)
Definition signed64 (u : Z) : Z :=
  if u <? 2 ^ 63 then u else u - 2 ^ 64.

(** A hash whose low half always has the bit pattern 0x8000000000000001. *)
Definition sign_bit_hash64 (data : list Z) (seed : Z) : Z * Z :=
  (signed64 9223372036854775809, 0).

(** A track-type record type with no shard key. *)
Definition track_record_type : GPUdbRecordType :=
  {| columns :=
       [ {| name := "TRACKID"; column_type := "string" |};
         {| name := "TIMESTAMP"; column_type := "long" |};
         {| name := "x"; column_type := "double" |};
         {| name := "y"; column_type := "double" |} ];
     column_properties := {[ "TRACKID"%string := ["char16"%string] ]} |}.

(** A table whose primary key is one char4 column. *)
Definition char4_record_type : GPUdbRecordType :=
  {| columns := [ {| name := "code"; column_type := "string" |} ];
     column_properties :=
       {[ "code"%string := ["primary_key"; "char4"]%string ]} |}.

Definition no_hash64 (data : list Z) (seed : Z) : Z * Z := (0, 0).

Definition no_add_other (column_type : string) (k : _RecordKey.t) (v : pyval)
    : exc _RecordKey.t := ret k.

(** ** The worker queue *)

Section WorkerQueueVocabulary.
Context {R : Type}.
Import _WorkerQueue.

Implicit Types (q : _WorkerQueue.t R) (r e : R).

(** The index after a flush holds no key. *)
Definition index_empty q : Prop :=
  match primary_key_to_queue_index_map q with
  | None => True
  | Some m => m = ∅
  end.

(** Every slot the index points to is a slot of the queue. *)
Definition index_in_range q : Prop :=
  forall (m : gmap Z nat) (h : Z) (i : nat),
    primary_key_to_queue_index_map q = Some m -> m !! h = Some i ->
    (i < length (record_queue q))%nat.

(** The queue holds [e] in a slot the index does not point to, so that no
    later [insert] overwrites it. *)
Definition holds q e : Prop :=
  exists i : nat,
    record_queue q !! i = Some e
    /\ forall (m : gmap Z nat) (h : Z),
         primary_key_to_queue_index_map q = Some m -> m !! h <> Some i.

(** The key does not enter the index: there is none, or it is not valid. *)
Definition not_indexed (key : option _RecordKey.t) : Prop :=
  match key with
  | Some k => _RecordKey.is_valid k = false
  | None => True
  end.

End WorkerQueueVocabulary.

(** The value a call of [insert] returns to its caller. *)
Definition returned {R : Type} (res : exc (_WorkerQueue.t R * option (list R)))
    : exc (option (list R)) :=
  do res <- res; ret (snd res).

(** A queue of capacity 3 that holds one record, indexed under hash 7. *)
Definition one_record_queue : _WorkerQueue.t Z :=
  {| _WorkerQueue.url := "http://w1:9191";
     _WorkerQueue.capacity := 3;
     _WorkerQueue.has_primary_key := true;
     _WorkerQueue.update_on_existing_pk := false;
     _WorkerQueue.record_queue := [10];
     _WorkerQueue.primary_key_to_queue_index_map := Some {[ 7 := 0%nat ]} |}.

Definition key_with_hash (h : Z) : _RecordKey.t :=
  {| _RecordKey._buffer_size := 4;
     _RecordKey._buffer_value := [0; 0; 0; 0];
     _RecordKey._is_valid := true;
     _RecordKey._hash_code := h;
     _RecordKey._routing_hash := h |}.

Inductive call (R : Type) : Type :=
  | Insert (record : R) (key : option _RecordKey.t)
  | Flush.
Arguments Insert {R} record key.
Arguments Flush {R}.

(** The queue after a call and the batch the call returned, if any.  A
    call of [insert] that raises has not yet touched the queue. *)
Definition apply_call {R} (q : _WorkerQueue.t R) (c : call R)
    : _WorkerQueue.t R * option (list R) :=
  match c with
  | Insert record key =>
      match _WorkerQueue.insert q record key with
      | inr res => res
      | inl _ => (q, None)
      end
  | Flush => let '(q', old_queue) := _WorkerQueue.flush q in (q', Some old_queue)
  end.

(** The queue after a sequence of calls. *)
Definition run_calls {R} (q : _WorkerQueue.t R) (cs : list (call R))
    : _WorkerQueue.t R :=
  fold_left (fun q c => fst (apply_call q c)) cs q.

(** ** Primary-key dedup

    Each record [r] is inserted with its primary key [pk r], as the
    ingestor does, which builds the key from the record. *)

Section PrimaryKeyDedupVocabulary.
Context {R : Type}.
Variable pk : R -> _RecordKey.t.
Import _WorkerQueue.

Implicit Types (q : _WorkerQueue.t R) (r : R) (l seg : list R) (h : Z).

(** The hash code of the record's key, when the key is valid. *)
Definition valid_hash r : option Z :=
  if _RecordKey.is_valid (pk r) then Some (_RecordKey.hash_code (pk r)) else None.

Definition valid_hashes l : list Z := omap valid_hash l.

(** The slot of the first record of [l] whose valid hash code is [h]. *)
Fixpoint find_slot h l : option nat :=
  match l with
  | [] => None
  | r :: l' =>
      if bool_decide (valid_hash r = Some h) then Some O
      else S <$> find_slot h l'
  end.

(** The batch as the claim words it, [update_on_existing_pk] off: going
    through the inserted records in order, a record is appended unless a
    record already there has the same valid hash code. *)
Definition kept_without_update seg : list R :=
  fold_left
    (fun acc r =>
       match valid_hash r with
       | Some h => if bool_decide (h ∈ valid_hashes acc) then acc else acc ++ [r]
       | None => acc ++ [r]
       end) seg [].

(** The batch as the claim words it, [update_on_existing_pk] on: a record
    whose valid hash code is already there takes the slot of the first
    record with that hash code; any other record is appended. *)
Definition kept_with_update seg : list R :=
  fold_left
    (fun acc r =>
       match valid_hash r with
       | Some h =>
           match find_slot h acc with
           | Some i => <[i := r]> acc
           | None => acc ++ [r]
           end
       | None => acc ++ [r]
       end) seg [].

Definition kept (update_on_existing_pk : bool) seg : list R :=
  if update_on_existing_pk then kept_with_update seg else kept_without_update seg.

(** The most recently inserted record of [seg] with valid hash code [h]. *)
Definition most_recent h seg : option R :=
  last (filter (fun r => valid_hash r = Some h) seg).

(** The batches a sequence of [insert] calls returns from queue [q] on,
    each with the records inserted since the batch before it; [seg] is
    the records inserted so far since then. *)
Fixpoint batches q seg (records : list R) : exc (list (list R * list R)) :=
  match records with
  | [] => ret []
  | r :: records' =>
      do res <- insert q r (Some (pk r));
      match snd res with
      | Some batch =>
          do out <- batches (fst res) [] records';
          ret ((seg ++ [r], batch) :: out)
      | None => batches (fst res) (seg ++ [r]) records'
      end
  end.

End PrimaryKeyDedupVocabulary.

Section PrimaryKeyDedupInvariantVocabulary.
Context {R : Type}.
Variable pk : R -> _RecordKey.t.
Import _WorkerQueue.

Implicit Types (q : _WorkerQueue.t R) (r : R) (l seg : list R) (h : Z).

(** What holds of a list of queued records that came from the inserted
    records [seg]. *)
Definition batch_ok (upd : bool) seg l : Prop :=
  l = kept pk upd seg
  /\ NoDup (valid_hashes pk l)
  /\ (upd = true ->
      forall r h, r ∈ l -> valid_hash pk r = Some h -> most_recent pk h seg = Some r).

(** The queue holds what is kept of [seg], and its index maps each valid
    hash code to the slot of the record that has it. *)
Definition contents_ok (upd : bool) q seg : Prop :=
  has_primary_key q = true
  /\ update_on_existing_pk q = upd
  /\ (exists m : gmap Z nat,
        primary_key_to_queue_index_map q = Some m
        /\ forall h, m !! h = find_slot pk h (record_queue q))
  /\ batch_ok upd seg (record_queue q).

End PrimaryKeyDedupInvariantVocabulary.

(** Records are integers; the key of a record is valid with the hash
    code [r mod 10], but for negative records, whose key is not valid. *)
Definition pk_mod10 (r : Z) : _RecordKey.t :=
  {| _RecordKey._buffer_size := 4;
     _RecordKey._buffer_value := [0; 0; 0; 0];
     _RecordKey._is_valid := 0 <=? r;
     _RecordKey._hash_code := r mod 10;
     _RecordKey._routing_hash := r mod 10 |}.

(** ** Routing tables *)

(** A table with one column, an integer shard key. *)
Definition shard_key_record_type : GPUdbRecordType :=
  {| columns := [ {| name := "id"; column_type := "int" |} ];
     column_properties := {[ "id"%string := ["shard_key"%string] ]} |}.

(** A server of two workers with multi-head on, which reports three
    shards, owned by ranks 1, 2 and 3. *)
Definition two_workers : GPUdbWorkerList.t :=
  {| GPUdbWorkerList.worker_urls := ["http://w1:9191"; "http://w2:9191"]%string;
     GPUdbWorkerList._is_multihead_enabled := true |}.

Definition three_rank_server : GPUdb :=
  {| make_worker_list := fun _ => ret two_workers;
     admin_show_shards := ret [1; 2; 3] |}.

(** ** Insertion failures *)

(** The records committed so far: those of the batches a worker answered
    with "OK". *)
Definition committed_records (w : GPUdbIngestor.world) : list encoded :=
  concat (map snd (GPUdbIngestor.committed w)).

(** The records the worker queues hold. *)
Definition queued_records (self : GPUdbIngestor.t) : list encoded :=
  concat (map _WorkerQueue.record_queue (GPUdbIngestor.worker_queues self)).

Section IngestorVocabulary.
Variable host : byteorder.
Variable hash64 : list Z -> Z -> Z * Z.
Variable unicode_digit : Z -> option Z.
Variable add_other : string -> _RecordKey.t -> pyval -> exc _RecordKey.t.
Import GPUdbIngestor.

Implicit Types (self : GPUdbIngestor.t) (w : world) (e : encoded) (r : record).

(** In every worker queue the index points into the queue. *)
Definition queues_ok self : Prop :=
  Forall index_in_range (worker_queues self).

(** The record is committed, or a worker queue holds it. *)
Definition accounted self w e : Prop :=
  e ∈ committed_records w
  \/ exists (n : nat) (q : _WorkerQueue.t encoded),
       worker_queues self !! n = Some q /\ holds q e.

(** The outcome is not a plain exception. *)
Definition not_raised {A} (out : failure + A) : Prop :=
  match out with
  | inl (Raised _) => False
  | _ => True
  end.

(** The exception carries the encoded record [e]. *)
Definition carries {A} (out : failure + A) e : Prop :=
  match out with
  | inl (InsertionException _ records) => Queued e ∈ records
  | _ => False
  end.

(** Primary-key dedup does not apply to the record: the table has no
    primary key, or the key image of the record is not valid. *)
Definition no_valid_key self r : Prop :=
  match build_key host hash64 unicode_digit add_other
          (primary_key_builder self) r with
  | inr key => not_indexed key
  | inl _ => True
  end.

End IngestorVocabulary.

(** A table with one integer column and no key. *)
Definition plain_record_type : GPUdbRecordType :=
  {| columns := [ {| name := "a"; column_type := "int" |} ];
     column_properties := ∅ |}.

Definition plain_record (a : Z) : record := [("a"%string, PyInt a)].

(** Two workers with queues of capacity 2; every call of
    [insert_records] is answered with the status "ERROR"; the first
    record goes to worker 0 and the later ones to worker 1. *)
Definition failing_rpc (clock : nat) (url table : string) (data : list encoded)
    : exc insert_rsp :=
  ret {| status := "ERROR"; message := "boom";
         rsp_count_inserted := 0; rsp_count_updated := 0 |}.

Definition first_then_second (clock : nat) : Z :=
  match clock with O => 0 | _ => 1 end.

Definition no_binary_data (rt : GPUdbRecordType) (r : record) : list Z := [].

Definition new_world : GPUdbIngestor.world :=
  {| GPUdbIngestor.clock := O; GPUdbIngestor.committed := [] |}.

Definition two_queue_ingestor : exc GPUdbIngestor.t :=
  GPUdbIngestor.__init__ three_rank_server "t" plain_record_type 2 None
                         (Some two_workers) false.

(** The run of the counterexample: three records are submitted. *)
Definition failing_run : exc ((failure + unit) * GPUdbIngestor.t * GPUdbIngestor.world) :=
  do ing <- two_queue_ingestor;
  ret (GPUdbIngestor.insert_records LittleEndian no_hash64 ascii_digit
         no_add_other no_binary_data failing_rpc first_then_second
         [plain_record 1; plain_record 2; plain_record 3] "json" ing new_world).

(** A record of the list an exception carries, in the form the queues
    and the workers have it. *)
Definition as_encoded (binary_data : GPUdbRecordType -> record -> list Z)
    (rt : GPUdbRecordType) (record_encoding : string) (it : item) : encoded :=
  match it with
  | Queued e => e
  | Remaining r => GPUdbIngestor.encode binary_data rt record_encoding r
  end.

(** What the specification says of a failed [insert_records]: the
    records the exception carries and the committed records are, taken
    together, the submitted records. *)
Definition lossless (binary_data : GPUdbRecordType -> record -> list Z)
    (rt : GPUdbRecordType) (record_encoding : string) (records : list record)
    (carried : list item) (w : GPUdbIngestor.world) : Prop :=
  forall e : encoded,
    e ∈ map (GPUdbIngestor.encode binary_data rt record_encoding) records
    <-> e ∈ map (as_encoded binary_data rt record_encoding) carried
        \/ e ∈ committed_records w.

(** The ingestor of the failing run. *)
Definition two_queues : GPUdbIngestor.t :=
  {| GPUdbIngestor.gpudb := three_rank_server;
     GPUdbIngestor.table_name := "t";
     GPUdbIngestor.record_type := plain_record_type;
     GPUdbIngestor.batch_size := 2;
     GPUdbIngestor.options := None;
     GPUdbIngestor.is_table_replicated := false;
     GPUdbIngestor.count_inserted := 0;
     GPUdbIngestor.count_updated := 0;
     GPUdbIngestor.shard_key_builder := None;
     GPUdbIngestor.primary_key_builder := None;
     GPUdbIngestor.worker_queues :=
       [ {| _WorkerQueue.url := "http://w1:9191"; _WorkerQueue.capacity := 2;
            _WorkerQueue.has_primary_key := false;
            _WorkerQueue.update_on_existing_pk := false;
            _WorkerQueue.record_queue := [];
            _WorkerQueue.primary_key_to_queue_index_map := None |};
         {| _WorkerQueue.url := "http://w2:9191"; _WorkerQueue.capacity := 2;
            _WorkerQueue.has_primary_key := false;
            _WorkerQueue.update_on_existing_pk := false;
            _WorkerQueue.record_queue := [];
            _WorkerQueue.primary_key_to_queue_index_map := None |} ];
     GPUdbIngestor.num_ranks := 2;
     GPUdbIngestor.is_multihead_enabled := true;
     GPUdbIngestor.routing_table := None |}.

(** ** Key images of dotted quads and of plain values *)

(** The ASCII characters of a list of decimal digits. *)
Definition digit_chars (ds : list Z) : pystr := map (fun d => 48 + d) ds.

(** The string "A.B.C.D" for four runs of decimal digits. *)
Definition dotted_quad (da db dc dd : list Z) : pystr :=
  digit_chars da ++ [46] ++ digit_chars db ++ [46] ++ digit_chars dc
    ++ [46] ++ digit_chars dd.

(** One to three decimal digits. *)
Definition octet_digits (ds : list Z) : Prop :=
  Forall (fun d => 0 <= d <= 9) ds /\ (1 <= length ds <= 3)%nat.

(** A value that is [None], an integer or an ASCII string. *)
Definition plain_value (v : pyval) : Prop :=
  match v with
  | PyStr s => is_ascii s
  | _ => True
  end.

(** The column types whose appenders are embedded above. *)
Definition embedded_types : list string :=
  [ "char1"; "char2"; "char4"; "char8"; "char16"; "char32"; "char64";
    "char128"; "char256"; "int"; "int8"; "int16"; "long"; "string";
    "ipv4" ]%string.

(** What an appender that returned has done to the image: [n] more bytes,
    within the buffer size. *)
Definition appended (self k : _RecordKey.t) (n : Z) : Prop :=
  Z.of_nat (length (_RecordKey._buffer_value k))
  = Z.of_nat (length (_RecordKey._buffer_value self)) + n
  /\ Z.of_nat (length (_RecordKey._buffer_value k)) <= _RecordKey._buffer_size self
  /\ _RecordKey._buffer_size k = _RecordKey._buffer_size self.

(** ** Key builders *)

(** The sum of the sizes of a list of column types. *)
Definition key_types_size (key_types : list string) : Z :=
  fold_right (fun ty acc => default 0 (_ColumnTypeSize.size_of ty) + acc) 0
             key_types.

(** The values of the key columns of a record, in the order of the key. *)
Definition key_values_of (self : _RecordKeyBuilder.t) (rec : record)
    : list pyval :=
  omap (fun i => map snd rec !! i) (_RecordKeyBuilder.routing_key_indices self).

(** A table with the shard key (id, zone): an integer and a char4. *)
Definition two_key_record_type : GPUdbRecordType :=
  {| columns :=
       [ {| name := "id"; column_type := "int" |};
         {| name := "note"; column_type := "string" |};
         {| name := "zone"; column_type := "string" |} ];
     column_properties :=
       {[ "id"%string := ["shard_key"]%string;
          "note"%string := [];
          "zone"%string := ["char4"; "shard_key"]%string ]} |}.

(** The builder of its shard key. *)
Definition two_key_builder : _RecordKeyBuilder.t :=
  match _RecordKeyBuilder.__init__ two_key_record_type false with
  | inr b => b
  | inl _ =>
      {| _RecordKeyBuilder._record_type := two_key_record_type;
         _RecordKeyBuilder._record_column_names := [];
         _RecordKeyBuilder._column_properties := ∅;
         _RecordKeyBuilder.routing_key_indices := [];
         _RecordKeyBuilder.key_columns_names := [];
         _RecordKeyBuilder.key_schema_fields := [];
         _RecordKeyBuilder.key_schema_str := None;
         _RecordKeyBuilder._key_types := [];
         _RecordKeyBuilder._key_buffer_size := 0 |}
  end.

Definition two_key_record (id : Z) (note zone : string) : record :=
  [ ("id"%string, PyInt id); ("note"%string, PyStr (str_of note));
    ("zone"%string, PyStr (str_of zone)) ].

(** ** Sequences of inserts and the queues of an ingestor *)

(** The records a sequence of [insert] calls returns in batches, in the
    order of the batches, and the queue after the calls. *)
Fixpoint insert_all {R} (q : _WorkerQueue.t R)
    (calls : list (R * option _RecordKey.t))
    : exc (list R * _WorkerQueue.t R) :=
  match calls with
  | [] => ret ([], q)
  | (record, key) :: calls' =>
      do res <- _WorkerQueue.insert q record key;
      do out <- insert_all (fst res) calls';
      ret (default [] (snd res) ++ fst out, snd out)
  end.

(** The key of the call does not enter the index of the queue: the queue
    has no primary key, or the key is not valid. *)
Definition unkeyed {R} (has_primary_key : bool)
    (c : R * option _RecordKey.t) : Prop :=
  has_primary_key = false
  \/ exists k, snd c = Some k /\ _RecordKey.is_valid k = false.

Definition invalid_key : _RecordKey.t :=
  {| _RecordKey._buffer_size := 4;
     _RecordKey._buffer_value := [0; 0; 0; 0];
     _RecordKey._is_valid := false;
     _RecordKey._hash_code := 0;
     _RecordKey._routing_hash := 0 |}.

(** The queue as [flush] leaves it. *)
Definition emptied {R} (q : _WorkerQueue.t R) : _WorkerQueue.t R :=
  fst (_WorkerQueue.flush q).

(** The batches [flush] of the ingestor sends for a list of worker
    queues: one for each queue that holds a record, in the order of the
    queues. *)
Definition flushed_batches (qs : list (_WorkerQueue.t encoded))
    : list (string * list encoded) :=
  omap (fun q =>
          match _WorkerQueue.record_queue q with
          | [] => None
          | queue => Some (_WorkerQueue.get_url q, queue)
          end) qs.

(** Every call of [insert_records] is answered with the status "OK". *)
Definition ok_rpc (clock : nat) (url table : string) (data : list encoded)
    : exc insert_rsp :=
  ret {| status := "OK"; message := "";
         rsp_count_inserted := Z.of_nat (length data);
         rsp_count_updated := 0 |}.

(** The worker at w2 answers with the status "ERROR", any other with
    "OK". *)
Definition w2_fails (clock : nat) (url table : string) (data : list encoded)
    : exc insert_rsp :=
  if String.eqb url "http://w2:9191" then failing_rpc clock url table data
  else ok_rpc clock url table data.

(** An ingestor of three workers whose first and last queues hold
    records. *)
Definition three_queues : GPUdbIngestor.t :=
  {| GPUdbIngestor.gpudb := three_rank_server;
     GPUdbIngestor.table_name := "t";
     GPUdbIngestor.record_type := plain_record_type;
     GPUdbIngestor.batch_size := 4;
     GPUdbIngestor.options := None;
     GPUdbIngestor.is_table_replicated := false;
     GPUdbIngestor.count_inserted := 0;
     GPUdbIngestor.count_updated := 0;
     GPUdbIngestor.shard_key_builder := None;
     GPUdbIngestor.primary_key_builder := None;
     GPUdbIngestor.worker_queues :=
       [ {| _WorkerQueue.url := "http://w1:9191"; _WorkerQueue.capacity := 4;
            _WorkerQueue.has_primary_key := false;
            _WorkerQueue.update_on_existing_pk := false;
            _WorkerQueue.record_queue := [Json (plain_record 1)];
            _WorkerQueue.primary_key_to_queue_index_map := None |};
         {| _WorkerQueue.url := "http://w2:9191"; _WorkerQueue.capacity := 4;
            _WorkerQueue.has_primary_key := false;
            _WorkerQueue.update_on_existing_pk := false;
            _WorkerQueue.record_queue := [Json (plain_record 2)];
            _WorkerQueue.primary_key_to_queue_index_map := None |};
         {| _WorkerQueue.url := "http://w3:9191"; _WorkerQueue.capacity := 4;
            _WorkerQueue.has_primary_key := false;
            _WorkerQueue.update_on_existing_pk := false;
            _WorkerQueue.record_queue :=
              [Json (plain_record 3); Json (plain_record 4)];
            _WorkerQueue.primary_key_to_queue_index_map := None |} ];
     GPUdbIngestor.num_ranks := 3;
     GPUdbIngestor.is_multihead_enabled := true;
     GPUdbIngestor.routing_table := None |}.

(** ** Tables and constructors *)

(** No column of the table is marked as a shard key. *)
Definition no_shard_key_column (record_type : GPUdbRecordType) : Prop :=
  Forall (fun col =>
            match column_properties record_type !! name col with
            | Some ps => str_in C._shard_key ps = false
            | None => True
            end) (columns record_type).

(** The worker queue is as an ingestor with [batch_size] and the
    primary-key builder [pkb] makes it. *)
Definition fresh_queue (batch_size : Z) (pkb : option _RecordKeyBuilder.t)
    (q : _WorkerQueue.t encoded) : Prop :=
  _WorkerQueue.capacity q = batch_size
  /\ _WorkerQueue.record_queue q = []
  /\ _WorkerQueue.has_primary_key q = bool_decide (is_Some pkb)
  /\ _WorkerQueue.primary_key_to_queue_index_map q
     = (if bool_decide (is_Some pkb) then Some ∅ else None).

(** ** Decimal strings *)

(** The string of a sign, the digits [di], a dot and the digits [df]. *)
Definition decimal_string (sign : pystr) (di df : list Z) : pystr :=
  sign ++ digit_chars di ++ 46 :: digit_chars df.

(** No sign, "+" or "-". *)
Definition is_sign (sign : pystr) : Prop :=
  sign = [] \/ sign = [43] \/ sign = [45].

(** The value with four decimal places as an integer: the number times
    10000. *)
Definition scaled (sign : pystr) (di df : list Z) : Z :=
  let v := _RecordKey.int_of_digits di * 10000
           + _RecordKey.int_of_digits df * 10 ^ (4 - Z.of_nat (length df)) in
  if bool_decide (sign = [45]) then - v else v.

(** White space of ASCII. *)
Definition ascii_space (c : Z) : bool :=
  (c =? 32) || ((9 <=? c) && (c <=? 13)).

(** ** Worker lists *)

(** [url] is the URL the constructor takes for a rank whose URLs are
    [urls_per_rank]: the first that matches [ip_regex], or the first at
    all when no pattern is given, no URL up to it being malformed. *)
Definition chosen_url (malformed_url : string -> exc bool)
    (re_match : string -> string -> exc bool) (ip_regex : string)
    (urls_per_rank url : string) : Prop :=
  exists skipped rest : list string,
    GPUdbWorkerList.split "," urls_per_rank = skipped ++ url :: rest
    /\ malformed_url url = ret false
    /\ Forall (fun u => malformed_url u = ret false
                        /\ re_match ip_regex u = ret false) skipped
    /\ (if String.eqb ip_regex EmptyString then skipped = []
        else re_match ip_regex url = ret true).

(** [url] is the URL the constructor makes for a rank with the IP
    addresses and the port [rank]: of the first address that matches
    [ip_regex], or of the first at all when no pattern is given, every
    address up to it being valid. *)
Definition chosen_ip_url (re_match : string -> string -> exc bool)
    (int_of_str : string -> option Z) (protocol ip_regex : string)
    (rank : string * string) (url : string) : Prop :=
  exists (skipped : list string) (ip_address : string) (rest : list string),
    GPUdbWorkerList.split "," (fst rank) = skipped ++ ip_address :: rest
    /\ url = (protocol ++ ip_address ++ ":" ++ snd rank)%string
    /\ GPUdbWorkerList.validate_ip_address int_of_str ip_address = true
    /\ Forall (fun a => GPUdbWorkerList.validate_ip_address int_of_str a = true
                        /\ re_match ip_regex a = ret false) skipped
    /\ (if String.eqb ip_regex EmptyString then skipped = []
        else re_match ip_regex ip_address = ret true).

(** A server with multi-head on that gives the URLs of its ranks. *)
Definition urls_response : GPUdbWorkerList.system_properties_response :=
  {| GPUdbWorkerList.sp_status := "OK";
     GPUdbWorkerList.sp_property_map :=
       {[ C._multihead_enabled := "TRUE"%string;
          C._worker_URLs :=
            "http://h0:9191;http://a1:9192,http://b1:9192;http://b2:9193"%string ]} |}.

(** A server with multi-head on that gives IP addresses and ports. *)
Definition ips_response (ports : string)
    : GPUdbWorkerList.system_properties_response :=
  {| GPUdbWorkerList.sp_status := "OK";
     GPUdbWorkerList.sp_property_map :=
       {[ C._multihead_enabled := "TRUE"%string;
          C._worker_IPs := "10.0.0.1;10.0.0.2,10.0.1.2;10.0.1.3"%string;
          C._worker_ports := ports ]} |}.

Definition well_formed (url_str : string) : exc bool := ret false.

(** A pattern matches the strings that start with "http://b" or with
    "10.0.1". *)
Definition starts_with_b (ip_regex s : string) : exc bool :=
  ret (String.prefix "http://b" s || String.prefix "10.0.1" s).

(** The integers of the parts of the addresses above. *)
Definition small_int (part : string) : option Z :=
  if String.eqb part "10" then Some 10
  else if String.eqb part "0" then Some 0
  else if String.eqb part "1" then Some 1
  else if String.eqb part "2" then Some 2
  else if String.eqb part "3" then Some 3
  else None.

(** ** An ingestor and a retriever of one table *)

(** The value a constructor returns, [d] if it raises. *)
Definition returned_or {A} (d : A) (m : exc A) : A :=
  match m with
  | inr a => a
  | inl _ => d
  end.

(** The ingestor of the table with the integer shard key, two workers. *)
Definition shard_ingestor : GPUdbIngestor.t :=
  returned_or two_queues
    (GPUdbIngestor.__init__ three_rank_server "t" shard_key_record_type 10
                            None (Some two_workers) false).

(** The retriever of the same table. *)
Definition shard_retriever : RecordRetriever.t :=
  returned_or
    {| RecordRetriever.gpudb := three_rank_server;
       RecordRetriever.table_name := "t";
       RecordRetriever.record_type := shard_key_record_type;
       RecordRetriever.shard_key_builder := None;
       RecordRetriever.worker_queues := [];
       RecordRetriever.num_ranks := 0;
       RecordRetriever.is_multihead_enabled := false;
       RecordRetriever.routing_table := None |}
    (RecordRetriever.__init__ three_rank_server "t" shard_key_record_type
                              (Some two_workers)).

(** The builder of the shard key of that table. *)
Definition shard_builder : _RecordKeyBuilder.t :=
  returned_or two_key_builder
    (_RecordKeyBuilder.__init__ shard_key_record_type false).

(** Every worker answers [get_records] with the status "OK" and its own
    URL as the type schema; no record is decoded. *)
Definition ok_get_records (url table : string) (expression : option pystr)
    : exc RecordRetriever.get_records_rsp :=
  ret {| RecordRetriever.gr_status := "OK";
         RecordRetriever.gr_message := "";
         RecordRetriever.gr_type_schema := url;
         RecordRetriever.gr_records_binary := [] |}.

Definition no_records (type_schema : string) (records_binary : list (list Z))
    : exc (list record) := ret [].

(** ** Expressions *)

(** The expressions joined by " and ". *)
Fixpoint joined_by_and (expressions : list pystr) : pystr :=
  match expressions with
  | [] => []
  | [e] => e
  | e :: rest => e ++ str_of " and " ++ joined_by_and rest
  end.

(** The expression of each key column of the builder for the values
    [key_values], in the order of the key. *)
Fixpoint key_expressions (key_values : list pyval) (key_types names : list string)
    : list pystr :=
  match key_values, key_types, names with
  | v :: key_values', ty :: key_types', n :: names' =>
      _RecordKeyBuilder.key_expression v ty n
        :: key_expressions key_values' key_types' names'
  | _, _, _ => []
  end.

(** * Properties *)

(** ** The key image: charN, IPv4 and routing *)

Section RecordKeyFacts.
Import _RecordKey.

Lemma extend_extend (self : _RecordKey.t) (a b : list Z) :
  extend (extend self a) b = extend self (a ++ b).
Proof. unfold extend; simpl. by rewrite <- app_assoc. Qed.

Lemma extend_nil (self : _RecordKey.t) : extend self [] = self.
Proof. destruct self; unfold extend; simpl. by rewrite app_nil_r. Qed.

Lemma pack_b0_zero (host : byteorder) : pack_b0 host = [0].
Proof. by destruct host. Qed.

Lemma pad_replicate (host : byteorder) (n : nat) (self : _RecordKey.t) :
  pad host self n = extend self (replicate n 0).
Proof.
  revert self; induction n as [|n IH]; intros self; simpl.
  - by rewrite extend_nil.
  - by rewrite IH, extend_extend, pack_b0_zero.
Qed.

Lemma utf8_ascii (s : pystr) : is_ascii s -> utf8 s = ret s.
Proof.
  induction 1 as [|c s Hc _ IH]; simpl; [done|].
  unfold utf8_char.
  destruct (Z.ltb_spec c 128); [|lia].
  simpl. by rewrite IH.
Qed.

Lemma is_ascii_rev (s : pystr) : is_ascii s -> is_ascii (rev s).
Proof. unfold is_ascii. apply Forall_rev. Qed.

Lemma will_buffer_overflow_room (self : _RecordKey.t) (n : Z) :
  0 <= n ->
  Z.of_nat (length (_buffer_value self)) + n <= _buffer_size self ->
  __will_buffer_overflow self n = ret false.
Proof.
  intros Hn Hroom. unfold __will_buffer_overflow.
  destruct (Z.ltb_spec n 0); [lia|].
  destruct (Z.gtb_spec (Z.of_nat (length (_buffer_value self)) + n)
                       (_buffer_size self)); [lia|done].
Qed.

Lemma add_charN_str (host : byteorder) (self : _RecordKey.t) (N : Z) (s : pystr) :
  0 <= N ->
  Z.of_nat (length (_buffer_value self)) + N <= _buffer_size self ->
  is_ascii s ->
  Z.of_nat (length s) <= N ->
  add_charN host self (PyStr s) N =
  ret (extend self (replicate (Z.to_nat (N - Z.of_nat (length s))) 0 ++ rev s)).
Proof.
  intros HN Hroom Hascii Hlen. unfold add_charN.
  assert (Hlong : (Z.of_nat (length s) >? N) = false).
  { destruct (Z.gtb_spec (Z.of_nat (length s)) N); [lia|done]. }
  assert (Htest : match s with
                  | [] => ret false
                  | _ :: _ => ret (Z.of_nat (length s) >? N)
                  end = ret false).
  { destruct s; [done|]. by rewrite Hlong. }
  rewrite Htest. simpl.
  rewrite will_buffer_overflow_room by done. simpl.
  rewrite Hlong, pad_replicate, (utf8_ascii (rev s)) by by apply is_ascii_rev.
  simpl. by rewrite extend_extend.
Qed.

Lemma add_charN_null (host : byteorder) (self : _RecordKey.t) (N : Z) :
  0 <= N ->
  Z.of_nat (length (_buffer_value self)) + N <= _buffer_size self ->
  add_charN host self PyNone N = ret (extend self (replicate (Z.to_nat N) 0)).
Proof.
  intros HN Hroom. unfold add_charN. simpl.
  rewrite will_buffer_overflow_room by done. simpl.
  by rewrite pad_replicate.
Qed.

End RecordKeyFacts.

(** C6. With room for [N] more bytes in the image, the charN appender
    appends, for an ASCII string of at most [N] characters, [N - len] NUL
    bytes and then the bytes of the string in reversed order, and for
    [None] it appends [N] NUL bytes.  On a new image of four bytes,
    char4 of "abcd" gives 0x64 0x63 0x62 0x61 and char4 of "ab" gives
    0x00 0x00 0x62 0x61. *)
Theorem add_charN_reversed_padded (host : byteorder) (self : _RecordKey.t) (N : Z) :
  0 <= N ->
  Z.of_nat (length (_RecordKey._buffer_value self)) + N <= _RecordKey._buffer_size self ->
  (forall s : pystr,
     is_ascii s -> Z.of_nat (length s) <= N ->
     _RecordKey.add_charN host self (PyStr s) N =
     ret (_RecordKey.extend self
            (replicate (Z.to_nat (N - Z.of_nat (length s))) 0 ++ rev s)))
  /\ _RecordKey.add_charN host self PyNone N =
     ret (_RecordKey.extend self (replicate (Z.to_nat N) 0))
  /\ (do k <- _RecordKey.__init__ 4; _RecordKey.add_charN host k (PyStr (str_of "abcd")) 4)
     = ret (_RecordKey.extend (fresh_key 4) [100; 99; 98; 97])
  /\ (do k <- _RecordKey.__init__ 4; _RecordKey.add_charN host k (PyStr (str_of "ab")) 4)
     = ret (_RecordKey.extend (fresh_key 4) [0; 0; 98; 97]).
Proof.
  intros HN Hroom. split; [|split; [|split]].
  - intros s Hs Hlen. by apply add_charN_str.
  - by apply add_charN_null.
  - simpl. rewrite add_charN_str; [done|lia|simpl; lia| |simpl; lia].
    repeat constructor; lia.
  - simpl. rewrite add_charN_str; [done|lia|simpl; lia| |simpl; lia].
    repeat constructor; lia.
Qed.

Lemma add_charN_reversed_padded_witness :
  _RecordKey.add_charN LittleEndian (fresh_key 8) (PyStr (str_of "xyz")) 4 =
  ret (_RecordKey.extend (fresh_key 8) [0; 122; 121; 120]).
Proof.
  refine (proj1 (add_charN_reversed_padded LittleEndian (fresh_key 8) 4 _ _)
                (str_of "xyz") _ _).
  - lia.
  - simpl. lia.
  - repeat constructor; lia.
  - simpl. lia.
Defined.

(** C7, as stated, fails: char4 of "abcde" on a new image of four bytes
    raises instead of returning an invalid image. *)
Lemma charN_overflow_marks_invalid_fails :
  ~ charN_overflow_marks_invalid LittleEndian (fresh_key 4) (str_of "abcde") 4.
Proof. intros (k & Hk & _). vm_compute in Hk. discriminate. Qed.

(** C7, amended. For every string with more than [N] characters the charN
    appender raises a [GPUdbException]: no image is returned, so nothing
    is written and no validity flag is cleared, and the exception is what
    the caller of the key builder gets. *)
Theorem add_charN_too_long_raises (host : byteorder) (self : _RecordKey.t)
    (s : pystr) (N : Z) :
  0 <= N ->
  Z.of_nat (length s) > N ->
  _RecordKey.add_charN host self (PyStr s) N =
  raise (GPUdbException "Char{N} given too long a value").
Proof.
  intros HN Hlen. unfold _RecordKey.add_charN.
  destruct s as [|c s]; [simpl in Hlen; lia|].
  destruct (Z.gtb_spec (Z.of_nat (length (c :: s))) N) as [_|Hle]; [done|lia].
Qed.

Lemma add_charN_too_long_raises_witness :
  _RecordKey.add_charN BigEndian (fresh_key 4) (PyStr (str_of "abcde")) 4 =
  raise (GPUdbException "Char{N} given too long a value").
Proof.
  refine (add_charN_too_long_raises BigEndian (fresh_key 4) (str_of "abcde") 4 _ _).
  - lia.
  - simpl. lia.
Defined.

(** The exception reaches the caller of the key builder: building the
    key of a record whose char4 key column holds "abcde" raises. *)
Example build_char4_too_long_raises :
  (do b <- _RecordKeyBuilder.__init__ char4_record_type true;
   _RecordKeyBuilder.build LittleEndian no_hash64 ascii_digit no_add_other b
     [("code"%string, PyStr (str_of "abcde"))])
  = raise (GPUdbException "Char{N} given too long a value").
Proof. vm_compute. reflexivity. Qed.

(** C8, as stated, fails on a little-endian host: the image of
    "127.0.0.1" is not 0x7F 0x00 0x00 0x01. *)
Lemma add_ipv4_loopback_not_big_endian :
  ~ exists k : _RecordKey.t,
      _RecordKey.add_ipv4 LittleEndian ascii_digit (fresh_key 4)
        (PyStr (str_of "127.0.0.1")) = ret k
      /\ _RecordKey._buffer_value k = [127; 0; 0; 1].
Proof. intros (k & Hk & Hb). vm_compute in Hk. injection Hk as <-. discriminate. Qed.

(** C8, amended. With room for four bytes, the IPv4 appender applied to
    "127.0.0.1" appends the integer 0x7F000001 in the byte order of the
    host: on a little-endian host the bytes 0x01 0x00 0x00 0x7F, which
    read little-endian as 0x7F000001; the bytes 0x7F 0x00 0x00 0x01 are
    what a big-endian host appends. *)
Theorem add_ipv4_loopback (host : byteorder) (unicode_digit : Z -> option Z)
    (self : _RecordKey.t) :
  (forall c, 48 <= c <= 57 -> unicode_digit c = Some (c - 48)) ->
  unicode_digit 46 = None ->
  Z.of_nat (length (_RecordKey._buffer_value self)) + 4 <= _RecordKey._buffer_size self ->
  _RecordKey.add_ipv4 host unicode_digit self (PyStr (str_of "127.0.0.1")) =
  ret (_RecordKey.extend self (native_bytes host 4 2130706433))
  /\ native_bytes LittleEndian 4 2130706433 = [1; 0; 0; 127]
  /\ le_int [1; 0; 0; 127] = 2130706433
  /\ native_bytes BigEndian 4 2130706433 = [127; 0; 0; 1].
Proof.
  intros Hdigit Hdot Hroom. split; [|done].
  unfold _RecordKey.add_ipv4.
  rewrite will_buffer_overflow_room by (unfold _ColumnTypeSize.IPV4; lia).
  change (str_of "127.0.0.1") with [49; 50; 55; 46; 48; 46; 48; 46; 49].
  unfold _RecordKey.ipv4_match, _RecordKey.match_octet_dot,
    _RecordKey.match_octet_end.
  cbn [_RecordKey.take_digits].
  rewrite !Hdigit by lia.
  cbn [_RecordKey.take_digits].
  rewrite ?Hdot, !Hdigit by lia.
  cbn [_RecordKey.take_digits].
  rewrite ?Hdot, ?Hdigit by lia.
  cbn [_RecordKey.take_digits].
  rewrite ?Hdot, ?Hdigit by lia.
  done.
Qed.

Lemma add_ipv4_loopback_witness :
  _RecordKey.add_ipv4 LittleEndian ascii_digit (fresh_key 4)
    (PyStr (str_of "127.0.0.1")) =
  ret (_RecordKey.extend (fresh_key 4) [1; 0; 0; 127]).
Proof.
  refine (proj1 (add_ipv4_loopback LittleEndian ascii_digit (fresh_key 4) _ _ _)).
  - intros c Hc. unfold ascii_digit.
    destruct (Z.leb_spec 48 c); [|lia].
    destruct (Z.leb_spec c 57); [|lia]. done.
  - done.
  - simpl. lia.
Defined.

(** ** Routing *)

(** C5, as stated, fails: for that hash the routing index is not 1. *)
Lemma route_sign_bit_index_not_1 :
  let k := _RecordKey.compute_hashes sign_bit_hash64 (fresh_key 8) in
  ~ (_RecordKey.routing_index k 4 = 1
     /\ _RecordKey.route k (Some [0; 1; 0; 1]) = ret 1).
Proof. intros k [Hidx _]. vm_compute in Hidx. discriminate. Qed.

(** C5, amended. For a key whose routing hash has the bit pattern
    0x8000000000000001, that is the integer -(2^63 - 1), and the routing
    table [0,1,0,1], [route] takes the absolute value 2^63 - 1, computes
    the routing index 3 and returns the worker index shardMap[3] = 1. *)
Theorem route_sign_bit_example (hash64 : list Z -> Z -> Z * Z) (self : _RecordKey.t) :
  fst (hash64 (_RecordKey._buffer_value self) 10) = signed64 9223372036854775809 ->
  let k := _RecordKey.compute_hashes hash64 self in
  _RecordKey._routing_hash k = - (2 ^ 63 - 1)
  /\ _RecordKey.routing_index k 4 = 3
  /\ _RecordKey.route k (Some [0; 1; 0; 1]) = ret 1.
Proof.
  intros Hhash k.
  assert (Hk : _RecordKey._routing_hash k = - (2 ^ 63 - 1)).
  { subst k. unfold _RecordKey.compute_hashes. simpl. by rewrite Hhash. }
  assert (Hidx : _RecordKey.routing_index k 4 = 3).
  { unfold _RecordKey.routing_index. by rewrite Hk. }
  split; [done|]. split; [done|].
  unfold _RecordKey.route.
  change (Z.of_nat (length [0; 1; 0; 1])) with 4.
  by rewrite Hidx.
Qed.

Lemma route_sign_bit_example_witness :
  _RecordKey.route (_RecordKey.compute_hashes sign_bit_hash64 (fresh_key 8))
                  (Some [0; 1; 0; 1]) = ret 1.
Proof.
  refine (proj2 (proj2 (route_sign_bit_example sign_bit_hash64 (fresh_key 8) _))).
  reflexivity.
Defined.

(** ** The key schema of a track-type table *)

Lemma scan_columns_last (props : gmap string (list string)) (is_primary_key : bool)
    (cols : list GPUdbRecordColumn) (st : _RecordKeyBuilder.scan) (i : nat)
    (col : GPUdbRecordColumn) :
  last cols = Some col ->
  _RecordKeyBuilder.s_column_name
    (_RecordKeyBuilder.scan_columns props is_primary_key st i cols) = Some (name col)
  /\ _RecordKeyBuilder.s_column_type
       (_RecordKeyBuilder.scan_columns props is_primary_key st i cols)
     = Some (column_type col).
Proof.
  revert st i. induction cols as [|c cols IH]; intros st i Hlast; [done|].
  destruct cols as [|c' cols].
  - injection Hlast as ->. simpl. unfold _RecordKeyBuilder.scan_column.
    by destruct (if is_primary_key then _ else _).
  - by apply IH.
Qed.

Lemma str_in_index (x : string) (l : list string) :
  str_in x l = true -> exists i, str_index x l = Some i.
Proof.
  induction l as [|y l IH]; simpl; [done|].
  destruct (String.eqb x y); [by exists O|].
  simpl. intros H. destruct (IH H) as [i ->]. by exists (S i).
Qed.

(** Whatever the track-type table, when the loop over the columns found
    no shard key the descriptor added for TRACKID has the name and the
    type of the last column. *)
Lemma track_type_descriptor_of_last_column (record_type : GPUdbRecordType)
    (col : GPUdbRecordColumn) :
  let scanned :=
    _RecordKeyBuilder.scan_columns (column_properties record_type) false
      _RecordKeyBuilder.scan_init O (columns record_type) in
  _RecordKeyBuilder.is_track_type (map name (columns record_type)) = true ->
  _RecordKeyBuilder.s_routing_key_indices scanned = [] ->
  last (columns record_type) = Some col ->
  exists (st : _RecordKeyBuilder.scan) (track_id_index : nat),
    _RecordKeyBuilder.analyze record_type false = ret st
    /\ str_index "TRACKID" (map name (columns record_type)) = Some track_id_index
    /\ _RecordKeyBuilder.s_routing_key_indices st = [track_id_index]
    /\ _RecordKeyBuilder.s_key_schema_fields st =
       _RecordKeyBuilder.s_key_schema_fields scanned ++
       [ {| _RecordKeyBuilder._name := name col;
            _RecordKeyBuilder._type := column_type col;
            _RecordKeyBuilder._is_nullable := None |} ].
Proof.
  intros scanned Htrack Hnone Hlast.
  assert (Hin : str_in "TRACKID" (map name (columns record_type)) = true).
  { unfold _RecordKeyBuilder.is_track_type in Htrack. simpl in Htrack.
    by apply andb_true_iff in Htrack as [? _]. }
  destruct (str_in_index _ _ Hin) as [i Hi].
  destruct (scan_columns_last (column_properties record_type) false
              (columns record_type) _RecordKeyBuilder.scan_init O col Hlast)
    as [Hname Htype].
  eexists _, i. unfold _RecordKeyBuilder.analyze, _RecordKeyBuilder.track_type.
  fold scanned. rewrite Htrack, Hi, Hnone. simpl.
  fold scanned in Hname, Htype. rewrite Hname, Htype.
  by repeat split.
Qed.

(** C9 fails on the code. For the track-type table [track_record_type]
    the shard-key builder picks column 0, TRACKID, as the routing column,
    but the descriptor it adds to the key schema has the name and type of
    the last column, "y" and "double", and no "is_nullable" entry, for
    want of which the constructor then raises [KeyError]. *)
Theorem track_type_key_descriptor_is_last_column :
  (exists st : _RecordKeyBuilder.scan,
     _RecordKeyBuilder.analyze track_record_type false = ret st
     /\ _RecordKeyBuilder.s_routing_key_indices st = [0%nat]
     /\ columns track_record_type !! 0%nat =
        Some {| name := "TRACKID"; column_type := "string" |}
     /\ _RecordKeyBuilder.s_key_schema_fields st =
        [ {| _RecordKeyBuilder._name := "y";
             _RecordKeyBuilder._type := "double";
             _RecordKeyBuilder._is_nullable := None |} ])
  /\ _RecordKeyBuilder.__init__ track_record_type false =
     raise (KeyError "is_nullable").
Proof.
  split.
  - eexists. split; [vm_compute; reflexivity|]. done.
  - vm_compute. reflexivity.
Qed.

(** ** The worker queue *)

Section WorkerQueueFacts.
Context {R : Type}.
Import _WorkerQueue.

Implicit Types (q : _WorkerQueue.t R) (r : R) (m : gmap Z nat).

Lemma flush_if_full_not_full q :
  Z.of_nat (length (record_queue q)) <> capacity q ->
  flush_if_full q = (q, None).
Proof.
  intros Hne. unfold flush_if_full.
  by destruct (Z.eqb_spec (Z.of_nat (length (record_queue q))) (capacity q)).
Qed.

Lemma flush_if_full_full q :
  Z.of_nat (length (record_queue q)) = capacity q ->
  flush_if_full q =
  (set_queue q [] (if index_truthy (primary_key_to_queue_index_map q)
                   then Some ∅ else primary_key_to_queue_index_map q),
   Some (record_queue q)).
Proof.
  intros Heq. unfold flush_if_full.
  by destruct (Z.eqb_spec (Z.of_nat (length (record_queue q))) (capacity q)).
Qed.

Lemma flushed_index_empty (m : option (gmap Z nat)) :
  match (if index_truthy m then Some ∅ else m) with
  | None => True
  | Some m' => m' = ∅
  end.
Proof.
  destruct m as [m|]; simpl; [|done].
  destruct (decide (m = ∅)) as [->|Hne].
  - by rewrite bool_decide_eq_true_2.
  - by rewrite bool_decide_eq_false_2.
Qed.

Lemma flush_if_full_batch q q' (batch : list R) :
  flush_if_full q = (q', Some batch) ->
  record_queue q' = [] /\ index_empty q' /\ batch = record_queue q
  /\ Z.of_nat (length batch) = capacity q /\ capacity q' = capacity q.
Proof.
  unfold flush_if_full.
  destruct (Z.eqb_spec (Z.of_nat (length (record_queue q))) (capacity q))
    as [Heq|Hne]; [|discriminate].
  simpl. intros [= <- <-]. simpl. repeat split; try done.
  unfold index_empty; simpl. apply flushed_index_empty.
Qed.

(** A call of [insert] that returns normally ended in [flush_if_full],
    or dropped a duplicate and left the queue as it was. *)
Lemma insert_inv q r key q' (res : option (list R)) :
  insert q r key = ret (q', res) ->
  (q' = q /\ res = None)
  \/ exists q1, flush_if_full q1 = (q', res)
       /\ capacity q1 = capacity q
       /\ (length (record_queue q1) = length (record_queue q)
           \/ length (record_queue q1) = S (length (record_queue q))).
Proof.
  unfold insert. intros H.
  destruct (has_primary_key q); simpl in H.
  - destruct key as [k|]; [|discriminate]. simpl in H.
    destruct (_RecordKey.is_valid k).
    + destruct (primary_key_to_queue_index_map q) as [m|]; [|discriminate].
      destruct (update_on_existing_pk q).
      * destruct (m !! _RecordKey.hash_code k) as [i|].
        -- destruct (i <? length (record_queue q))%nat; [|discriminate].
           injection H as H. right. eexists. split; [exact H|].
           split; [done|]. left. simpl. by rewrite length_insert.
        -- injection H as H. right. eexists. split; [exact H|].
           split; [done|]. right. simpl. rewrite length_app. simpl. lia.
      * destruct (m !! _RecordKey.hash_code k) as [i|].
        -- injection H as <- <-. by left.
        -- injection H as H. right. eexists. split; [exact H|].
           split; [done|]. right. simpl. rewrite length_app. simpl. lia.
    + injection H as H. right. eexists. split; [exact H|].
      split; [done|]. right. simpl. rewrite length_app. simpl. lia.
  - injection H as H. right. eexists. split; [exact H|].
    split; [done|]. right. simpl. rewrite length_app. simpl. lia.
Qed.

End WorkerQueueFacts.

(** C10. On a queue with a primary key and [update_on_existing_pk] off,
    [insert] with a valid key whose hash code is in the index leaves the
    queue as it is and returns [None]; on the same queue, [insert] with a
    valid key whose hash code is new, when the append leaves the queue
    below its capacity, appends the record and returns [None] too.  The
    value returned does not tell the dropped duplicate from the enqueued
    record. *)
Theorem insert_duplicate_returns_None {R : Type} (q : _WorkerQueue.t R)
    (r : R) (k k' : _RecordKey.t) (m : gmap Z nat) :
  _WorkerQueue.has_primary_key q = true ->
  _WorkerQueue.update_on_existing_pk q = false ->
  _WorkerQueue.primary_key_to_queue_index_map q = Some m ->
  _RecordKey.is_valid k = true ->
  is_Some (m !! _RecordKey.hash_code k) ->
  _RecordKey.is_valid k' = true ->
  m !! _RecordKey.hash_code k' = None ->
  Z.of_nat (length (_WorkerQueue.record_queue q ++ [r])) <> _WorkerQueue.capacity q ->
  _WorkerQueue.insert q r (Some k) = ret (q, None)
  /\ _WorkerQueue.insert q r (Some k') =
     ret (_WorkerQueue.index_key (_WorkerQueue.append q r) m (_RecordKey.hash_code k')
            (length (_WorkerQueue.record_queue q)), None)
  /\ returned (_WorkerQueue.insert q r (Some k)) =
     returned (_WorkerQueue.insert q r (Some k')).
Proof.
  intros Hpk Hupd Hm Hk [i Hi] Hk' Hnew Hcap.
  assert (H1 : _WorkerQueue.insert q r (Some k) = ret (q, None)).
  { unfold _WorkerQueue.insert. rewrite Hpk. simpl. rewrite Hk, Hm, Hupd, Hi. done. }
  assert (H2 : _WorkerQueue.insert q r (Some k') =
     ret (_WorkerQueue.index_key (_WorkerQueue.append q r) m (_RecordKey.hash_code k')
            (length (_WorkerQueue.record_queue q)), None)).
  { unfold _WorkerQueue.insert. rewrite Hpk. simpl. rewrite Hk', Hm, Hupd, Hnew.
    by rewrite flush_if_full_not_full. }
  split; [done|]. split; [done|]. by rewrite H1, H2.
Qed.

Lemma insert_duplicate_returns_None_witness :
  _WorkerQueue.insert one_record_queue 11 (Some (key_with_hash 7)) =
  ret (one_record_queue, None).
Proof.
  refine (proj1 (insert_duplicate_returns_None one_record_queue 11
                   (key_with_hash 7) (key_with_hash 8) {[ 7 := 0%nat ]}
                   _ _ _ _ _ _ _ _)).
  - reflexivity.
  - reflexivity.
  - reflexivity.
  - reflexivity.
  - exists 0%nat. reflexivity.
  - reflexivity.
  - reflexivity.
  - simpl. lia.
Defined.

(** *** Sequences of calls *)

Lemma apply_call_below_capacity {R} (q : _WorkerQueue.t R) (c : call R) :
  Z.of_nat (length (_WorkerQueue.record_queue q)) < _WorkerQueue.capacity q ->
  _WorkerQueue.capacity (fst (apply_call q c)) = _WorkerQueue.capacity q
  /\ Z.of_nat (length (_WorkerQueue.record_queue (fst (apply_call q c))))
     < _WorkerQueue.capacity q.
Proof.
  intros Hlt. destruct c as [r k|]; simpl.
  - destruct (_WorkerQueue.insert q r k) as [e|[q' res]] eqn:Hins; simpl; [done|].
    apply insert_inv in Hins as [[-> _]|(q1 & Hfl & Hcap & Hlen)]; [done|].
    destruct (Z.eq_dec (Z.of_nat (length (_WorkerQueue.record_queue q1)))
                       (_WorkerQueue.capacity q1)) as [Heq|Hne].
    + rewrite flush_if_full_full in Hfl by done.
      injection Hfl as <- _. simpl. lia.
    + rewrite flush_if_full_not_full in Hfl by done.
      injection Hfl as <- _. lia.
  - simpl. lia.
Qed.

Lemma run_calls_below_capacity {R} (cs : list (call R)) (q : _WorkerQueue.t R) :
  Z.of_nat (length (_WorkerQueue.record_queue q)) < _WorkerQueue.capacity q ->
  _WorkerQueue.capacity (run_calls q cs) = _WorkerQueue.capacity q
  /\ Z.of_nat (length (_WorkerQueue.record_queue (run_calls q cs)))
     < _WorkerQueue.capacity q.
Proof.
  revert q. induction cs as [|c cs IH]; intros q Hlt; simpl; [done|].
  destruct (apply_call_below_capacity q c Hlt) as [Hcap Hlt'].
  destruct (IH (fst (apply_call q c))) as [Hcap2 Hlt2]; [lia|].
  unfold run_calls in *. simpl. rewrite Hcap2, Hcap. split; [done|lia].
Qed.

(** C4. A queue made by the constructor, after any sequence of [insert]
    and [flush] calls, holds no more records than its capacity; and when
    a further [insert] returns a batch, the batch is the full queue, the
    queue left behind is empty and its primary-key index is empty. *)
Theorem queue_within_capacity {R : Type} (url : string) (capacity : Z)
    (has_primary_key update_on_existing_pk : bool) (q0 : _WorkerQueue.t R)
    (cs : list (call R)) :
  _WorkerQueue.__init__ url capacity has_primary_key update_on_existing_pk = ret q0 ->
  let q := run_calls q0 cs in
  _WorkerQueue.capacity q = capacity
  /\ Z.of_nat (length (_WorkerQueue.record_queue q)) <= capacity
  /\ forall (record : R) (key : option _RecordKey.t) (q' : _WorkerQueue.t R)
       (batch : list R),
       _WorkerQueue.insert q record key = ret (q', Some batch) ->
       Z.of_nat (length batch) = capacity
       /\ _WorkerQueue.record_queue q' = []
       /\ index_empty q'.
Proof.
  intros Hinit q. unfold _WorkerQueue.__init__ in Hinit.
  destruct (Z.leb_spec capacity 0) as [|Hpos]; [discriminate|].
  injection Hinit as <-.
  destruct (run_calls_below_capacity cs
    {| _WorkerQueue.url := url; _WorkerQueue.capacity := capacity;
       _WorkerQueue.has_primary_key := has_primary_key;
       _WorkerQueue.update_on_existing_pk := update_on_existing_pk;
       _WorkerQueue.record_queue := [];
       _WorkerQueue.primary_key_to_queue_index_map :=
         if has_primary_key then Some ∅ else None |}) as [Hcap Hlt];
    [simpl; lia|].
  simpl in Hcap, Hlt. fold q in Hcap, Hlt.
  split; [done|]. split; [lia|].
  intros r key q' batch Hins.
  apply insert_inv in Hins as [[_ ?]|(q1 & Hfl & Hcap1 & _)]; [done|].
  apply flush_if_full_batch in Hfl as (Hq & Hidx & _ & Hlen & _).
  split; [lia|done].
Qed.

Lemma queue_within_capacity_witness :
  Z.of_nat (length (_WorkerQueue.record_queue
     (run_calls (_WorkerQueue.set_queue one_record_queue [] (Some ∅))
        [Insert 1 (Some (key_with_hash 1)); Insert 2 (Some (key_with_hash 2));
         Flush; Insert 3 (Some (key_with_hash 3))]))) <= 3.
Proof.
  refine (proj1 (proj2 (queue_within_capacity "http://w1:9191" 3 true false
                          (_WorkerQueue.set_queue one_record_queue [] (Some ∅))
                          _ _))).
  reflexivity.
Defined.

(** *** Primary-key dedup *)

Section PrimaryKeyDedup.
Context {R : Type}.
Variable pk : R -> _RecordKey.t.
Import _WorkerQueue.

Implicit Types (q : _WorkerQueue.t R) (r : R) (l seg : list R) (h : Z).

Local Abbreviation valid_hash := (valid_hash pk).
Local Abbreviation valid_hashes := (valid_hashes pk).
Local Abbreviation find_slot := (find_slot pk).
Local Abbreviation most_recent := (most_recent pk).

Lemma find_slot_None h l : find_slot h l = None <-> h ∉ valid_hashes l.
Proof.
  induction l as [|r l IH]; simpl.
  - split; [intros _; apply not_elem_of_nil|done].
  - unfold valid_hashes in *. simpl.
    destruct (valid_hash r) as [h'|] eqn:Hr.
    + destruct (decide (h' = h)) as [->|Hne].
      * rewrite bool_decide_eq_true_2 by done. split; [done|].
        intros Hn. exfalso. apply Hn. apply elem_of_cons. by left.
      * rewrite bool_decide_eq_false_2 by congruence.
        rewrite fmap_None, IH, not_elem_of_cons.
        split; [intros Hn; split; [congruence|done]|by intros [_ Hn]].
    + rewrite bool_decide_eq_false_2 by congruence.
      by rewrite fmap_None, IH.
Qed.

Lemma find_slot_Some h l i :
  find_slot h l = Some i -> exists r, l !! i = Some r /\ valid_hash r = Some h.
Proof.
  revert i. induction l as [|r l IH]; intros i; simpl; [done|].
  case_bool_decide as Hr.
  - intros [= <-]. by exists r.
  - destruct (find_slot h l) as [j|]; simpl; [|done].
    intros [= <-]. by apply IH.
Qed.

Lemma find_slot_app_None h l r :
  valid_hash r <> Some h -> find_slot h (l ++ [r]) = find_slot h l.
Proof.
  intros Hr. induction l as [|r' l IH]; simpl.
  - by rewrite bool_decide_eq_false_2.
  - case_bool_decide; [done|]. by rewrite IH.
Qed.

Lemma find_slot_app_new h l r :
  valid_hash r = Some h -> find_slot h l = None ->
  find_slot h (l ++ [r]) = Some (length l).
Proof.
  intros Hr. induction l as [|r' l IH]; simpl.
  - by rewrite bool_decide_eq_true_2.
  - case_bool_decide; [done|].
    destruct (find_slot h l); simpl; [done|]. intros _. by rewrite IH.
Qed.

Lemma map_valid_hash_insert l i r r0 :
  l !! i = Some r0 -> valid_hash r0 = valid_hash r ->
  map valid_hash (<[i := r]> l) = map valid_hash l.
Proof.
  revert i. induction l as [|r' l IH]; intros [|i]; simpl; try done.
  - intros [= ->] ->. done.
  - intros Hl Hr. f_equal. by apply IH.
Qed.

Lemma find_slot_map h l l' :
  map valid_hash l = map valid_hash l' -> find_slot h l = find_slot h l'.
Proof.
  revert l'. induction l as [|r l IH]; intros [|r' l']; simpl; try done.
  intros [= Hr Hl]. rewrite Hr, (IH l' Hl). done.
Qed.

Lemma valid_hashes_map l l' :
  map valid_hash l = map valid_hash l' -> valid_hashes l = valid_hashes l'.
Proof.
  unfold valid_hashes.
  revert l'. induction l as [|r l IH]; intros [|r' l']; try done.
  intros [= Hr Hl]. specialize (IH l' Hl). simpl. rewrite Hr.
  destruct (valid_hash r'); simpl; [|exact IH].
  f_equal. exact IH.
Qed.

Lemma valid_hashes_snoc l r :
  valid_hashes (l ++ [r]) =
  valid_hashes l ++ match valid_hash r with Some h => [h] | None => [] end.
Proof.
  unfold valid_hashes. rewrite omap_app. simpl. by destruct (valid_hash r).
Qed.

Lemma elem_of_valid_hashes h l :
  h ∈ valid_hashes l <-> exists r, r ∈ l /\ valid_hash r = Some h.
Proof. unfold valid_hashes. by rewrite list_elem_of_omap. Qed.

Lemma valid_hash_unique l i j r r' h :
  NoDup (valid_hashes l) ->
  l !! i = Some r -> l !! j = Some r' ->
  valid_hash r = Some h -> valid_hash r' = Some h -> i = j.
Proof.
  revert i j. induction l as [|a l IH]; intros i j Hnd Hi Hj Hr Hr'; [done|].
  unfold valid_hashes in Hnd. simpl in Hnd.
  assert (Hin : forall n x, l !! n = Some x -> valid_hash x = Some h ->
                       h ∈ omap valid_hash l).
  { intros n x Hn Hx. apply list_elem_of_omap. exists x.
    split; [by eapply list_elem_of_lookup_2|done]. }
  destruct i as [|i], j as [|j]; simpl in Hi, Hj; [done| | |].
  - injection Hi as ->. rewrite Hr in Hnd. apply NoDup_cons in Hnd as [Hn _].
    exfalso. apply Hn. by eapply Hin.
  - injection Hj as ->. rewrite Hr' in Hnd. apply NoDup_cons in Hnd as [Hn _].
    exfalso. apply Hn. by eapply Hin.
  - f_equal. apply IH; try done.
    destruct (valid_hash a); [by apply NoDup_cons in Hnd as [_ ?]|done].
Qed.

Lemma most_recent_snoc_other h seg r :
  valid_hash r <> Some h -> most_recent h (seg ++ [r]) = most_recent h seg.
Proof.
  intros Hr. unfold most_recent. rewrite filter_app.
  rewrite (filter_cons_False _ r []) by done.
  by rewrite filter_nil, app_nil_r.
Qed.

Lemma most_recent_snoc_same h seg r :
  valid_hash r = Some h -> most_recent h (seg ++ [r]) = Some r.
Proof.
  intros Hr. unfold most_recent. rewrite filter_app.
  rewrite (filter_cons_True _ r []) by done.
  by rewrite filter_nil, last_snoc.
Qed.

End PrimaryKeyDedup.

Section PrimaryKeyDedupInvariant.
Context {R : Type}.
Variable pk : R -> _RecordKey.t.
Import _WorkerQueue.

Implicit Types (q : _WorkerQueue.t R) (r : R) (l seg : list R) (h : Z).

Local Abbreviation batch_ok := (batch_ok pk).
Local Abbreviation contents_ok := (contents_ok pk).

Lemma kept_snoc (upd : bool) seg r :
  kept pk upd (seg ++ [r]) =
  match valid_hash pk r with
  | Some h =>
      if upd then
        match find_slot pk h (kept pk upd seg) with
        | Some i => <[i := r]> (kept pk upd seg)
        | None => kept pk upd seg ++ [r]
        end
      else if bool_decide (h ∈ valid_hashes pk (kept pk upd seg))
           then kept pk upd seg else kept pk upd seg ++ [r]
  | None => kept pk upd seg ++ [r]
  end.
Proof.
  destruct upd; unfold kept, kept_with_update, kept_without_update;
    rewrite fold_left_app; simpl; by destruct (valid_hash pk r).
Qed.

Lemma contents_ok_flushed (upd : bool) q seg :
  contents_ok upd q seg ->
  contents_ok upd
    (set_queue q [] (if index_truthy (primary_key_to_queue_index_map q)
                     then Some ∅ else primary_key_to_queue_index_map q)) [].
Proof.
  intros (Hpk & Hupd & (m & Hm & Hslot) & _).
  split; [done|]. split; [done|]. split.
  - exists ∅. split; [|done]. simpl.
    pose proof (flushed_index_empty (primary_key_to_queue_index_map q)) as He.
    rewrite Hm in *. simpl in *.
    destruct (negb (bool_decide (m = ∅))); [done|by rewrite He].
  - split; [by destruct upd|]. split; [constructor|].
    intros _ r h Hin. by apply elem_of_nil in Hin.
Qed.

(** Appending a record that does not enter the index. *)
Lemma batch_ok_append_plain (upd : bool) seg l r :
  valid_hash pk r = None ->
  batch_ok upd seg l -> batch_ok upd (seg ++ [r]) (l ++ [r]).
Proof.
  intros Hr (Hk & Hnd & Hrec). split; [|split].
  - by rewrite kept_snoc, Hr, Hk.
  - by rewrite valid_hashes_snoc, Hr, app_nil_r.
  - intros Hu r' h Hin Hr'.
    rewrite most_recent_snoc_other by congruence.
    apply elem_of_app in Hin as [Hin|Hin]; [by eapply Hrec|].
    apply list_elem_of_singleton in Hin as ->. congruence.
Qed.

(** Appending a record whose valid hash code is new. *)
Lemma batch_ok_append_new (upd : bool) seg l r h :
  valid_hash pk r = Some h ->
  find_slot pk h l = None ->
  batch_ok upd seg l -> batch_ok upd (seg ++ [r]) (l ++ [r]).
Proof.
  intros Hr Hnew (Hk & Hnd & Hrec).
  pose proof (proj1 (find_slot_None pk h l) Hnew) as Hnotin.
  split; [|split].
  - rewrite kept_snoc, Hr, <- Hk, Hnew.
    destruct upd; [done|]. by rewrite bool_decide_eq_false_2.
  - rewrite valid_hashes_snoc, Hr. apply NoDup_app.
    split; [done|]. split; [|apply NoDup_singleton].
    intros x Hx Hx'. apply list_elem_of_singleton in Hx' as ->. done.
  - intros Hu r' h' Hin Hr'.
    destruct (decide (h' = h)) as [->|Hne].
    + rewrite most_recent_snoc_same by done. f_equal.
      apply elem_of_app in Hin as [Hin|Hin].
      * exfalso. apply Hnotin. apply elem_of_valid_hashes. by exists r'.
      * by apply list_elem_of_singleton in Hin as ->.
    + rewrite most_recent_snoc_other by congruence.
      apply elem_of_app in Hin as [Hin|Hin]; [by eapply Hrec|].
      apply list_elem_of_singleton in Hin as ->. congruence.
Qed.

(** Dropping a record whose valid hash code is there already. *)
Lemma batch_ok_drop seg l r h i :
  valid_hash pk r = Some h ->
  find_slot pk h l = Some i ->
  batch_ok false seg l -> batch_ok false (seg ++ [r]) l.
Proof.
  intros Hr Hi (Hk & Hnd & _). split; [|split; [done|done]].
  rewrite kept_snoc, Hr, <- Hk.
  rewrite bool_decide_eq_true_2; [done|].
  destruct (decide (h ∈ valid_hashes pk l)) as [|Hn]; [done|].
  apply find_slot_None in Hn. congruence.
Qed.

(** Overwriting the slot of a record with the same valid hash code. *)
Lemma batch_ok_overwrite seg l r h i :
  valid_hash pk r = Some h ->
  find_slot pk h l = Some i ->
  batch_ok true seg l -> batch_ok true (seg ++ [r]) (<[i := r]> l).
Proof.
  intros Hr Hi (Hk & Hnd & Hrec).
  destruct (find_slot_Some pk h l i Hi) as (r0 & Hr0 & Hh0).
  assert (Hmap : map (valid_hash pk) (<[i := r]> l) = map (valid_hash pk) l).
  { eapply map_valid_hash_insert; [done|congruence]. }
  assert (Hnd' : NoDup (valid_hashes pk (<[i := r]> l))).
  { by rewrite (valid_hashes_map pk _ _ Hmap). }
  assert (Hlt : (i < length l)%nat) by by eapply lookup_lt_Some.
  split; [|split; [done|]].
  - by rewrite kept_snoc, Hr, <- Hk, Hi.
  - intros _ r' h' Hin Hr'.
    apply list_elem_of_lookup in Hin as [j Hj].
    destruct (decide (h' = h)) as [->|Hne].
    + rewrite most_recent_snoc_same by done. f_equal.
      assert (Hi' : <[i := r]> l !! i = Some r) by by apply list_lookup_insert_eq.
      assert (j = i) as -> by by eapply (valid_hash_unique pk (<[i := r]> l)).
      congruence.
    + rewrite most_recent_snoc_other by congruence.
      destruct (decide (j = i)) as [->|Hji].
      * rewrite list_lookup_insert_eq in Hj by done. congruence.
      * rewrite list_lookup_insert_ne in Hj by done.
        apply (Hrec eq_refl r' h'); [by eapply list_elem_of_lookup_2|done].
Qed.

End PrimaryKeyDedupInvariant.

Section PrimaryKeyDedupSteps.
Context {R : Type}.
Variable pk : R -> _RecordKey.t.
Import _WorkerQueue.

Implicit Types (q : _WorkerQueue.t R) (r : R) (l seg : list R) (h : Z).

(** One call of [insert]: it drops the record, or puts it in the queue
    and ends in [flush_if_full]. *)
Lemma insert_contents (upd : bool) q seg r :
  contents_ok pk upd q seg ->
  (insert q r (Some (pk r)) = ret (q, None) /\ contents_ok pk upd q (seg ++ [r]))
  \/ exists q1,
       insert q r (Some (pk r)) = ret (flush_if_full q1)
       /\ contents_ok pk upd q1 (seg ++ [r])
       /\ capacity q1 = capacity q
       /\ (length (record_queue q1) <= S (length (record_queue q)))%nat.
Proof.
  intros (Hpk & Hupd & (m & Hm & Hslot) & Hb).
  unfold insert. rewrite Hpk. simpl.
  destruct (valid_hash pk r) as [h|] eqn:Hr; unfold valid_hash in Hr;
    destruct (_RecordKey.is_valid (pk r)) eqn:Hv; try done.
  - injection Hr as Hh. rewrite Hm, Hupd, Hh, (Hslot h).
    assert (Hr : valid_hash pk r = Some h).
    { unfold valid_hash. by rewrite Hv, Hh. }
    destruct (find_slot pk h (record_queue q)) as [i|] eqn:Hfind.
    + destruct (find_slot_Some pk h _ i Hfind) as (r0 & Hr0 & Hh0).
      assert (Hlt : (i < length (record_queue q))%nat) by by eapply lookup_lt_Some.
      destruct upd.
      * apply Nat.ltb_lt in Hlt as Hltb. rewrite Hltb.
        right. eexists. split; [done|]. simpl.
        split; [|split; [done|by rewrite length_insert; lia]].
        split; [done|]. split; [done|]. split.
        -- exists m. split; [done|]. intros h'. rewrite (Hslot h'). simpl.
           apply find_slot_map. symmetry.
           eapply map_valid_hash_insert; [done|congruence].
        -- simpl. by eapply batch_ok_overwrite.
      * left. split; [done|]. split; [done|]. split; [done|].
        split; [by exists m|]. by eapply batch_ok_drop.
    + right. eexists. split; [by destruct upd|]. simpl.
      split; [|split; [done|by rewrite length_app; simpl; lia]].
      split; [done|]. split; [done|]. split.
      * eexists. split; [done|]. intros h'. simpl.
        destruct (decide (h' = h)) as [->|Hne].
        -- rewrite lookup_insert_eq. symmetry. by apply find_slot_app_new.
        -- rewrite lookup_insert_ne by done. rewrite (Hslot h').
           symmetry. apply find_slot_app_None. congruence.
      * simpl. by eapply batch_ok_append_new.
  - assert (Hnone : valid_hash pk r = None).
    { unfold valid_hash. by rewrite Hv. }
    right. eexists. split; [done|]. simpl.
    split; [|split; [done|by rewrite length_app; simpl; lia]].
    split; [done|]. split; [done|]. split.
    + exists m. split; [done|]. intros h'. rewrite (Hslot h'). simpl.
      symmetry. apply find_slot_app_None. congruence.
    + simpl. by apply batch_ok_append_plain.
Qed.

Lemma batches_ok (cap : Z) (upd : bool) (records : list R) q seg :
  contents_ok pk upd q seg ->
  capacity q = cap ->
  Z.of_nat (length (record_queue q)) < cap ->
  exists out, batches pk q seg records = ret out
    /\ forall seg' batch, (seg', batch) ∈ out ->
         Z.of_nat (length batch) = cap /\ batch_ok pk upd seg' batch.
Proof.
  revert q seg. induction records as [|r records IH]; intros q seg Hc Hcap Hlen.
  - exists []. split; [done|]. intros ?? Hin. by apply elem_of_nil in Hin.
  - simpl.
    destruct (insert_contents upd q seg r Hc)
      as [[-> Hc']|(q1 & -> & Hc1 & Hcap1 & Hlen1)]; simpl.
    + by apply IH.
    + destruct (Z.eq_dec (Z.of_nat (length (record_queue q1))) (capacity q1))
        as [Heq|Hne].
      * rewrite flush_if_full_full by done. simpl.
        destruct (IH _ [] (contents_ok_flushed pk upd q1 _ Hc1))
          as (out & -> & Hout); [simpl; lia|simpl; lia|].
        simpl. eexists. split; [done|].
        intros seg' batch Hin. apply elem_of_cons in Hin as [[= -> ->]|Hin].
        -- split; [lia|]. by destruct Hc1 as (_ & _ & _ & ?).
        -- by apply Hout.
      * rewrite flush_if_full_not_full by done. simpl.
        apply IH; [done|lia|lia].
Qed.

End PrimaryKeyDedupSteps.



(** ** The routing table of an ingestor or retriever *)

Lemma check_routing_table_ok (num_ranks : Z) (routing_table : list Z) :
  check_routing_table num_ranks routing_table = ret tt
  <-> Forall (fun e => e <= num_ranks) routing_table.
Proof.
  induction routing_table as [|e l IH]; simpl; [by split|].
  destruct (Z.gtb_spec e num_ranks) as [Hgt|Hle].
  - split; [done|]. intros H. apply Forall_cons in H as [H _]. lia.
  - rewrite IH. split; [by constructor|]. by intros [_ ?]%Forall_cons.
Qed.

(** What the check does ensure: for ranks counted from 1, every entry of
    the routing table is between 0 and the number of workers, that
    number included. *)
Lemma make_routing_table_range (gpudb : GPUdb) (num_ranks : Z)
    (shard_ranks routing_table : list Z) :
  admin_show_shards gpudb = ret shard_ranks ->
  Forall (fun rank => 1 <= rank) shard_ranks ->
  make_routing_table gpudb num_ranks = ret routing_table ->
  Forall (fun e => 0 <= e <= num_ranks) routing_table.
Proof.
  unfold make_routing_table. intros -> Hranks. simpl.
  destruct (check_routing_table num_ranks (map (fun rank => rank - 1) shard_ranks))
    as [|[]] eqn:Hcheck; [discriminate|].
  simpl. intros [= <-].
  apply check_routing_table_ok in Hcheck.
  rewrite Forall_forall in *. intros e He.
  split; [|by apply Hcheck].
  apply list_elem_of_fmap in He as (rank & -> & Hrank).
  specialize (Hranks rank Hrank). lia.
Qed.

(** C2 fails on the code. With two workers and shard ranks 1, 2 and 3
    both constructors return, and the routing table they store holds the
    entry 2, which is not below the number of workers: the check lets
    through an entry equal to [num_ranks], and the queue of that worker
    does not exist. *)
Theorem routing_table_entry_equal_to_num_ranks :
  (exists ing : GPUdbIngestor.t,
     GPUdbIngestor.__init__ three_rank_server "t" shard_key_record_type 10
                            None (Some two_workers) false = ret ing
     /\ GPUdbIngestor.num_ranks ing = 2
     /\ GPUdbIngestor.routing_table ing = Some [0; 1; 2]
     /\ py_index (GPUdbIngestor.worker_queues ing) 2 = raise IndexError)
  /\ (exists rr : RecordRetriever.t,
        RecordRetriever.__init__ three_rank_server "t" shard_key_record_type
                                 (Some two_workers) = ret rr
        /\ RecordRetriever.num_ranks rr = 2
        /\ RecordRetriever.routing_table rr = Some [0; 1; 2]
        /\ py_index (RecordRetriever.worker_queues rr) 2 = raise IndexError).
Proof.
  split.
  - eexists. split; [vm_compute; reflexivity|]. done.
  - eexists. split; [vm_compute; reflexivity|]. done.
Qed.

(** ** Insertion failures *)


(** *** What [insert] keeps *)

Section WorkerQueueKeeps.
Context {R : Type}.
Import _WorkerQueue.

Implicit Types (q : _WorkerQueue.t R) (r e : R).

Lemma flush_if_full_keeps q q' (res : option (list R)) e :
  flush_if_full q = (q', res) ->
  index_in_range q ->
  index_in_range q'
  /\ (holds q e -> holds q' e \/ exists batch, res = Some batch /\ e ∈ batch).
Proof.
  intros Hfl Hr.
  destruct (Z.eq_dec (Z.of_nat (length (record_queue q))) (capacity q)) as [Heq|Hne].
  - rewrite flush_if_full_full in Hfl by done. injection Hfl as <- <-. split.
    + intros m h i Hm Hi. simpl in Hm.
      pose proof (flushed_index_empty (primary_key_to_queue_index_map q)) as He.
      rewrite Hm in He. subst m. by rewrite lookup_empty in Hi.
    + intros (i & Hi & _). right. eexists. split; [done|].
      by eapply list_elem_of_lookup_2.
  - rewrite flush_if_full_not_full in Hfl by done. injection Hfl as <- <-.
    split; [done|]. by left.
Qed.

Lemma holds_append q r e :
  index_in_range q -> holds q e -> holds (append q r) e.
Proof.
  intros _ (i & Hi & Hsafe). exists i. simpl.
  split; [by apply lookup_app_l_Some|done].
Qed.

Lemma holds_append_new q r :
  index_in_range q -> holds (append q r) r.
Proof.
  intros Hr. exists (length (record_queue q)). simpl. split.
  - by rewrite lookup_app_r, Nat.sub_diag.
  - intros m h Hm Hi. specialize (Hr m h _ Hm Hi). lia.
Qed.

Lemma index_in_range_append q r :
  index_in_range q -> index_in_range (append q r).
Proof.
  intros Hr m h i Hm Hi. simpl in *. rewrite length_app. simpl.
  specialize (Hr m h i Hm Hi). lia.
Qed.

Lemma insert_keeps q r key q' (res : option (list R)) :
  insert q r key = ret (q', res) ->
  index_in_range q ->
  index_in_range q'
  /\ (forall e, holds q e ->
        holds q' e \/ exists batch, res = Some batch /\ e ∈ batch)
  /\ (not_indexed key ->
        holds q' r \/ exists batch, res = Some batch /\ r ∈ batch).
Proof.
  unfold insert. intros H Hr.
  assert (Hplain : forall q'' res',
    flush_if_full (append q r) = (q'', res') ->
    index_in_range q''
    /\ (forall e, holds q e ->
          holds q'' e \/ exists batch, res' = Some batch /\ e ∈ batch)
    /\ (holds q'' r \/ exists batch, res' = Some batch /\ r ∈ batch)).
  { intros q'' res' Hfl.
    pose proof (index_in_range_append q r Hr) as Hr1.
    split; [by eapply (flush_if_full_keeps _ _ _ r)|]. split.
    - intros e He. eapply flush_if_full_keeps; [done|done|by apply holds_append].
    - eapply flush_if_full_keeps; [done|done|by apply holds_append_new]. }
  destruct (has_primary_key q); simpl in H.
  - destruct key as [k|]; [|discriminate]. simpl in H.
    destruct (_RecordKey.is_valid k) eqn:Hv.
    + destruct (primary_key_to_queue_index_map q) as [m|] eqn:Hm; [|discriminate].
      destruct (update_on_existing_pk q).
      * destruct (m !! _RecordKey.hash_code k) as [i|] eqn:Hi.
        -- destruct (i <? length (record_queue q))%nat; [|discriminate].
           injection H as H.
           assert (Hr1 : index_in_range
                     (set_queue q (<[i := r]> (record_queue q)) (Some m))).
           { intros m' h j [= <-] Hj. simpl. rewrite length_insert.
             by eapply Hr. }
           split; [by eapply (flush_if_full_keeps _ _ _ r)|]. split.
           ++ intros e (j & Hj & Hsafe).
              eapply flush_if_full_keeps; [done|done|].
              exists j. simpl. split.
              ** rewrite list_lookup_insert_ne; [done|].
                 intros ->. by eapply Hsafe.
              ** intros m' h [= <-]. by apply Hsafe.
           ++ simpl. congruence.
        -- injection H as H.
           assert (Hr1 : index_in_range
                     (index_key (append q r) m (_RecordKey.hash_code k)
                                (length (record_queue q)))).
           { intros m' h j [= <-] Hj. simpl. rewrite length_app. simpl.
             destruct (decide (h = _RecordKey.hash_code k)) as [->|Hne].
             - rewrite lookup_insert_eq in Hj. injection Hj as <-. lia.
             - rewrite lookup_insert_ne in Hj by done.
               specialize (Hr m h j Hm Hj). lia. }
           split; [by eapply (flush_if_full_keeps _ _ _ r)|]. split.
           ++ intros e (j & Hj & Hsafe).
              eapply flush_if_full_keeps; [done|done|].
              exists j. simpl. split; [by apply lookup_app_l_Some|].
              intros m' h [= <-] Hh.
              destruct (decide (h = _RecordKey.hash_code k)) as [->|Hne].
              ** rewrite lookup_insert_eq in Hh. injection Hh as <-.
                 apply lookup_lt_Some in Hj. lia.
              ** rewrite lookup_insert_ne in Hh by done. by eapply Hsafe.
           ++ simpl. congruence.
      * destruct (m !! _RecordKey.hash_code k) as [i|] eqn:Hi.
        -- injection H as <- <-. split; [done|]. split; [by left|].
           simpl. congruence.
        -- injection H as H.
           assert (Hr1 : index_in_range
                     (index_key (append q r) m (_RecordKey.hash_code k)
                                (length (record_queue q)))).
           { intros m' h j [= <-] Hj. simpl. rewrite length_app. simpl.
             destruct (decide (h = _RecordKey.hash_code k)) as [->|Hne].
             - rewrite lookup_insert_eq in Hj. injection Hj as <-. lia.
             - rewrite lookup_insert_ne in Hj by done.
               specialize (Hr m h j Hm Hj). lia. }
           split; [by eapply (flush_if_full_keeps _ _ _ r)|]. split.
           ++ intros e (j & Hj & Hsafe).
              eapply flush_if_full_keeps; [done|done|].
              exists j. simpl. split; [by apply lookup_app_l_Some|].
              intros m' h [= <-] Hh.
              destruct (decide (h = _RecordKey.hash_code k)) as [->|Hne].
              ** rewrite lookup_insert_eq in Hh. injection Hh as <-.
                 apply lookup_lt_Some in Hj. lia.
              ** rewrite lookup_insert_ne in Hh by done. by eapply Hsafe.
           ++ simpl. congruence.
    + injection H as H. destruct (Hplain _ _ H) as (? & ? & ?). done.
  - injection H as H. destruct (Hplain _ _ H) as (? & ? & ?). done.
Qed.

End WorkerQueueKeeps.

(** *** What a failed [insert_records] accounts for *)

Section IngestorKeeps.
Variable host : byteorder.
Variable hash64 : list Z -> Z -> Z * Z.
Variable unicode_digit : Z -> option Z.
Variable add_other : string -> _RecordKey.t -> pyval -> exc _RecordKey.t.
Variable binary_data : GPUdbRecordType -> record -> list Z.
Variable rpc_insert_records :
  nat -> string -> string -> list encoded -> exc insert_rsp.
Variable random : nat -> Z.
Import GPUdbIngestor.

Implicit Types (self : GPUdbIngestor.t) (w : world) (e : encoded) (r : record).

Local Abbreviation build_key := (GPUdbIngestor.build_key host hash64 unicode_digit add_other).
Local Abbreviation encode := (GPUdbIngestor.encode binary_data).
Local Abbreviation __flush := (GPUdbIngestor.__flush rpc_insert_records).
Local Abbreviation insert_record :=
  (GPUdbIngestor.insert_record host hash64 unicode_digit add_other binary_data
     rpc_insert_records random).
Local Abbreviation insert_records_loop :=
  (GPUdbIngestor.insert_records_loop host hash64 unicode_digit add_other
     binary_data rpc_insert_records random).
Local Abbreviation insert_records :=
  (GPUdbIngestor.insert_records host hash64 unicode_digit add_other binary_data
     rpc_insert_records random).
Local Abbreviation no_valid_key :=
  (no_valid_key host hash64 unicode_digit add_other).

Lemma committed_records_commit w url (batch : list encoded) e :
  e ∈ committed_records (commit w url batch)
  <-> e ∈ committed_records w \/ e ∈ batch.
Proof.
  unfold committed_records, commit. simpl.
  rewrite map_app, concat_app, elem_of_app. simpl. by rewrite app_nil_r.
Qed.

Lemma flush_spec (queue : list encoded) url self w out self' w' :
  __flush queue url self w = (out, self', w') ->
  worker_queues self' = worker_queues self
  /\ primary_key_builder self' = primary_key_builder self
  /\ record_type self' = record_type self
  /\ (forall e, e ∈ committed_records w -> e ∈ committed_records w')
  /\ match out with
     | inr _ => forall e, e ∈ queue -> e ∈ committed_records w'
     | inl (InsertionException _ records) => records = map Queued queue
     | inl (Raised _) => True
     end.
Proof.
  unfold GPUdbIngestor.__flush. intros H.
  destruct queue as [|e0 queue].
  { injection H as <- <- <-. repeat split; try done.
    intros e He. by apply elem_of_nil in He. }
  destruct (rpc_insert_records _ _ _ _) as [err|rsp].
  { injection H as <- <- <-. by repeat split. }
  destruct (negb (String.eqb (status rsp) C._ok)).
  - injection H as <- <- <-. by repeat split.
  - injection H as <- <- <-. repeat split; try done.
    + intros e He. apply committed_records_commit. by left.
    + intros e He. apply committed_records_commit. by right.
Qed.

Lemma py_index_lookup {A} (l : list A) (i : Z) (a : A) :
  py_index l i = ret a ->
  l !! Z.to_nat (if i <? 0 then i + Z.of_nat (length l) else i) = Some a.
Proof.
  unfold py_index. intros H.
  destruct ((_ <? 0) || _); [discriminate|].
  destruct (l !! _) as [a'|] eqn:Hl; [|discriminate]. by injection H as <-.
Qed.

Lemma accounted_tick self w e : accounted self (tick w) e <-> accounted self w e.
Proof. done. Qed.

Lemma choose_worker_spec (shard_key : option _RecordKey.t) self w out self' w' :
  choose_worker random shard_key self w = (out, self', w') ->
  self' = self /\ committed w' = committed w
  /\ match out with inl (InsertionException _ _) => False | _ => True end.
Proof.
  unfold choose_worker, randint, lift, mfail, mret. intros H.
  destruct shard_key as [k|].
  - destruct (_RecordKey.route k (routing_table self)); by injection H as <- <- <-.
  - destruct (_ <? 0); by injection H as <- <- <-.
Qed.

Lemma queue_insert_spec (worker_index : Z) e (key : option _RecordKey.t)
    self w out self' w' :
  queue_insert worker_index e key self w = (out, self', w') ->
  w' = w
  /\ match out with
     | inl (InsertionException _ _) => False
     | inl (Raised _) => self' = self
     | inr (q', res) =>
         exists (j : nat) (q : _WorkerQueue.t encoded),
           worker_queues self !! j = Some q
           /\ _WorkerQueue.insert q e key = ret (q', res)
           /\ self' = set_worker_queues self (<[j := q']> (worker_queues self))
     end.
Proof.
  unfold queue_insert. intros H.
  destruct (py_index (worker_queues self) worker_index) as [err|q] eqn:Hq.
  { by injection H as <- <- <-. }
  destruct (_WorkerQueue.insert q e key) as [err|[q' res]] eqn:Hins.
  { by injection H as <- <- <-. }
  injection H as <- <- <-. split; [done|].
  eexists _, q. split; [by apply py_index_lookup|]. done.
Qed.

Lemma accounted_committed self self' w w' e :
  worker_queues self' = worker_queues self ->
  (forall e, e ∈ committed_records w -> e ∈ committed_records w') ->
  accounted self w e -> accounted self' w' e.
Proof.
  intros Hq Hc [He|(n & q & Hn & Hh)]; [left; by apply Hc|].
  right. exists n, q. by rewrite Hq.
Qed.

Lemma flush_returned_spec (q0 q' : _WorkerQueue.t encoded)
    (res : option (list encoded)) (j : nat) self w out self' w' e0
    (key : option _RecordKey.t) :
  queues_ok self ->
  worker_queues self !! j = Some q0 ->
  _WorkerQueue.insert q0 e0 key = ret (q', res) ->
  flush_returned rpc_insert_records (q', res)
    (set_worker_queues self (<[j := q']> (worker_queues self))) w
  = (out, self', w') ->
  queues_ok self'
  /\ primary_key_builder self' = primary_key_builder self
  /\ record_type self' = record_type self
  /\ (not_raised out ->
      (forall e, accounted self w e -> accounted self' w' e \/ carries out e)
      /\ (not_indexed key -> accounted self' w' e0 \/ carries out e0))
  /\ (forall msg records, out = inl (InsertionException msg records) ->
      exists batch, records = map Queued batch /\ res = Some batch).
Proof.
  intros Hok Hj Hins Hfl.
  assert (Hr0 : index_in_range q0).
  { eapply Forall_lookup_1 in Hok; done. }
  destruct (insert_keeps q0 e0 key q' res Hins Hr0) as (Hr' & Hold & Hnew).
  set (self1 := set_worker_queues self (<[j := q']> (worker_queues self))) in *.
  assert (Hok1 : queues_ok self1).
  { unfold queues_ok. simpl. by apply Forall_insert. }
  assert (Hlt : (j < length (worker_queues self))%nat) by by eapply lookup_lt_Some.
  (* a record accounted for before the call is in the new queues, or in
     the batch the queue returned *)
  assert (Hacc : forall e, accounted self w e ->
            accounted self1 w e \/ exists batch, res = Some batch /\ e ∈ batch).
  { intros e [He|(n & q & Hn & Hh)]; [by left; left|].
    destruct (decide (n = j)) as [->|Hne].
    - assert (q = q0) as -> by congruence.
      destruct (Hold e Hh) as [Hh'|?]; [|by right].
      left. right. exists j, q'. split; [|done].
      simpl. by apply list_lookup_insert_eq.
    - left. right. exists n, q. split; [|done].
      simpl. by rewrite list_lookup_insert_ne. }
  assert (Hacc0 : not_indexed key ->
            accounted self1 w e0 \/ exists batch, res = Some batch /\ e0 ∈ batch).
  { intros Hk. destruct (Hnew Hk) as [Hh'|?]; [|by right].
    left. right. exists j, q'. split; [|done].
    simpl. by apply list_lookup_insert_eq. }
  unfold flush_returned in Hfl. simpl in Hfl.
  destruct res as [[|b batch]|].
  - (* an empty batch is not flushed *)
    injection Hfl as <- <- <-. repeat split; try done.
    + intros e He. destruct (Hacc e He) as [?|(? & [= <-] & Hin)]; [by left|].
      by apply elem_of_nil in Hin.
    + intros Hk. destruct (Hacc0 Hk) as [?|(? & [= <-] & Hin)]; [by left|].
      by apply elem_of_nil in Hin.
  - apply flush_spec in Hfl as (Hq & Hpkb & Hrt & Hc & Hout).
    split; [unfold queues_ok; by rewrite Hq|].
    split; [done|]. split; [done|]. split.
    + intros Hnr.
      assert (Hb : forall e, e ∈ b :: batch ->
                accounted self' w' e \/ carries out e).
      { intros e He. destruct out as [[msg records|err]|[]]; [|done|].
        - right. simpl. subst records. by apply list_elem_of_fmap_2.
        - left. left. by apply Hout. }
      split.
      * intros e He. destruct (Hacc e He) as [?|(? & [= <-] & Hin)].
        -- left. by eapply accounted_committed.
        -- by apply Hb.
      * intros Hk. destruct (Hacc0 Hk) as [?|(? & [= <-] & Hin)].
        -- left. by eapply accounted_committed.
        -- by apply Hb.
    + intros msg records ->. by exists (b :: batch).
  - injection Hfl as <- <- <-. repeat split; try done.
    + intros e He. destruct (Hacc e He) as [?|(? & [=] & _)]. by left.
    + intros Hk. destruct (Hacc0 Hk) as [?|(? & [=] & _)]. by left.
Qed.

Lemma insert_record_spec r (enc : string) self w out self' w' :
  queues_ok self ->
  insert_record r enc self w = (out, self', w') ->
  queues_ok self'
  /\ primary_key_builder self' = primary_key_builder self
  /\ record_type self' = record_type self
  /\ (not_raised out ->
      (forall e, accounted self w e -> accounted self' w' e \/ carries out e)
      /\ (no_valid_key self r ->
          accounted self' w' (encode (record_type self) enc r)
          \/ carries out (encode (record_type self) enc r)))
  /\ (forall msg records, out = inl (InsertionException msg records) ->
      exists (batch : list encoded) (q q' : _WorkerQueue.t encoded)
             (key : option _RecordKey.t),
        records = map Queued batch
        /\ q ∈ worker_queues self
        /\ _WorkerQueue.insert q (encode (record_type self) enc r) key
           = ret (q', Some batch)).
Proof.
  intros Hok H. unfold GPUdbIngestor.insert_record in H.
  assert (Hraised : forall err, (out, self', w') = (inl (Raised err), self, w) ->
    queues_ok self'
    /\ primary_key_builder self' = primary_key_builder self
    /\ record_type self' = record_type self
    /\ (not_raised out ->
        (forall e, accounted self w e -> accounted self' w' e \/ carries out e)
        /\ (no_valid_key self r ->
            accounted self' w' (encode (record_type self) enc r)
            \/ carries out (encode (record_type self) enc r)))
    /\ (forall msg records, out = inl (InsertionException msg records) ->
        exists (batch : list encoded) (q q' : _WorkerQueue.t encoded)
               (key : option _RecordKey.t),
          records = map Queued batch
          /\ q ∈ worker_queues self
          /\ _WorkerQueue.insert q (encode (record_type self) enc r) key
             = ret (q', Some batch))).
  { intros err [= -> -> ->]. repeat split; try done. }
  destruct (negb (str_in (lower enc) ["json"; "binary"]%string)).
  { unfold mfail in H. symmetry in H. by eapply Hraised. }
  unfold mbind, lift, mfail, mret in H.
  destruct (build_key (primary_key_builder self) r) as [err|primary_key] eqn:Hpk.
  { symmetry in H. by eapply Hraised. }
  destruct (build_key (shard_key_builder self) r) as [err|shard_key].
  { symmetry in H. by eapply Hraised. }
  destruct (choose_worker random shard_key self w) as [[o1 s1] w1] eqn:Hcw.
  apply choose_worker_spec in Hcw as (-> & Hc1 & Ho1).
  destruct o1 as [[msg records|err]|worker_index]; [done| |].
  { injection H as <- <- <-. repeat split; try done. }
  destruct (queue_insert worker_index (encode (record_type self) enc r)
              primary_key self w1) as [[o2 s2] w2] eqn:Hqi.
  apply queue_insert_spec in Hqi as (-> & Ho2).
  destruct o2 as [[msg records|err]|[q' res]]; [done| |].
  { subst s2. injection H as <- <- <-. repeat split; try done. }
  destruct Ho2 as (j & q0 & Hj & Hins & ->).
  destruct (flush_returned_spec q0 q' res j self w1 out self' w' _ _ Hok Hj Hins H)
    as (Hok' & Hpkb & Hrt & Hacc & Hexc).
  assert (Hw : forall e, accounted self w e -> accounted self w1 e).
  { intros e He. eapply accounted_committed; [done| |done].
    unfold committed_records. by rewrite Hc1. }
  split; [done|]. split; [done|]. split; [done|]. split.
  - intros Hnr. destruct (Hacc Hnr) as [Ha Hb]. split.
    + intros e He. apply Ha. by apply Hw.
    + intros Hk. apply Hb. unfold no_valid_key in Hk. by rewrite Hpk in Hk.
  - intros msg records ->. destruct (Hexc _ _ eq_refl) as (batch & -> & ->).
    exists batch, q0, q', primary_key. split; [done|]. split; [|done].
    by eapply list_elem_of_lookup_2.
Qed.

Lemma index_found r (pre post : list record) :
  exists j : nat, GPUdbIngestor.index r (pre ++ r :: post) = Some j
                  /\ (j <= length pre)%nat.
Proof.
  induction pre as [|r' pre IH]; simpl.
  - exists O. by rewrite bool_decide_eq_true_2.
  - case_bool_decide; [exists O; split; [done|lia]|].
    destruct IH as (j & -> & Hj). exists (S j). split; [done|lia].
Qed.

Lemma no_valid_key_eq self self' r :
  primary_key_builder self' = primary_key_builder self ->
  no_valid_key self' r <-> no_valid_key self r.
Proof. unfold no_valid_key. by intros ->. Qed.

Lemma insert_records_loop_spec (records : list record) (enc : string)
    (rest pre : list record) self w msg (carried : list item) self' w' :
  records = pre ++ rest ->
  queues_ok self ->
  insert_records_loop records rest enc self w
  = (inl (InsertionException msg carried), self', w') ->
  exists (dispatched : list record) (rec : record) (todo : list record)
         (batch : list encoded) (j : nat),
    rest = dispatched ++ rec :: todo
    /\ carried = map Queued batch ++ map Remaining (drop j records)
    /\ (j <= length (pre ++ dispatched))%nat
    /\ (exists (s : GPUdbIngestor.t) (ws : world) (q q' : _WorkerQueue.t encoded)
               (key : option _RecordKey.t),
          insert_records_loop records dispatched enc self w = (inr tt, s, ws)
          /\ insert_record rec enc s ws
             = (inl (InsertionException msg (map Queued batch)), self', w')
          /\ q ∈ worker_queues s
          /\ _WorkerQueue.insert q (encode (record_type self) enc rec) key
             = ret (q', Some batch))
    /\ queues_ok self'
    /\ (forall e, accounted self w e ->
          accounted self' w' e \/ Queued e ∈ carried)
    /\ (forall r, r ∈ dispatched -> no_valid_key self r ->
          accounted self' w' (encode (record_type self) enc r)
          \/ Queued (encode (record_type self) enc r) ∈ carried).
Proof.
  revert pre self w. induction rest as [|rec rest IH]; intros pre self w Hrec Hok H.
  { discriminate. }
  simpl in H.
  destruct (insert_record rec enc self w) as [[out s1] w1] eqn:Hins.
  destruct (insert_record_spec _ _ _ _ _ _ _ Hok Hins)
    as (Hok1 & Hpkb & Hrt & Hacc & Hexc).
  destruct out as [[msg1 c|err]|[]].
  - (* the call for [rec] raised the insertion failure *)
    destruct (index_found rec pre rest) as (j & Hj & Hle).
    rewrite <- Hrec in Hj. rewrite Hj in H. injection H as -> <- <- <-.
    destruct (Hexc _ _ eq_refl) as (batch & q & q' & key & -> & Hq & Hqi).
    exists [], rec, rest, batch, j.
    split; [done|]. split; [done|]. split; [by rewrite app_nil_r|].
    split; [by exists self, w, q, q', key|]. split; [done|].
    destruct (Hacc I) as [Ha _]. split.
    + intros e He. destruct (Ha e He) as [?|Hc]; [by left|].
      right. apply elem_of_app. by left.
    + intros r Hr. by apply elem_of_nil in Hr.
  - discriminate.
  - (* the call for [rec] returned: the failure is a later one *)
    destruct (IH (pre ++ [rec]) s1 w1) as
      (dispatched & rec' & todo & batch & j & Hrest & Hcar & Hle & Hb & Hok'
       & Ha & Hd);
      [by rewrite <- app_assoc|done|done|].
    destruct (Hacc I) as [Ha1 Hn1].
    exists (rec :: dispatched), rec', todo, batch, j.
    split; [by rewrite Hrest|]. split; [done|].
    split; [rewrite <- app_assoc in Hle; exact Hle|].
    split.
    { destruct Hb as (s & ws & q & q' & key & Hloop & Hfail & Hq & Hqi).
      exists s, ws, q, q', key. simpl. rewrite Hins.
      split; [done|]. split; [done|]. split; [done|]. by rewrite <- Hrt. }
    split; [done|]. split.
    + intros e He. apply Ha. by destruct (Ha1 e He).
    + intros r Hr Hk. rewrite <- Hrt.
      apply elem_of_cons in Hr as [->|Hr].
      * apply Ha. rewrite Hrt. by destruct (Hn1 Hk).
      * apply Hd; [done|]. by apply (no_valid_key_eq self s1 r Hpkb).
Qed.

Lemma accounted_cases self w e :
  accounted self w e -> e ∈ committed_records w \/ e ∈ queued_records self.
Proof.
  intros [?|(n & q & Hn & (i & Hi & _))]; [by left|]. right.
  unfold queued_records. apply list_elem_of_In, in_concat.
  exists (_WorkerQueue.record_queue q). split; apply list_elem_of_In.
  - apply (list_elem_of_fmap_2 _WorkerQueue.record_queue).
    by eapply list_elem_of_lookup_2.
  - by eapply list_elem_of_lookup_2.
Qed.


End IngestorKeeps.

(** The constructor leaves every worker queue with an empty index. *)
Lemma make_worker_queues_ok (urls : list string) (capacity : Z)
    (has_primary_key update_on_existing_pk : bool)
    (wqs : list (_WorkerQueue.t encoded)) :
  make_worker_queues urls capacity has_primary_key update_on_existing_pk = ret wqs ->
  Forall index_in_range wqs.
Proof.
  revert wqs. induction urls as [|u urls IH]; intros wqs; simpl.
  - intros [= <-]. constructor.
  - unfold _WorkerQueue.__init__.
    destruct (capacity <=? 0); [discriminate|]. simpl.
    destruct (make_worker_queues urls capacity _ _) as [|wqs']; [discriminate|].
    simpl. intros [= <-]. constructor; [|by apply IH].
    intros m h i Hm Hi. simpl in Hm.
    destruct has_primary_key; [|discriminate].
    injection Hm as <-. by rewrite lookup_empty in Hi.
Qed.

Lemma two_queue_ingestor_eq : two_queue_ingestor = ret two_queues.
Proof. vm_compute. reflexivity. Qed.


(** The ingestor the constructor returns is one the theorem above
    applies to. *)
Lemma ingestor_init_queues_ok (gpudb : GPUdb) (table_name : string)
    (record_type : GPUdbRecordType) (batch_size : Z)
    (options : option (gmap string string))
    (workers : option GPUdbWorkerList.t) (is_table_replicated : bool)
    (ing : GPUdbIngestor.t) :
  GPUdbIngestor.__init__ gpudb table_name record_type batch_size options
                         workers is_table_replicated = ret ing ->
  queues_ok ing.
Proof.
  unfold GPUdbIngestor.__init__. intros H.
  destruct (batch_size <? 1); [discriminate|].
  destruct (_RecordKeyBuilder.__init__ record_type false) as [|skb];
    [discriminate|]. simpl in H.
  destruct (_RecordKeyBuilder.__init__ record_type true) as [|pkb];
    [discriminate|]. simpl in H.
  destruct (if _RecordKeyBuilder.has_key pkb then _ else _) as [pkb' skb'].
  destruct (match workers with Some _ => _ | None => _ end) as [|wl];
    [discriminate|]. simpl in H.
  destruct (make_worker_queues _ _ _ _) as [|wqs] eqn:Hq; [discriminate|].
  simpl in H.
  destruct (if _ && _ && _ then _ else _) as [|table]; [discriminate|].
  simpl in H. injection H as <-.
  unfold queues_ok. simpl. by eapply make_worker_queues_ok.
Qed.

(** * Further properties *)

(** ** Routing *)

(** [route] never raises: it returns 0 when there is no routing table or
    the table is empty, and otherwise an entry of the table, so that a
    table whose entries are all below [n] routes below [n]. *)
Theorem route_returns_table_entry (self : _RecordKey.t)
    (routing_table : option (list Z)) :
  exists w : Z,
    _RecordKey.route self routing_table = ret w
    /\ match routing_table with
       | Some ((_ :: _) as table) =>
           w ∈ table
           /\ forall n, Forall (fun e => 0 <= e < n) table -> 0 <= w < n
       | _ => w = 0
       end.
Proof.
  destruct routing_table as [[|e table]|]; [by exists 0| |by exists 0].
  unfold _RecordKey.route.
  set (len := Z.of_nat (length (e :: table))).
  assert (Hlen : 0 < len) by (subst len; simpl; lia).
  pose proof (Z.mod_pos_bound (Z.abs (_RecordKey._routing_hash self)) len Hlen)
    as Hidx.
  fold (_RecordKey.routing_index self len) in Hidx.
  destruct (Z.geb_spec (_RecordKey.routing_index self len) len) as [|_]; [lia|].
  destruct ((e :: table) !! Z.to_nat (_RecordKey.routing_index self len))
    as [w|] eqn:Hw.
  - exists w. split; [done|]. split; [by eapply list_elem_of_lookup_2|].
    intros n Hn. rewrite Forall_forall in Hn. apply Hn.
    by eapply list_elem_of_lookup_2.
  - apply lookup_ge_None in Hw. subst len. lia.
Qed.


(** ** The width of what the appenders write *)

Lemma length_le_bytes (n : nat) (v : Z) : length (le_bytes n v) = n.
Proof. revert v. induction n as [|n IH]; intros v; simpl; [done|]. by rewrite IH. Qed.

Lemma length_native_bytes (host : byteorder) (n : nat) (v : Z) :
  length (native_bytes host n v) = n.
Proof.
  destruct host; simpl; [|rewrite length_rev]; apply length_le_bytes.
Qed.

Lemma le_bytes_zero (n : nat) : le_bytes n 0 = replicate n 0.
Proof.
  induction n as [|n IH]; [done|].
  change (le_bytes (S n) 0) with (Z.land 0 255 :: le_bytes n (Z.shiftr 0 8)).
  by rewrite Z.shiftr_0_l, IH.
Qed.

Lemma native_bytes_zero (host : byteorder) (n : nat) :
  native_bytes host n 0 = replicate n 0.
Proof.
  unfold native_bytes. rewrite le_bytes_zero. destruct host; [done|].
  rewrite rev_alt. apply (reverse_replicate n 0).
Qed.

Lemma bind_ret_inv {A B} (m : exc A) (f : A -> exc B) (b : B) :
  bind m f = ret b -> exists a, m = ret a /\ f a = ret b.
Proof. destruct m as [e|a]; [discriminate|]. intros H. by exists a. Qed.

Lemma will_buffer_overflow_ok (self : _RecordKey.t) (n : Z) (b : bool) :
  _RecordKey.__will_buffer_overflow self n = ret b ->
  0 <= n
  /\ Z.of_nat (length (_RecordKey._buffer_value self)) + n
     <= _RecordKey._buffer_size self.
Proof.
  unfold _RecordKey.__will_buffer_overflow.
  destruct (Z.ltb_spec n 0); [discriminate|].
  destruct (Z.gtb_spec (Z.of_nat (length (_RecordKey._buffer_value self)) + n)
                       (_RecordKey._buffer_size self)); [discriminate|].
  intros _. lia.
Qed.

Lemma appended_extend (self : _RecordKey.t) (bs : list Z) (n : Z) :
  Z.of_nat (length bs) = n ->
  Z.of_nat (length (_RecordKey._buffer_value self)) + n
  <= _RecordKey._buffer_size self ->
  appended self (_RecordKey.extend self bs) n.
Proof.
  intros Hn Hroom. unfold appended. simpl. rewrite length_app. lia.
Qed.

Lemma appended_invalidate (self k : _RecordKey.t) (n : Z) :
  appended self k n -> appended self (_RecordKey.invalidate k) n.
Proof. done. Qed.

Lemma pack_signed_length (host : byteorder) (n : nat) (v : Z) (bs : list Z) :
  pack_signed host n v = ret bs -> length bs = n.
Proof.
  unfold pack_signed. destruct (_ && _); [|discriminate].
  intros [= <-]. apply length_native_bytes.
Qed.

Lemma pack_unsigned_length (host : byteorder) (n : nat) (v : Z) (bs : list Z) :
  pack_unsigned host n v = ret bs -> length bs = n.
Proof.
  unfold pack_unsigned. destruct (_ && _); [|discriminate].
  intros [= <-]. apply length_native_bytes.
Qed.

Lemma pack_signed_appended (host : byteorder) (n : nat) (v : Z)
    (self k : _RecordKey.t) :
  Z.of_nat (length (_RecordKey._buffer_value self)) + Z.of_nat n
  <= _RecordKey._buffer_size self ->
  (do b <- pack_signed host n v; ret (_RecordKey.extend self b)) = ret k ->
  appended self k (Z.of_nat n).
Proof.
  intros Hroom H. apply bind_ret_inv in H as (bs & Hp & [= <-]).
  apply pack_signed_length in Hp. apply appended_extend; lia.
Qed.

Lemma pack_unsigned_appended (host : byteorder) (n : nat) (v : Z)
    (self k : _RecordKey.t) (f : _RecordKey.t -> _RecordKey.t) :
  (forall k', appended self k' (Z.of_nat n) -> appended self (f k') (Z.of_nat n)) ->
  Z.of_nat (length (_RecordKey._buffer_value self)) + Z.of_nat n
  <= _RecordKey._buffer_size self ->
  (do b <- pack_unsigned host n v; ret (f (_RecordKey.extend self b))) = ret k ->
  appended self k (Z.of_nat n).
Proof.
  intros Hf Hroom H. apply bind_ret_inv in H as (bs & Hp & [= <-]).
  apply pack_unsigned_length in Hp. apply Hf, appended_extend; lia.
Qed.

Lemma add_signed_appended (host : byteorder) (width : Z) (self k : _RecordKey.t)
    (val : pyval) :
  _RecordKey.add_signed host width self val = ret k -> appended self k width.
Proof.
  unfold _RecordKey.add_signed. intros H.
  apply bind_ret_inv in H as (b & Hov & H).
  apply will_buffer_overflow_ok in Hov as [Hw Hroom].
  replace width with (Z.of_nat (Z.to_nat width)) at 1 by lia.
  destruct val as [|z|s]; [| |discriminate];
    (eapply pack_signed_appended; [|exact H]); lia.
Qed.

Lemma add_string_appended (host : byteorder) (hash64 : list Z -> Z -> Z * Z)
    (self k : _RecordKey.t) (val : pyval) :
  _RecordKey.add_string host hash64 self val = ret k -> appended self k 8.
Proof.
  unfold _RecordKey.add_string. intros H.
  apply bind_ret_inv in H as (b & Hov & H).
  apply will_buffer_overflow_ok in Hov as [Hw Hroom].
  unfold _ColumnTypeSize.STRING in Hroom.
  destruct val as [|z|s]; [|discriminate|].
  - by apply (pack_signed_appended host 8 0).
  - apply bind_ret_inv in H as (u & _ & H).
    by apply (pack_signed_appended host 8 (hash64 u 10).1).
Qed.

Lemma add_ipv4_appended (host : byteorder) (unicode_digit : Z -> option Z)
    (self k : _RecordKey.t) (val : pyval) :
  _RecordKey.add_ipv4 host unicode_digit self val = ret k -> appended self k 4.
Proof.
  unfold _RecordKey.add_ipv4. intros H.
  apply bind_ret_inv in H as (b & Hov & H).
  apply will_buffer_overflow_ok in Hov as [Hw Hroom].
  unfold _ColumnTypeSize.IPV4 in Hroom.
  destruct val as [|z|s]; [|discriminate|].
  - by apply (pack_unsigned_appended host 4 0 self k id).
  - destruct (_RecordKey.ipv4_match unicode_digit s) as [[[[a b'] c] d]|].
    + destruct (_ || _).
      * by apply (pack_unsigned_appended host 4 0 self k _RecordKey.invalidate).
      * by eapply (pack_unsigned_appended host 4 _ self k id).
    + by apply (pack_unsigned_appended host 4 0 self k _RecordKey.invalidate).
Qed.

Lemma add_charN_ret_inv (host : byteorder) (self k : _RecordKey.t)
    (val : pyval) (N : Z) :
  _RecordKey.add_charN host self val N = ret k ->
  0 <= N
  /\ Z.of_nat (length (_RecordKey._buffer_value self)) + N
     <= _RecordKey._buffer_size self
  /\ match val with
     | PyNone => k = _RecordKey.extend self (replicate (Z.to_nat N) 0)
     | PyInt _ => False
     | PyStr s =>
         Z.of_nat (length s) <= N
         /\ exists u, utf8 (rev s) = ret u
            /\ k = _RecordKey.extend self
                     (replicate (Z.to_nat (N - Z.of_nat (length s))) 0 ++ u)
     end.
Proof.
  unfold _RecordKey.add_charN. intros H.
  apply bind_ret_inv in H as (long & Hlong & H).
  destruct long; [discriminate|].
  apply bind_ret_inv in H as (b & Hov & H).
  apply will_buffer_overflow_ok in Hov as [HN Hroom].
  split; [done|]. split; [done|].
  destruct val as [|z|s]; [|discriminate|].
  - injection H as <-. by rewrite pad_replicate.
  - assert (Hgt : (Z.of_nat (length s) >? N) = false).
    { destruct s as [|c s]; [|by injection Hlong].
      rewrite Z.gtb_ltb. apply Z.ltb_ge. simpl. lia. }
    cbv zeta in H. rewrite Hgt, pad_replicate in H.
    apply bind_ret_inv in H as (u & Hu & [= <-]).
    rewrite Z.gtb_ltb in Hgt. apply Z.ltb_ge in Hgt.
    split; [done|]. exists u. split; [done|]. by rewrite extend_extend.
Qed.

Lemma add_charN_appended (host : byteorder) (self k : _RecordKey.t)
    (val : pyval) (N : Z) :
  plain_value val ->
  _RecordKey.add_charN host self val N = ret k -> appended self k N.
Proof.
  intros Hplain H.
  apply add_charN_ret_inv in H as (HN & Hroom & H).
  destruct val as [|z|s]; [|done|].
  - subst k. apply appended_extend; [|done]. rewrite length_replicate. lia.
  - destruct H as (Hlen & u & Hu & ->). simpl in Hplain.
    rewrite (utf8_ascii (rev s)) in Hu by by apply is_ascii_rev.
    injection Hu as <-.
    apply appended_extend; [|done].
    rewrite length_app, length_replicate, length_rev. lia.
Qed.

(** For every column type whose appender is embedded, the appender found
    in the dict of add functions writes, when it returns, exactly the
    number of bytes the dict of column type sizes gives for the type, and
    stays within the buffer size.  The charN appenders do so for [None]
    and for ASCII strings. *)
Theorem appender_writes_column_size (host : byteorder)
    (hash64 : list Z -> Z -> Z * Z) (unicode_digit : Z -> option Z)
    (add_other : string -> _RecordKey.t -> pyval -> exc _RecordKey.t)
    (col_type : string) (add : _RecordKey.t -> pyval -> exc _RecordKey.t)
    (self k : _RecordKey.t) (val : pyval) :
  str_in col_type embedded_types = true ->
  _RecordKeyBuilder._column_type_add_functions host hash64 unicode_digit
    add_other col_type = Some add ->
  plain_value val ->
  add self val = ret k ->
  exists size : Z,
    _ColumnTypeSize.size_of col_type = Some size /\ appended self k size.
Proof.
  intros Hin Hadd Hplain Hk.
  unfold embedded_types, str_in in Hin. simpl in Hin.
  repeat (apply orb_true_iff in Hin as [Hin|Hin];
          [apply String.eqb_eq in Hin; subst col_type;
           unfold _RecordKeyBuilder._column_type_add_functions in Hadd;
           simpl in Hadd; injection Hadd as <-;
           eexists; split; [reflexivity|];
           first [ by eapply add_charN_appended
                 | by eapply add_signed_appended
                 | by eapply add_string_appended
                 | by eapply add_ipv4_appended ]|]).
  discriminate.
Qed.


Lemma appender_writes_column_size_witness :
  exists size : Z,
    _ColumnTypeSize.size_of "int16" = Some size
    /\ appended (fresh_key 2) (_RecordKey.extend (fresh_key 2) [7; 0]) size.
Proof.
  apply (appender_writes_column_size LittleEndian no_hash64 ascii_digit
           no_add_other "int16" (_RecordKey.add_int16 LittleEndian)
           (fresh_key 2) _ (PyInt 7)); done.
Defined.

Lemma utf8_char_length (c : Z) (b : list Z) :
  utf8_char c = ret b ->
  (1 <= length b)%nat /\ (128 <= c -> (2 <= length b)%nat).
Proof.
  unfold utf8_char.
  destruct (Z.ltb_spec c 128); [intros [= <-]; simpl; lia|].
  destruct (c <? 2048); [intros [= <-]; simpl; lia|].
  destruct (_ && _); [discriminate|].
  destruct (c <? 65536); intros [= <-]; simpl; lia.
Qed.

Lemma utf8_length (s : pystr) (u : list Z) :
  utf8 s = ret u ->
  (length s <= length u)%nat
  /\ (Exists (fun c => 128 <= c) s -> (length s < length u)%nat).
Proof.
  revert u. induction s as [|c s IH]; intros u H; simpl in H.
  - injection H as <-. split; [done|]. by intros ?%Exists_nil.
  - apply bind_ret_inv in H as (b & Hb & H).
    apply bind_ret_inv in H as (bs & Hbs & [= <-]).
    apply utf8_char_length in Hb as [Hb1 Hb2].
    apply IH in Hbs as [Hbs1 Hbs2].
    rewrite length_app. simpl. split; [lia|].
    intros [Hc|Hs]%Exists_cons; [specialize (Hb2 Hc)|specialize (Hbs2 Hs)]; lia.
Qed.

(** [add_charN] counts the characters of the value, not the bytes of its
    UTF-8 encoding: when it returns on a string, it has written [N]
    bytes plus one byte for each byte by which the encoding is longer
    than the string.  For a string with a character outside ASCII that
    is more than the [N] bytes of the column, and the image can end up
    longer than the buffer size. *)
Theorem add_charN_counts_characters (host : byteorder) (self k : _RecordKey.t)
    (s : pystr) (N : Z) :
  _RecordKey.add_charN host self (PyStr s) N = ret k ->
  exists u : list Z,
    utf8 (rev s) = ret u
    /\ Z.of_nat (length (_RecordKey._buffer_value k))
       = Z.of_nat (length (_RecordKey._buffer_value self)) + N
         + (Z.of_nat (length u) - Z.of_nat (length s))
    /\ (length s <= length u)%nat
    /\ (Exists (fun c => 128 <= c) s ->
        Z.of_nat (length (_RecordKey._buffer_value self)) + N
        < Z.of_nat (length (_RecordKey._buffer_value k))).
Proof.
  intros H. apply add_charN_ret_inv in H as (HN & Hroom & Hlen & u & Hu & ->).
  exists u. split; [done|].
  apply utf8_length in Hu as [Hle Hlt]. rewrite length_rev in Hle, Hlt.
  assert (Hk : Z.of_nat (length (_RecordKey._buffer_value
                 (_RecordKey.extend self
                    (replicate (Z.to_nat (N - Z.of_nat (length s))) 0 ++ u))))
               = Z.of_nat (length (_RecordKey._buffer_value self)) + N
                 + (Z.of_nat (length u) - Z.of_nat (length s))).
  { simpl. rewrite !length_app, length_replicate. lia. }
  split; [done|]. split; [done|].
  intros Hex. rewrite Hk.
  assert (length s < length u)%nat; [|lia].
  apply Hlt. apply Exists_exists in Hex as (c & Hc & Hc128).
  apply Exists_exists. exists c. split; [|done].
  apply list_elem_of_In, (proj1 (in_rev s c)). by apply list_elem_of_In.
Qed.

Lemma add_charN_counts_characters_witness :
  exists u : list Z,
    utf8 (rev [233]) = ret u
    /\ Z.of_nat (length (_RecordKey._buffer_value
                   (_RecordKey.extend (fresh_key 1) [195; 169])))
       = Z.of_nat (length (_RecordKey._buffer_value (fresh_key 1))) + 1
         + (Z.of_nat (length u) - Z.of_nat (length [233]))
    /\ (length [233] <= length u)%nat
    /\ (Exists (fun c => 128 <= c) [233] ->
        Z.of_nat (length (_RecordKey._buffer_value (fresh_key 1))) + 1
        < Z.of_nat (length (_RecordKey._buffer_value
                     (_RecordKey.extend (fresh_key 1) [195; 169])))).
Proof.
  apply (add_charN_counts_characters LittleEndian (fresh_key 1)
           (_RecordKey.extend (fresh_key 1) [195; 169]) [233] 1).
  reflexivity.
Defined.

(** ** The image of a null *)

Lemma pack_signed_zero (host : byteorder) (n : nat) :
  (0 < n)%nat -> pack_signed host n 0 = ret (replicate n 0).
Proof.
  intros Hn. unfold pack_signed.
  assert (0 < 2 ^ (8 * Z.of_nat n - 1)) by (apply Z.pow_pos_nonneg; lia).
  destruct (Z.leb_spec (- 2 ^ (8 * Z.of_nat n - 1)) 0); [|lia].
  destruct (Z.ltb_spec 0 (2 ^ (8 * Z.of_nat n - 1))); [|lia].
  simpl. by rewrite native_bytes_zero.
Qed.

Lemma pack_unsigned_zero (host : byteorder) (n : nat) :
  pack_unsigned host n 0 = ret (replicate n 0).
Proof.
  unfold pack_unsigned.
  assert (0 < 2 ^ (8 * Z.of_nat n)) by (apply Z.pow_pos_nonneg; lia).
  destruct (Z.ltb_spec 0 (2 ^ (8 * Z.of_nat n))); [|lia].
  simpl. by rewrite native_bytes_zero.
Qed.

Lemma add_signed_null (host : byteorder) (width : Z) (self : _RecordKey.t) :
  0 < width ->
  Z.of_nat (length (_RecordKey._buffer_value self)) + width
  <= _RecordKey._buffer_size self ->
  _RecordKey.add_signed host width self PyNone
  = ret (_RecordKey.extend self (replicate (Z.to_nat width) 0)).
Proof.
  intros Hw Hroom. unfold _RecordKey.add_signed.
  rewrite will_buffer_overflow_room by lia. simpl.
  by rewrite pack_signed_zero by lia.
Qed.

(** A null is written as zero bytes, as many as the column type has, and
    leaves the key valid: in a key, a null cannot be told from the
    integer 0 or from the empty string of a charN column. *)
Theorem null_is_written_as_zeros (host : byteorder)
    (hash64 : list Z -> Z -> Z * Z) (unicode_digit : Z -> option Z)
    (add_other : string -> _RecordKey.t -> pyval -> exc _RecordKey.t)
    (col_type : string) (add : _RecordKey.t -> pyval -> exc _RecordKey.t)
    (size : Z) (self : _RecordKey.t) :
  str_in col_type embedded_types = true ->
  _RecordKeyBuilder._column_type_add_functions host hash64 unicode_digit
    add_other col_type = Some add ->
  _ColumnTypeSize.size_of col_type = Some size ->
  Z.of_nat (length (_RecordKey._buffer_value self)) + size
  <= _RecordKey._buffer_size self ->
  add self PyNone = ret (_RecordKey.extend self (replicate (Z.to_nat size) 0))
  /\ (str_in col_type ["int"; "int8"; "int16"; "long"] = true ->
      add self (PyInt 0) = add self PyNone)
  /\ (str_in col_type ["char1"; "char2"; "char4"; "char8"; "char16"; "char32";
                       "char64"; "char128"; "char256"] = true ->
      add self (PyStr []) = add self PyNone).
Proof.
  intros Hin Hadd Hsize Hroom.
  unfold embedded_types, str_in in Hin. simpl in Hin.
  repeat (apply orb_true_iff in Hin as [Hin|Hin];
          [apply String.eqb_eq in Hin; subst col_type;
           unfold _RecordKeyBuilder._column_type_add_functions in Hadd;
           simpl in Hadd; injection Hadd as <-;
           injection Hsize as <-;
           (split; [|split; [|]]);
           [ first [ by apply add_charN_null
                   | by apply add_signed_null
                   | unfold _RecordKey.add_string, _RecordKey.add_ipv4;
                     rewrite will_buffer_overflow_room by done; simpl;
                     first [ by rewrite (pack_signed_zero host 8) by lia
                           | by rewrite (pack_unsigned_zero host 4) ] ]
           | first [ discriminate | reflexivity ]
           | first [ discriminate
                   | intros _;
                     unfold _RecordKey.add_char1, _RecordKey.add_char2,
                       _RecordKey.add_char4, _RecordKey.add_char8,
                       _RecordKey.add_char16, _RecordKey.add_char32,
                       _RecordKey.add_char64, _RecordKey.add_char128,
                       _RecordKey.add_char256;
                     rewrite add_charN_null, add_charN_str
                       by first [done | by constructor | simpl; lia];
                     simpl; by rewrite ?app_nil_r, ?Z.sub_0_r ] ]|]).
  discriminate.
Qed.

Lemma null_is_written_as_zeros_witness :
  _RecordKey.add_char4 LittleEndian (fresh_key 4) PyNone
  = ret (_RecordKey.extend (fresh_key 4) (replicate (Z.to_nat 4) 0))
  /\ (str_in "char4" ["int"; "int8"; "int16"; "long"] = true ->
      _RecordKey.add_char4 LittleEndian (fresh_key 4) (PyInt 0)
      = _RecordKey.add_char4 LittleEndian (fresh_key 4) PyNone)
  /\ (str_in "char4" ["char1"; "char2"; "char4"; "char8"; "char16"; "char32";
                      "char64"; "char128"; "char256"] = true ->
      _RecordKey.add_char4 LittleEndian (fresh_key 4) (PyStr [])
      = _RecordKey.add_char4 LittleEndian (fresh_key 4) PyNone).
Proof.
  apply (null_is_written_as_zeros LittleEndian no_hash64 ascii_digit
           no_add_other "char4" (_RecordKey.add_char4 LittleEndian) 4
           (fresh_key 4)); [done|done|done|simpl; lia].
Defined.

(** ** The image of an integer *)

Lemma le_int_le_bytes (n : nat) (v : Z) :
  le_int (le_bytes n v) = v mod 2 ^ (8 * Z.of_nat n).
Proof.
  revert v. induction n as [|n IH]; intros v.
  - simpl. by rewrite Z.mod_1_r.
  - change (le_int (le_bytes (S n) v))
      with (Z.land v 255 + 256 * le_int (le_bytes n (Z.shiftr v 8))).
    rewrite IH. change 255 with (Z.ones 8).
    rewrite Z.land_ones, Z.shiftr_div_pow2 by lia.
    replace (8 * Z.of_nat (S n)) with (8 + 8 * Z.of_nat n) by lia.
    rewrite Z.pow_add_r by lia.
    rewrite Z.rem_mul_r by (try apply Z.pow_pos_nonneg; lia).
    done.
Qed.

(** The integer appenders [add_int8], [add_int16], [add_int] and
    [add_long] return only on a value that fits the signed format, and
    what they append, read in the byte order of the host, is the value
    in two's complement. *)
Theorem add_signed_twos_complement (host : byteorder) (width : Z)
    (self k : _RecordKey.t) (z : Z) :
  _RecordKey.add_signed host width self (PyInt z) = ret k ->
  - 2 ^ (8 * width - 1) <= z < 2 ^ (8 * width - 1)
  /\ exists bs : list Z,
       _RecordKey._buffer_value k = _RecordKey._buffer_value self ++ bs
       /\ Z.of_nat (length bs) = width
       /\ le_int (match host with LittleEndian => bs | BigEndian => rev bs end)
          = z mod 2 ^ (8 * width)
       /\ _RecordKey.is_valid k = _RecordKey.is_valid self.
Proof.
  unfold _RecordKey.add_signed. intros H.
  apply bind_ret_inv in H as (b & Hov & H).
  apply will_buffer_overflow_ok in Hov as [Hw _].
  apply bind_ret_inv in H as (bs & Hp & [= <-]).
  unfold pack_signed in Hp. rewrite Z2Nat.id in Hp by done.
  destruct (Z.leb_spec (- 2 ^ (8 * width - 1)) z); [|discriminate].
  destruct (Z.ltb_spec z (2 ^ (8 * width - 1))); [|discriminate].
  injection Hp as <-. split; [lia|].
  exists (native_bytes host (Z.to_nat width) z).
  split; [done|]. split; [rewrite length_native_bytes; lia|]. split; [|done].
  destruct host; simpl; rewrite ?rev_involutive, le_int_le_bytes;
    by rewrite Z2Nat.id.
Qed.

Lemma add_signed_twos_complement_witness :
  - 2 ^ (8 * 2 - 1) <= -2 < 2 ^ (8 * 2 - 1)
  /\ exists bs : list Z,
       _RecordKey._buffer_value (_RecordKey.extend (fresh_key 2) [255; 254])
       = _RecordKey._buffer_value (fresh_key 2) ++ bs
       /\ Z.of_nat (length bs) = 2
       /\ le_int (rev bs) = -2 mod 2 ^ (8 * 2)
       /\ _RecordKey.is_valid (_RecordKey.extend (fresh_key 2) [255; 254])
          = _RecordKey.is_valid (fresh_key 2).
Proof.
  apply (add_signed_twos_complement BigEndian 2 (fresh_key 2)
           (_RecordKey.extend (fresh_key 2) [255; 254]) (-2)).
  reflexivity.
Defined.

(** An integer that does not fit the format of its column is not marked
    as an invalid key: [struct.pack] raises, and the appender with it. *)
Theorem add_signed_out_of_range_raises (host : byteorder) (width : Z)
    (self : _RecordKey.t) (z : Z) :
  0 <= width ->
  Z.of_nat (length (_RecordKey._buffer_value self)) + width
  <= _RecordKey._buffer_size self ->
  z < - 2 ^ (8 * width - 1) \/ 2 ^ (8 * width - 1) <= z ->
  _RecordKey.add_signed host width self (PyInt z) = raise StructError.
Proof.
  intros Hw Hroom Hz. unfold _RecordKey.add_signed.
  rewrite will_buffer_overflow_room by done. simpl.
  unfold pack_signed. rewrite Z2Nat.id by done.
  destruct (Z.leb_spec (- 2 ^ (8 * width - 1)) z); [|done].
  destruct (Z.ltb_spec z (2 ^ (8 * width - 1))); [lia|done].
Qed.

Lemma add_signed_out_of_range_raises_witness :
  _RecordKey.add_int8 LittleEndian (fresh_key 1) (PyInt 128) = raise StructError.
Proof.
  apply (add_signed_out_of_range_raises LittleEndian 1 (fresh_key 1) 128);
    simpl; lia.
Defined.

(** ** The image of an IPv4 address *)

Section Ipv4Facts.
Variable unicode_digit : Z -> option Z.
Hypothesis Hdigit : forall c, 48 <= c <= 57 -> unicode_digit c = Some (c - 48).
Hypothesis Hdot : unicode_digit 46 = None.

Lemma take_digits_digit_chars (max : nat) (ds : list Z) (rest : pystr) :
  Forall (fun d => 0 <= d <= 9) ds ->
  (length ds <= max)%nat ->
  match rest with [] => True | c :: _ => unicode_digit c = None end ->
  _RecordKey.take_digits unicode_digit max (digit_chars ds ++ rest) = (ds, rest).
Proof.
  intros Hds. revert max. induction Hds as [|d ds Hd _ IH]; intros max Hlen Hrest.
  - simpl. destruct max as [|max]; [done|]. simpl.
    destruct rest as [|c rest]; [done|]. by rewrite Hrest.
  - destruct max as [|max]; [simpl in Hlen; lia|]. simpl.
    rewrite Hdigit by lia. rewrite IH by (simpl in Hlen; lia || done).
    f_equal. f_equal. lia.
Qed.

Lemma match_octet_dot_digit_chars (ds : list Z) (rest : pystr) :
  octet_digits ds ->
  _RecordKey.match_octet_dot unicode_digit (digit_chars ds ++ 46 :: rest)
  = Some (_RecordKey.int_of_digits ds, rest).
Proof.
  intros [Hds Hlen]. unfold _RecordKey.match_octet_dot.
  rewrite take_digits_digit_chars by (done || lia).
  destruct ds; [simpl in Hlen; lia|done].
Qed.

Lemma match_octet_end_digit_chars (ds : list Z) :
  octet_digits ds ->
  _RecordKey.match_octet_end unicode_digit (digit_chars ds)
  = Some (_RecordKey.int_of_digits ds).
Proof.
  intros [Hds Hlen]. unfold _RecordKey.match_octet_end.
  rewrite <- (app_nil_r (digit_chars ds)).
  rewrite take_digits_digit_chars by (done || lia).
  destruct ds; [simpl in Hlen; lia|done].
Qed.

Lemma ipv4_match_dotted_quad (da db dc dd : list Z) :
  octet_digits da -> octet_digits db -> octet_digits dc -> octet_digits dd ->
  _RecordKey.ipv4_match unicode_digit (dotted_quad da db dc dd)
  = Some (_RecordKey.int_of_digits da, _RecordKey.int_of_digits db,
          _RecordKey.int_of_digits dc, _RecordKey.int_of_digits dd).
Proof.
  intros Ha Hb Hc Hd. unfold _RecordKey.ipv4_match, dotted_quad. simpl.
  rewrite match_octet_dot_digit_chars by done.
  rewrite match_octet_dot_digit_chars by done.
  rewrite match_octet_dot_digit_chars by done.
  by rewrite match_octet_end_digit_chars by done.
Qed.

End Ipv4Facts.

Lemma int_of_digits_nonneg (ds : list Z) :
  Forall (fun d => 0 <= d <= 9) ds -> 0 <= _RecordKey.int_of_digits ds.
Proof.
  unfold _RecordKey.int_of_digits.
  assert (H : forall acc, 0 <= acc -> Forall (fun d => 0 <= d <= 9) ds ->
                0 <= fold_left (fun acc d => 10 * acc + d) ds acc).
  { induction ds as [|d ds IH]; intros acc Hacc Hds; simpl; [done|].
    apply Forall_cons in Hds as [Hd Hds]. apply IH; [lia|done]. }
  by apply H.
Qed.

Lemma lor_shiftl_small (hi lo k : Z) :
  0 <= k -> 0 <= lo < 2 ^ k -> Z.lor (Z.shiftl hi k) lo = hi * 2 ^ k + lo.
Proof.
  intros Hk Hlo. rewrite <- Z.shiftl_mul_pow2 by done.
  rewrite <- Z.add_lor_land.
  assert (Hland : Z.land (Z.shiftl hi k) lo = 0); [|lia].
  apply Z.bits_inj'. intros n Hn. rewrite Z.land_spec, Z.bits_0.
  destruct (Z.lt_ge_cases n k).
  - by rewrite Z.shiftl_spec_low.
  - rewrite <- (Z.mod_small lo (2 ^ k)) by done.
    rewrite Z.mod_pow2_bits_high by lia. apply andb_false_r.
Qed.

Lemma ipv4_integer_sum (a b c d : Z) :
  0 <= a <= 255 -> 0 <= b <= 255 -> 0 <= c <= 255 -> 0 <= d <= 255 ->
  Z.lor (Z.lor (Z.lor (Z.shiftl a 24) (Z.shiftl b 16)) (Z.shiftl c 8)) d
  = a * 2 ^ 24 + b * 2 ^ 16 + c * 2 ^ 8 + d.
Proof.
  intros Ha Hb Hc Hd.
  rewrite (lor_shiftl_small a (Z.shiftl b 16) 24)
    by (rewrite ?Z.shiftl_mul_pow2; lia).
  replace (a * 2 ^ 24 + Z.shiftl b 16) with (Z.shiftl (a * 2 ^ 8 + b) 16)
    by (rewrite !Z.shiftl_mul_pow2; lia).
  rewrite (lor_shiftl_small (a * 2 ^ 8 + b) (Z.shiftl c 8) 16)
    by (rewrite ?Z.shiftl_mul_pow2; lia).
  replace ((a * 2 ^ 8 + b) * 2 ^ 16 + Z.shiftl c 8)
    with (Z.shiftl (a * 2 ^ 16 + b * 2 ^ 8 + c) 8)
    by (rewrite !Z.shiftl_mul_pow2; lia).
  rewrite (lor_shiftl_small _ d 8) by lia. lia.
Qed.

(** For every address "A.B.C.D" of four octets of one to three decimal
    digits, none above 255, [add_ipv4] appends the four bytes of
    A * 2^24 + B * 2^16 + C * 2^8 + D in the byte order of the host and
    leaves the key valid. *)
Theorem add_ipv4_dotted_quad (host : byteorder) (unicode_digit : Z -> option Z)
    (self : _RecordKey.t) (da db dc dd : list Z) :
  (forall c, 48 <= c <= 57 -> unicode_digit c = Some (c - 48)) ->
  unicode_digit 46 = None ->
  octet_digits da -> octet_digits db -> octet_digits dc -> octet_digits dd ->
  _RecordKey.int_of_digits da <= 255 -> _RecordKey.int_of_digits db <= 255 ->
  _RecordKey.int_of_digits dc <= 255 -> _RecordKey.int_of_digits dd <= 255 ->
  Z.of_nat (length (_RecordKey._buffer_value self)) + 4
  <= _RecordKey._buffer_size self ->
  _RecordKey.add_ipv4 host unicode_digit self (PyStr (dotted_quad da db dc dd))
  = ret (_RecordKey.extend self
           (native_bytes host 4
              (_RecordKey.int_of_digits da * 2 ^ 24
               + _RecordKey.int_of_digits db * 2 ^ 16
               + _RecordKey.int_of_digits dc * 2 ^ 8
               + _RecordKey.int_of_digits dd))).
Proof.
  intros Hdigit Hdot Ha Hb Hc Hd Ha255 Hb255 Hc255 Hd255 Hroom.
  pose proof (int_of_digits_nonneg da (proj1 Ha)).
  pose proof (int_of_digits_nonneg db (proj1 Hb)).
  pose proof (int_of_digits_nonneg dc (proj1 Hc)).
  pose proof (int_of_digits_nonneg dd (proj1 Hd)).
  unfold _RecordKey.add_ipv4.
  rewrite will_buffer_overflow_room by (unfold _ColumnTypeSize.IPV4; lia).
  cbn [bind ret].
  rewrite ipv4_match_dotted_quad by done.
  destruct (Z.gtb_spec (_RecordKey.int_of_digits da) 255); [lia|].
  destruct (Z.gtb_spec (_RecordKey.int_of_digits db) 255); [lia|].
  destruct (Z.gtb_spec (_RecordKey.int_of_digits dc) 255); [lia|].
  destruct (Z.gtb_spec (_RecordKey.int_of_digits dd) 255); [lia|].
  cbn [orb]. rewrite ipv4_integer_sum by lia.
  unfold pack_unsigned.
  set (v := _ + _ + _ + _).
  assert (0 <= v < 2 ^ (8 * Z.of_nat 4)) as [Hv0 Hv1] by (subst v; simpl; lia).
  destruct (Z.leb_spec 0 v); [|lia].
  destruct (Z.ltb_spec v (2 ^ (8 * Z.of_nat 4))); [|lia].
  done.
Qed.

Lemma add_ipv4_dotted_quad_witness :
  _RecordKey.add_ipv4 BigEndian ascii_digit (fresh_key 4)
    (PyStr (dotted_quad [1; 9; 2] [1; 6; 8] [0] [4; 2]))
  = ret (_RecordKey.extend (fresh_key 4)
           (native_bytes BigEndian 4
              (_RecordKey.int_of_digits [1; 9; 2] * 2 ^ 24
               + _RecordKey.int_of_digits [1; 6; 8] * 2 ^ 16
               + _RecordKey.int_of_digits [0] * 2 ^ 8
               + _RecordKey.int_of_digits [4; 2]))).
Proof.
  apply (add_ipv4_dotted_quad BigEndian ascii_digit (fresh_key 4)
           [1; 9; 2] [1; 6; 8] [0] [4; 2]).
  - intros c Hc. unfold ascii_digit.
    destruct (Z.leb_spec 48 c); [|lia].
    destruct (Z.leb_spec c 57); [|lia]. done.
  - done.
  - split; [repeat constructor; lia|simpl; lia].
  - split; [repeat constructor; lia|simpl; lia].
  - split; [repeat constructor; lia|simpl; lia].
  - split; [repeat constructor; lia|simpl; lia].
  - vm_compute; discriminate.
  - vm_compute; discriminate.
  - vm_compute; discriminate.
  - vm_compute; discriminate.
  - simpl; lia.
Defined.

(** An address with an octet above 255 is not rejected with an
    exception: [add_ipv4] appends four zero bytes and marks the key
    invalid. *)
Theorem add_ipv4_octet_above_255 (host : byteorder)
    (unicode_digit : Z -> option Z) (self : _RecordKey.t)
    (da db dc dd : list Z) :
  (forall c, 48 <= c <= 57 -> unicode_digit c = Some (c - 48)) ->
  unicode_digit 46 = None ->
  octet_digits da -> octet_digits db -> octet_digits dc -> octet_digits dd ->
  255 < _RecordKey.int_of_digits da \/ 255 < _RecordKey.int_of_digits db
  \/ 255 < _RecordKey.int_of_digits dc \/ 255 < _RecordKey.int_of_digits dd ->
  Z.of_nat (length (_RecordKey._buffer_value self)) + 4
  <= _RecordKey._buffer_size self ->
  _RecordKey.add_ipv4 host unicode_digit self (PyStr (dotted_quad da db dc dd))
  = ret (_RecordKey.invalidate (_RecordKey.extend self [0; 0; 0; 0])).
Proof.
  intros Hdigit Hdot Ha Hb Hc Hd Habove Hroom.
  unfold _RecordKey.add_ipv4.
  rewrite will_buffer_overflow_room by (unfold _ColumnTypeSize.IPV4; lia).
  cbn [bind ret].
  rewrite ipv4_match_dotted_quad by done.
  assert (Hor : (_RecordKey.int_of_digits da >? 255)
                || (_RecordKey.int_of_digits db >? 255)
                || (_RecordKey.int_of_digits dc >? 255)
                || (_RecordKey.int_of_digits dd >? 255) = true).
  { destruct (Z.gtb_spec (_RecordKey.int_of_digits da) 255); [done|].
    destruct (Z.gtb_spec (_RecordKey.int_of_digits db) 255); [done|].
    destruct (Z.gtb_spec (_RecordKey.int_of_digits dc) 255); [done|].
    destruct (Z.gtb_spec (_RecordKey.int_of_digits dd) 255); [done|lia]. }
  rewrite Hor, pack_unsigned_zero. done.
Qed.

Lemma add_ipv4_octet_above_255_witness :
  _RecordKey.add_ipv4 LittleEndian ascii_digit (fresh_key 4)
    (PyStr (dotted_quad [1; 0] [0] [0] [2; 5; 6]))
  = ret (_RecordKey.invalidate (_RecordKey.extend (fresh_key 4) [0; 0; 0; 0])).
Proof.
  apply (add_ipv4_octet_above_255 LittleEndian ascii_digit (fresh_key 4)
           [1; 0] [0] [0] [2; 5; 6]).
  - intros c Hc. unfold ascii_digit.
    destruct (Z.leb_spec 48 c); [|lia].
    destruct (Z.leb_spec c 57); [|lia]. done.
  - done.
  - split; [repeat constructor; lia|simpl; lia].
  - split; [repeat constructor; lia|simpl; lia].
  - split; [repeat constructor; lia|simpl; lia].
  - split; [repeat constructor; lia|simpl; lia].
  - right. right. right. vm_compute. reflexivity.
  - simpl; lia.
Defined.

(** ** Key builders *)

Lemma size_of_pos (ty : string) (size : Z) :
  _ColumnTypeSize.size_of ty = Some size -> 1 <= size.
Proof.
  unfold _ColumnTypeSize.size_of, _ColumnTypeSize.column_type_sizes. simpl.
  repeat (destruct (String.eqb ty _); [intros [= <-]; lia|]).
  discriminate.
Qed.

Lemma key_types_size_ge (tys : list string) :
  Forall (fun ty => is_Some (_ColumnTypeSize.size_of ty)) tys ->
  Z.of_nat (length tys) <= key_types_size tys.
Proof.
  induction 1 as [|ty tys [size Hsize] _ IH]; simpl; [done|].
  rewrite Hsize. simpl. apply size_of_pos in Hsize. lia.
Qed.

Lemma key_types_size_app (tys tys' : list string) :
  key_types_size (tys ++ tys') = key_types_size tys + key_types_size tys'.
Proof. induction tys as [|ty tys IH]; simpl; [done|]. rewrite IH. lia. Qed.

Lemma key_column_spec (record_type : GPUdbRecordType) (i : nat) (size : Z)
    (ty : string) :
  _RecordKeyBuilder.key_column record_type i = ret (size, ty) ->
  _ColumnTypeSize.size_of ty = Some size
  /\ (i < length (columns record_type))%nat.
Proof.
  unfold _RecordKeyBuilder.key_column.
  destruct (columns record_type !! i) as [col|] eqn:Hcol; [|discriminate].
  apply lookup_lt_Some in Hcol.
  destruct (column_properties record_type !! name col); [|discriminate].
  intros H. apply bind_ret_inv in H as (ty' & _ & H).
  destruct (_ColumnTypeSize.size_of ty') eqn:Hsize; [|discriminate].
  injection H as <- <-. done.
Qed.

Lemma key_columns_spec (record_type : GPUdbRecordType) (indices : list nat) :
  forall (size0 : Z) (tys0 : list string) (size : Z) (tys : list string),
    _RecordKeyBuilder.key_columns record_type indices size0 tys0
    = ret (size, tys) ->
    exists tys', tys = tys0 ++ tys'
      /\ length tys' = length indices
      /\ size = size0 + key_types_size tys'
      /\ Forall (fun ty => is_Some (_ColumnTypeSize.size_of ty)) tys'
      /\ Forall (fun i => (i < length (columns record_type))%nat) indices.
Proof.
  induction indices as [|i indices IH]; intros size0 tys0 size tys H; simpl in H.
  - injection H as <- <-. exists []. rewrite app_nil_r. simpl.
    repeat split; (done || lia).
  - apply bind_ret_inv in H as ([sz ty] & Hcol & H).
    apply key_column_spec in Hcol as [Hsize Hi].
    apply IH in H as (tys' & -> & Hlen & -> & Hsizes & His).
    exists (ty :: tys'). rewrite <- app_assoc. simpl. rewrite Hsize. simpl.
    repeat split; [by rewrite Hlen|lia|by constructor|by constructor].
Qed.

Lemma scan_columns_inv (props : gmap string (list string)) (pk : bool)
    (cols : list GPUdbRecordColumn) :
  forall (st : _RecordKeyBuilder.scan) (i : nat),
    length (_RecordKeyBuilder.s_key_columns_names st)
    = length (_RecordKeyBuilder.s_routing_key_indices st) ->
    Forall (fun j => (j < i)%nat) (_RecordKeyBuilder.s_routing_key_indices st) ->
    Forall (fun k => is_Some (_RecordKeyBuilder._is_nullable k))
           (_RecordKeyBuilder.s_key_schema_fields st) ->
    let st' := _RecordKeyBuilder.scan_columns props pk st i cols in
    length (_RecordKeyBuilder.s_key_columns_names st')
    = length (_RecordKeyBuilder.s_routing_key_indices st')
    /\ Forall (fun j => (j < i + length cols)%nat)
              (_RecordKeyBuilder.s_routing_key_indices st')
    /\ Forall (fun k => is_Some (_RecordKeyBuilder._is_nullable k))
              (_RecordKeyBuilder.s_key_schema_fields st').
Proof.
  induction cols as [|col cols IH]; intros st i Hlen Hlt Hnull; simpl.
  - split; [done|]. split; [|done].
    eapply Forall_impl; [exact Hlt|]. simpl. lia.
  - replace (i + S (length cols))%nat with (S i + length cols)%nat by lia.
    apply IH; unfold _RecordKeyBuilder.scan_column;
      destruct (if pk then _ else _); simpl;
      rewrite ?length_app, ?Forall_app; simpl; try done.
    + lia.
    + split; [|by repeat constructor].
      eapply Forall_impl; [exact Hlt|]. simpl. lia.
    + eapply Forall_impl; [exact Hlt|]. simpl. lia.
    + split; [done|]. by repeat constructor.
Qed.

Lemma analyze_inv (record_type : GPUdbRecordType) (pk : bool)
    (st : _RecordKeyBuilder.scan) :
  _RecordKeyBuilder.analyze record_type pk = ret st ->
  (length (_RecordKeyBuilder.s_key_columns_names st)
   = length (_RecordKeyBuilder.s_routing_key_indices st)
   /\ Forall (fun j => (j < length (columns record_type))%nat)
             (_RecordKeyBuilder.s_routing_key_indices st))
  \/ (_RecordKeyBuilder.s_routing_key_indices st <> []
      /\ ~ Forall (fun k => is_Some (_RecordKeyBuilder._is_nullable k))
                  (_RecordKeyBuilder.s_key_schema_fields st)).
Proof.
  unfold _RecordKeyBuilder.analyze, _RecordKeyBuilder.track_type.
  pose proof (scan_columns_inv (column_properties record_type) pk
                (columns record_type) _RecordKeyBuilder.scan_init 0)
    as Hscan.
  simpl in Hscan. specialize (Hscan eq_refl (Forall_nil_2 _) (Forall_nil_2 _)).
  destruct Hscan as (Hlen & Hlt & Hnull).
  set (st0 := _RecordKeyBuilder.scan_columns _ _ _ _ _) in *.
  destruct (negb pk && _); [|by intros [= <-]; left].
  destruct (str_index _ _) as [track_id_index|]; [|discriminate].
  destruct (_RecordKeyBuilder.s_routing_key_indices st0) as [|i [|i' l]] eqn:Hidx.
  - destruct (_RecordKeyBuilder.s_column_name st0); [|discriminate].
    destruct (_RecordKeyBuilder.s_column_type st0); [|discriminate].
    intros [= <-]. right. simpl. split; [done|].
    rewrite Forall_app. intros [_ H].
    apply Forall_cons in H as [[? H] _]. discriminate.
  - destruct (i =? track_id_index)%nat; [|discriminate].
    intros [= <-]. left. by rewrite Hidx.
  - discriminate.
Qed.

Lemma key_field_descriptions_ret (keys : list _RecordKeyBuilder.key_field)
    (ds : list string) :
  _RecordKeyBuilder.key_field_descriptions keys = ret ds ->
  Forall (fun k => is_Some (_RecordKeyBuilder._is_nullable k)) keys.
Proof.
  revert ds. induction keys as [|key keys IH]; intros ds H; [done|].
  simpl in H. apply bind_ret_inv in H as (d & Hd & H).
  apply bind_ret_inv in H as (ds' & Hds & _).
  constructor; [|by eapply IH].
  unfold _RecordKeyBuilder.key_field_description in Hd.
  by destruct (_RecordKeyBuilder._is_nullable key).
Qed.

Lemma init_inv (record_type : GPUdbRecordType) (pk : bool)
    (b : _RecordKeyBuilder.t) :
  _RecordKeyBuilder.__init__ record_type pk = ret b ->
  _RecordKeyBuilder._record_column_names b = map name (columns record_type)
  /\ length (_RecordKeyBuilder.key_columns_names b)
     = length (_RecordKeyBuilder.routing_key_indices b)
  /\ length (_RecordKeyBuilder._key_types b)
     = length (_RecordKeyBuilder.routing_key_indices b)
  /\ Forall (fun i => (i < length (columns record_type))%nat)
            (_RecordKeyBuilder.routing_key_indices b)
  /\ Forall (fun ty => is_Some (_ColumnTypeSize.size_of ty))
            (_RecordKeyBuilder._key_types b)
  /\ _RecordKeyBuilder._key_buffer_size b
     = key_types_size (_RecordKeyBuilder._key_types b).
Proof.
  unfold _RecordKeyBuilder.__init__. intros H.
  apply bind_ret_inv in H as (st & Hst & H).
  apply analyze_inv in Hst.
  destruct (_RecordKeyBuilder.s_routing_key_indices st) as [|i indices] eqn:Hidx.
  - injection H as <-. simpl.
    destruct Hst as [[Hlen _]|[? _]]; [|done].
    simpl in Hlen. rewrite Hlen. repeat split; (done || constructor).
  - apply bind_ret_inv in H as ([size tys] & Hsz & H).
    apply bind_ret_inv in H as (str & Hstr & [= <-]). simpl.
    unfold _RecordKeyBuilder.make_key_schema_str in Hstr.
    apply bind_ret_inv in Hstr as (ds & Hds & _).
    apply key_field_descriptions_ret in Hds.
    destruct Hst as [[Hlen Hlt]|[_ Hnot]]; [|done].
    apply key_columns_spec in Hsz as (tys' & -> & Hlen' & -> & Hsizes & _).
    simpl in *. repeat split; (done || lia).
Qed.

Section KeyBuilderFacts.
Variable host : byteorder.
Variable hash64 : list Z -> Z -> Z * Z.
Variable unicode_digit : Z -> option Z.
Variable add_other : string -> _RecordKey.t -> pyval -> exc _RecordKey.t.

Local Abbreviation _column_type_add_functions :=
  (_RecordKeyBuilder._column_type_add_functions host hash64 unicode_digit add_other).
Local Abbreviation add_columns :=
  (_RecordKeyBuilder.add_columns host hash64 unicode_digit add_other).
Local Abbreviation add_key_values :=
  (_RecordKeyBuilder.add_key_values host hash64 unicode_digit add_other).
Local Abbreviation build :=
  (_RecordKeyBuilder.build host hash64 unicode_digit add_other).
Local Abbreviation build_key_with_shard_values_only :=
  (_RecordKeyBuilder.build_key_with_shard_values_only host hash64 unicode_digit
     add_other).

Lemma add_columns_ext (values values' : list pyval) (indices : list nat) :
  Forall (fun i => values !! i = values' !! i) indices ->
  forall (tys : list string) (k : _RecordKey.t),
    add_columns values indices tys k = add_columns values' indices tys k.
Proof.
  induction 1 as [|i indices Hi _ IH]; intros tys k; simpl; [done|].
  rewrite Hi. destruct (values' !! i); [|done].
  destruct tys as [|ty tys]; [done|].
  destruct (_column_type_add_functions ty) as [add|]; [|done].
  destruct (add k p) as [e|k']; simpl; [done|]. apply IH.
Qed.

Lemma add_columns_length (values : list pyval) (indices : list nat) :
  Forall plain_value values ->
  forall (tys : list string) (k0 k : _RecordKey.t),
    length tys = length indices ->
    Forall (fun ty => str_in ty embedded_types = true) tys ->
    add_columns values indices tys k0 = ret k ->
    Z.of_nat (length (_RecordKey._buffer_value k))
    = Z.of_nat (length (_RecordKey._buffer_value k0)) + key_types_size tys
    /\ _RecordKey._buffer_size k = _RecordKey._buffer_size k0.
Proof.
  intros Hplain.
  induction indices as [|i indices IH]; intros tys k0 k Hlen Htys H.
  - destruct tys; [|done]. injection H as <-. simpl. lia.
  - destruct tys as [|ty tys]; [done|]. simpl in H.
    destruct (values !! i) as [v|] eqn:Hv; [|discriminate].
    destruct (_column_type_add_functions ty) as [add|] eqn:Hadd; [|discriminate].
    apply bind_ret_inv in H as (k1 & Hk1 & H).
    apply Forall_cons in Htys as [Hty Htys].
    apply IH in H as [Hk Hsize]; [|by injection Hlen|done].
    assert (Hpv : plain_value v).
    { rewrite Forall_forall in Hplain. apply Hplain.
      by eapply list_elem_of_lookup_2. }
    assert (Happ : exists size, _ColumnTypeSize.size_of ty = Some size
                                /\ appended k0 k1 size).
    { clear - Hty Hadd Hpv Hk1.
      unfold embedded_types, str_in in Hty. simpl in Hty.
      repeat (apply orb_true_iff in Hty as [Hty|Hty];
              [apply String.eqb_eq in Hty; subst ty;
               unfold _RecordKeyBuilder._column_type_add_functions in Hadd;
               simpl in Hadd; injection Hadd as <-;
               eexists; split; [reflexivity|];
               first [ by eapply add_charN_appended
                     | by eapply add_signed_appended
                     | by eapply add_string_appended
                     | by eapply add_ipv4_appended ]|]).
      discriminate. }
    destruct Happ as (size & Hsize1 & Happ1 & _ & Happ3).
    simpl. rewrite Hsize1. simpl. split; [lia|congruence].
Qed.

Lemma add_key_values_add_columns (values : list pyval) (indices : list nat) :
  forall (pv vs : list pyval) (pt tys : list string) (k : _RecordKey.t),
    Forall2 (fun i v => values !! i = Some v) indices vs ->
    length pv = length pt ->
    add_key_values (pv ++ vs) (pt ++ tys) (length indices) (length pv) k
    = add_columns values indices tys k.
Proof.
  induction indices as [|i indices IH]; intros pv vs pt tys k Hvs Hlen; [done|].
  apply Forall2_cons_inv_l in Hvs as (v & vs' & Hv & Hvs & ->).
  simpl. rewrite Hv, list_lookup_middle by done.
  destruct tys as [|ty tys].
  - rewrite app_nil_r, lookup_ge_None_2 by lia. done.
  - rewrite list_lookup_middle by done.
    destruct (_column_type_add_functions ty) as [add|]; [|done].
    destruct (add k v) as [e|k']; simpl; [done|].
    rewrite (cons_middle v pv vs'), (cons_middle ty pt tys), !app_assoc.
    replace (S (length pv)) with (length (pv ++ [v]))
      by (rewrite length_app; simpl; lia).
    apply IH; [done|]. rewrite !length_app. simpl. lia.
Qed.

Lemma key_values_lookup (values : list pyval) (indices : list nat) :
  Forall (fun i => (i < length values)%nat) indices ->
  Forall2 (fun i v => values !! i = Some v) indices
          (omap (fun i => values !! i) indices).
Proof.
  induction 1 as [|i indices Hi _ IH]; simpl; [constructor|].
  apply lookup_lt_is_Some_2 in Hi as [v Hv]. rewrite Hv. by constructor.
Qed.

(** A key builder that the constructor returned has one key type for
    each key column, each with a size, its buffer size is the sum of
    these sizes, and it has a key exactly when the buffer size is not
    zero: [build] returns [None] for the tables without a key and for no
    other. *)
Theorem builder_has_key_iff_buffer (record_type : GPUdbRecordType) (pk : bool)
    (b : _RecordKeyBuilder.t) (rec : record) :
  _RecordKeyBuilder.__init__ record_type pk = ret b ->
  length (_RecordKeyBuilder._key_types b)
  = length (_RecordKeyBuilder.key_columns_names b)
  /\ _RecordKeyBuilder._key_buffer_size b
     = key_types_size (_RecordKeyBuilder._key_types b)
  /\ Z.of_nat (length (_RecordKeyBuilder.key_columns_names b))
     <= _RecordKeyBuilder._key_buffer_size b
  /\ (_RecordKeyBuilder.has_key b = false <-> build b rec = ret None).
Proof.
  intros Hinit.
  apply init_inv in Hinit as (_ & Hnames & Htys & _ & Hsizes & Hsize).
  apply key_types_size_ge in Hsizes.
  split; [congruence|]. split; [done|]. split; [lia|].
  unfold _RecordKeyBuilder.has_key, _RecordKeyBuilder.build.
  destruct (Z.eqb_spec (_RecordKeyBuilder._key_buffer_size b) 0) as [H0|H0].
  - split; [done|]. intros _. apply Nat.ltb_ge. lia.
  - split.
    + intros Hlen%Nat.ltb_ge.
      assert (_RecordKeyBuilder._key_types b = []) as Hnil
        by (apply length_zero_iff_nil; lia).
      rewrite Hnil in Hsize. simpl in Hsize. lia.
    + destruct (negb _); [discriminate|].
      destruct (_RecordKey.__init__ _); [discriminate|]. simpl.
      destruct (add_columns _ _ _ _); discriminate.
Qed.

(** The key of a record depends on the values of its key columns only:
    two records with the same column names that agree on the key columns
    get the same key, whatever their other values are. *)
Theorem build_reads_key_columns_only (b : _RecordKeyBuilder.t)
    (rec rec' : record) :
  map fst rec = map fst rec' ->
  Forall (fun i => map snd rec !! i = map snd rec' !! i)
         (_RecordKeyBuilder.routing_key_indices b) ->
  build b rec = build b rec'.
Proof.
  intros Hnames Hvalues. unfold _RecordKeyBuilder.build.
  rewrite Hnames.
  destruct (_ =? 0); [done|]. destruct (negb _); [done|].
  destruct (_RecordKey.__init__ _) as [e|k0]; [done|]. simpl.
  by rewrite (add_columns_ext _ _ _ Hvalues).
Qed.

(** When [build] returns a key for a record of plain values, the image
    of the key is full: it has exactly as many bytes as the buffer size
    of the builder. *)
Theorem build_fills_buffer (record_type : GPUdbRecordType) (pk : bool)
    (b : _RecordKeyBuilder.t) (rec : record) (k : _RecordKey.t) :
  _RecordKeyBuilder.__init__ record_type pk = ret b ->
  Forall (fun ty => str_in ty embedded_types = true)
         (_RecordKeyBuilder._key_types b) ->
  Forall plain_value (map snd rec) ->
  build b rec = ret (Some k) ->
  Z.of_nat (length (_RecordKey._buffer_value k))
  = _RecordKeyBuilder._key_buffer_size b
  /\ _RecordKey._buffer_size k = _RecordKeyBuilder._key_buffer_size b.
Proof.
  intros Hinit Htys Hplain H.
  apply init_inv in Hinit as (_ & _ & Hlen & _ & _ & Hsize).
  unfold _RecordKeyBuilder.build in H.
  destruct (_ =? 0); [discriminate|].
  destruct (negb _); [discriminate|].
  apply bind_ret_inv in H as (k0 & Hk0 & H).
  apply bind_ret_inv in H as (k1 & Hk1 & [= <-]).
  apply add_columns_length in Hk1 as [Hk1 Hsize1]; [|done..].
  unfold _RecordKey.__init__ in Hk0.
  destruct (_ <? 1); [discriminate|]. injection Hk0 as <-.
  simpl in *. split; [lia|done].
Qed.

Lemma build_key_of_key_values (record_type : GPUdbRecordType) (pk : bool)
    (b : _RecordKeyBuilder.t) (rec : record) :
  _RecordKeyBuilder.__init__ record_type pk = ret b ->
  map fst rec = _RecordKeyBuilder._record_column_names b ->
  build_key_with_shard_values_only b
    (_RecordKeyBuilder.KeyList (key_values_of b rec))
  = build b rec.
Proof.
  intros Hinit Hnames.
  apply init_inv in Hinit as (Hcols & Hlen & _ & Hlt & _ & _).
  assert (Hvalues : Forall (fun i => (i < length (map snd rec))%nat)
                           (_RecordKeyBuilder.routing_key_indices b)).
  { rewrite length_map, <- (length_map fst), Hnames, Hcols, length_map. done. }
  apply key_values_lookup in Hvalues. fold (key_values_of b rec) in Hvalues.
  unfold _RecordKeyBuilder.build_key_with_shard_values_only,
    _RecordKeyBuilder.build.
  destruct (_ =? 0); [done|].
  rewrite Hnames, bool_decide_eq_true_2 by done. simpl.
  rewrite <- (Forall2_length _ _ _ Hvalues), Hlen, Nat.eqb_refl. simpl.
  destruct (_RecordKey.__init__ _) as [e|k0]; [done|]. simpl.
  by rewrite <- (add_key_values_add_columns (map snd rec) _ [] _ [] _ k0 Hvalues).
Qed.

Lemma build_key_of_dict (b : _RecordKeyBuilder.t) (d : gmap string pyval)
    (vs : list pyval) :
  size d = length (_RecordKeyBuilder.key_columns_names b) ->
  Forall2 (fun n v => d !! n = Some v)
          (_RecordKeyBuilder.key_columns_names b) vs ->
  build_key_with_shard_values_only b (_RecordKeyBuilder.KeyDict d)
  = build_key_with_shard_values_only b (_RecordKeyBuilder.KeyList vs).
Proof.
  intros Hsize Hvs.
  unfold _RecordKeyBuilder.build_key_with_shard_values_only. simpl.
  rewrite Hsize, <- (Forall2_length _ _ _ Hvs).
  assert (Hlist : _RecordKeyBuilder.values_of_names d
                    (_RecordKeyBuilder.key_columns_names b) = ret vs).
  { clear Hsize. induction Hvs as [|n v names vs Hn _ IH]; simpl; [done|].
    by rewrite Hn, IH. }
  by rewrite Hlist.
Qed.

(** The retriever builds from the key values of a record the key that
    the ingestor builds from the whole record: for a record of the
    columns of the table, [build_key_with_shard_values_only] on the
    values of its key columns, given as a list in the order of the key
    or as a dict by column name, is [build] on the record. *)
Theorem build_key_with_shard_values_only_is_build
    (record_type : GPUdbRecordType) (pk : bool) (b : _RecordKeyBuilder.t)
    (rec : record) :
  _RecordKeyBuilder.__init__ record_type pk = ret b ->
  map fst rec = _RecordKeyBuilder._record_column_names b ->
  build_key_with_shard_values_only b
    (_RecordKeyBuilder.KeyList (key_values_of b rec))
  = build b rec
  /\ forall d : gmap string pyval,
       size d = length (_RecordKeyBuilder.key_columns_names b) ->
       Forall2 (fun n v => d !! n = Some v)
               (_RecordKeyBuilder.key_columns_names b) (key_values_of b rec) ->
       build_key_with_shard_values_only b (_RecordKeyBuilder.KeyDict d)
       = build b rec.
Proof.
  intros Hinit Hnames.
  pose proof (build_key_of_key_values _ _ _ _ Hinit Hnames) as Hlist.
  split; [done|]. intros d Hsize Hd.
  by rewrite (build_key_of_dict b d _ Hsize Hd).
Qed.

End KeyBuilderFacts.

Lemma builder_has_key_iff_buffer_witness :
  length (_RecordKeyBuilder._key_types two_key_builder)
  = length (_RecordKeyBuilder.key_columns_names two_key_builder)
  /\ _RecordKeyBuilder._key_buffer_size two_key_builder
     = key_types_size (_RecordKeyBuilder._key_types two_key_builder)
  /\ Z.of_nat (length (_RecordKeyBuilder.key_columns_names two_key_builder))
     <= _RecordKeyBuilder._key_buffer_size two_key_builder
  /\ (_RecordKeyBuilder.has_key two_key_builder = false
      <-> _RecordKeyBuilder.build LittleEndian no_hash64 ascii_digit
            no_add_other two_key_builder (two_key_record 7 "n" "ab")
          = ret None).
Proof.
  apply (builder_has_key_iff_buffer LittleEndian no_hash64 ascii_digit
           no_add_other two_key_record_type false two_key_builder
           (two_key_record 7 "n" "ab")).
  vm_compute. reflexivity.
Defined.

Lemma build_reads_key_columns_only_witness :
  _RecordKeyBuilder.build LittleEndian no_hash64 ascii_digit no_add_other
    two_key_builder (two_key_record 7 "n" "ab")
  = _RecordKeyBuilder.build LittleEndian no_hash64 ascii_digit no_add_other
      two_key_builder (two_key_record 7 "another" "ab").
Proof.
  apply (build_reads_key_columns_only LittleEndian no_hash64 ascii_digit
           no_add_other two_key_builder (two_key_record 7 "n" "ab")
           (two_key_record 7 "another" "ab")).
  - reflexivity.
  - vm_compute. repeat constructor.
Defined.

Lemma build_fills_buffer_witness :
  Z.of_nat (length (_RecordKey._buffer_value
              (_RecordKey.compute_hashes no_hash64
                 (_RecordKey.extend (fresh_key 8) [7; 0; 0; 0; 0; 0; 98; 97]))))
  = _RecordKeyBuilder._key_buffer_size two_key_builder
  /\ _RecordKey._buffer_size
       (_RecordKey.compute_hashes no_hash64
          (_RecordKey.extend (fresh_key 8) [7; 0; 0; 0; 0; 0; 98; 97]))
     = _RecordKeyBuilder._key_buffer_size two_key_builder.
Proof.
  apply (build_fills_buffer LittleEndian no_hash64 ascii_digit no_add_other
           two_key_record_type false two_key_builder
           (two_key_record 7 "n" "ab")).
  - vm_compute. reflexivity.
  - vm_compute. repeat constructor.
  - repeat constructor; simpl; lia.
  - vm_compute. reflexivity.
Defined.

Lemma build_key_with_shard_values_only_is_build_witness :
  _RecordKeyBuilder.build_key_with_shard_values_only LittleEndian no_hash64
    ascii_digit no_add_other two_key_builder
    (_RecordKeyBuilder.KeyList
       (key_values_of two_key_builder (two_key_record 7 "n" "ab")))
  = _RecordKeyBuilder.build LittleEndian no_hash64 ascii_digit no_add_other
      two_key_builder (two_key_record 7 "n" "ab")
  /\ forall d : gmap string pyval,
       size d = length (_RecordKeyBuilder.key_columns_names two_key_builder) ->
       Forall2 (fun n v => d !! n = Some v)
               (_RecordKeyBuilder.key_columns_names two_key_builder)
               (key_values_of two_key_builder (two_key_record 7 "n" "ab")) ->
       _RecordKeyBuilder.build_key_with_shard_values_only LittleEndian
         no_hash64 ascii_digit no_add_other two_key_builder
         (_RecordKeyBuilder.KeyDict d)
       = _RecordKeyBuilder.build LittleEndian no_hash64 ascii_digit
           no_add_other two_key_builder (two_key_record 7 "n" "ab").
Proof.
  apply (build_key_with_shard_values_only_is_build LittleEndian no_hash64
           ascii_digit no_add_other two_key_record_type false two_key_builder
           (two_key_record 7 "n" "ab")).
  - vm_compute. reflexivity.
  - vm_compute. reflexivity.
Defined.

(** ** A queue whose keys do not enter the index *)

Lemma insert_unkeyed {R} (q : _WorkerQueue.t R) (r : R)
    (key : option _RecordKey.t) :
  unkeyed (_WorkerQueue.has_primary_key q) (r, key) ->
  _WorkerQueue.insert q r key
  = ret (_WorkerQueue.flush_if_full (_WorkerQueue.append q r)).
Proof.
  unfold unkeyed, _WorkerQueue.insert.
  intros [Hpk|(k & Hk & Hvalid)]; simpl in *.
  - by rewrite Hpk.
  - subst key. destruct (_WorkerQueue.has_primary_key q); simpl; [|done].
    by rewrite Hvalid.
Qed.

Lemma insert_all_fifo {R} (calls : list (R * option _RecordKey.t)) :
  forall q : _WorkerQueue.t R,
    Z.of_nat (length (_WorkerQueue.record_queue q)) < _WorkerQueue.capacity q ->
    Forall (unkeyed (_WorkerQueue.has_primary_key q)) calls ->
    exists (sent : list R) (q' : _WorkerQueue.t R) (n : Z),
      insert_all q calls = ret (sent, q')
      /\ sent ++ _WorkerQueue.record_queue q'
         = _WorkerQueue.record_queue q ++ map fst calls
      /\ Z.of_nat (length (_WorkerQueue.record_queue q'))
         < _WorkerQueue.capacity q
      /\ Z.of_nat (length sent) = n * _WorkerQueue.capacity q.
Proof.
  induction calls as [|[r key] calls IH]; intros q Hlt Hcalls.
  - exists [], q, 0. simpl. rewrite app_nil_r. repeat split; (done || lia).
  - apply Forall_cons in Hcalls as [Hcall Hcalls].
    simpl. rewrite insert_unkeyed by done. simpl.
    destruct (Z.eq_dec
                (Z.of_nat (length (_WorkerQueue.record_queue
                                     (_WorkerQueue.append q r))))
                (_WorkerQueue.capacity (_WorkerQueue.append q r)))
      as [Hfull|Hroom].
    + rewrite flush_if_full_full by done. simpl.
      set (q1 := _WorkerQueue.set_queue _ _ _).
      destruct (IH q1) as (sent & q' & n & Hall & Hsent & Hlt' & Hn);
        [simpl; lia|done|].
      rewrite Hall. simpl in *.
      exists ((_WorkerQueue.record_queue q ++ [r]) ++ sent), q', (n + 1).
      split; [done|]. split; [by rewrite <- !app_assoc, Hsent|].
      split; [done|]. rewrite length_app. lia.
    + rewrite flush_if_full_not_full by done. simpl.
      destruct (IH (_WorkerQueue.append q r))
        as (sent & q' & n & Hall & Hsent & Hlt' & Hn).
      { simpl in *. rewrite length_app in *. simpl in *. lia. }
      { done. }
      rewrite Hall. simpl in *.
      exists sent, q', n.
      split; [done|]. split; [by rewrite Hsent, <- app_assoc|]. done.
Qed.

(** A queue made by the constructor to which no key is indexed, because
    the table has no primary key or because the keys are not valid, is
    first in, first out and loses nothing: every sequence of [insert]
    calls returns normally, the batches it returns, one after the other
    and followed by the records it leaves in the queue, are the records
    in the order they were inserted, and each batch has as many records
    as the capacity. *)
Theorem unkeyed_queue_is_fifo {R : Type} (url : string) (capacity : Z)
    (has_primary_key update_on_existing_pk : bool) (q0 : _WorkerQueue.t R)
    (calls : list (R * option _RecordKey.t)) :
  _WorkerQueue.__init__ url capacity has_primary_key update_on_existing_pk
  = ret q0 ->
  Forall (unkeyed has_primary_key) calls ->
  exists (sent : list R) (q : _WorkerQueue.t R) (n : Z),
    insert_all q0 calls = ret (sent, q)
    /\ sent ++ _WorkerQueue.record_queue q = map fst calls
    /\ Z.of_nat (length (_WorkerQueue.record_queue q)) < capacity
    /\ Z.of_nat (length sent) = n * capacity.
Proof.
  unfold _WorkerQueue.__init__.
  destruct (Z.leb_spec capacity 0); [discriminate|].
  intros [= <-] Hcalls.
  by apply (insert_all_fifo calls); [simpl; lia|].
Qed.

Lemma unkeyed_queue_is_fifo_witness :
  exists (sent : list Z) (q : _WorkerQueue.t Z) (n : Z),
    insert_all
      {| _WorkerQueue.url := "http://w1:9191"; _WorkerQueue.capacity := 2;
         _WorkerQueue.has_primary_key := true;
         _WorkerQueue.update_on_existing_pk := true;
         _WorkerQueue.record_queue := [];
         _WorkerQueue.primary_key_to_queue_index_map := Some ∅ |}
      [(1, Some invalid_key); (2, Some invalid_key); (3, Some invalid_key)]
    = ret (sent, q)
    /\ sent ++ _WorkerQueue.record_queue q
       = map fst [(1, Some invalid_key); (2, Some invalid_key);
                  (3, Some invalid_key)]
    /\ Z.of_nat (length (_WorkerQueue.record_queue q)) < 2
    /\ Z.of_nat (length sent) = n * 2.
Proof.
  apply (unkeyed_queue_is_fifo "http://w1:9191" 2 true true).
  - reflexivity.
  - repeat (apply Forall_cons; split; [right; by exists invalid_key|]).
    apply Forall_nil_2.
Defined.


(** ** The ingestor: encodings, batches and [flush] *)

Lemma insert_below_capacity {R} (q q' : _WorkerQueue.t R) (r : R)
    (key : option _RecordKey.t) (res : option (list R)) :
  Z.of_nat (length (_WorkerQueue.record_queue q)) + 1 < _WorkerQueue.capacity q ->
  _WorkerQueue.insert q r key = ret (q', res) ->
  res = None.
Proof.
  intros Hlt Hins.
  apply insert_inv in Hins as [[_ ->]|(q1 & Hfl & Hcap & Hlen)]; [done|].
  rewrite flush_if_full_not_full in Hfl by lia. by injection Hfl as _ <-.
Qed.

Section IngestorFacts.
Variable host : byteorder.
Variable hash64 : list Z -> Z -> Z * Z.
Variable unicode_digit : Z -> option Z.
Variable add_other : string -> _RecordKey.t -> pyval -> exc _RecordKey.t.
Variable binary_data : GPUdbRecordType -> record -> list Z.
Variable rpc_insert_records :
  nat -> string -> string -> list encoded -> exc insert_rsp.
Variable random : nat -> Z.
Import GPUdbIngestor.

Implicit Types (self : GPUdbIngestor.t) (w : world) (e : encoded) (r : record).

Local Abbreviation build_key :=
  (GPUdbIngestor.build_key host hash64 unicode_digit add_other).
Local Abbreviation encode := (GPUdbIngestor.encode binary_data).
Local Abbreviation __flush := (GPUdbIngestor.__flush rpc_insert_records).
Local Abbreviation insert_record :=
  (GPUdbIngestor.insert_record host hash64 unicode_digit add_other binary_data
     rpc_insert_records random).
Local Abbreviation insert_records :=
  (GPUdbIngestor.insert_records host hash64 unicode_digit add_other binary_data
     rpc_insert_records random).
Local Abbreviation flush_loop := (GPUdbIngestor.flush_loop rpc_insert_records).
Local Abbreviation flush := (GPUdbIngestor.flush rpc_insert_records).

(** [insert_record] lowers the case of [record_encoding] to check it but
    not to use it: an encoding it accepts that is not exactly "binary",
    such as "BINARY", is taken as "json", and the record is queued with
    its column values.  [insert_records] does not lower the case and
    rejects the same encoding. *)
Theorem insert_record_takes_other_case_as_json r (records : list record)
    (enc : string) self w :
  str_in (lower enc) ["json"; "binary"]%string = true ->
  str_in enc ["json"; "binary"]%string = false ->
  insert_record r enc self w = insert_record r "json" self w
  /\ (records <> [] ->
      insert_records records enc self w
      = (inl (Raised (GPUdbException
           "Input parameter 'record_encoding' must be one of ['json', 'binary']")),
         self, w)).
Proof.
  intros Hlower Hexact. split.
  - assert (Henc : encode (record_type self) enc r
                   = encode (record_type self) "json" r).
    { unfold GPUdbIngestor.encode. simpl in Hexact.
      apply orb_false_iff in Hexact as [_ Hexact].
      apply orb_false_iff in Hexact as [Hexact _]. by rewrite Hexact. }
    unfold GPUdbIngestor.insert_record. rewrite Hlower, Henc. done.
  - intros Hrecords. unfold GPUdbIngestor.insert_records.
    destruct records; [done|]. by rewrite Hexact.
Qed.

(** While every worker queue is more than one record short of its
    capacity, [insert_record] sends nothing to a worker: whatever it
    returns or raises, no batch is committed, the counts stay as they
    are and no insertion failure is raised. *)
Theorem insert_record_below_batch_size_sends_nothing r (enc : string)
    self w out self' w' :
  Forall (fun q => Z.of_nat (length (_WorkerQueue.record_queue q)) + 1
                   < _WorkerQueue.capacity q) (worker_queues self) ->
  insert_record r enc self w = (out, self', w') ->
  committed w' = committed w
  /\ count_inserted self' = count_inserted self
  /\ count_updated self' = count_updated self
  /\ forall msg records, out <> inl (InsertionException msg records).
Proof.
  intros Hbelow H. unfold GPUdbIngestor.insert_record in H.
  destruct (negb (str_in (lower enc) ["json"; "binary"]%string)).
  { by injection H as <- <- <-. }
  unfold mbind, lift, mfail, mret in H.
  destruct (build_key (primary_key_builder self) r) as [err|primary_key].
  { by injection H as <- <- <-. }
  destruct (build_key (shard_key_builder self) r) as [err|shard_key].
  { by injection H as <- <- <-. }
  destruct (choose_worker random shard_key self w) as [[out1 self1] w1] eqn:Hcw.
  apply choose_worker_spec in Hcw as (-> & Hw1 & Hout1).
  destruct out1 as [[msg1 c|err]|worker_index].
  { done. }
  { by injection H as <- <- <-. }
  destruct (queue_insert worker_index _ primary_key self w1)
    as [[out2 self2] w2] eqn:Hqi.
  apply queue_insert_spec in Hqi as [-> Hout2].
  destruct out2 as [[msg2 c|err]|[q' res]].
  { done. }
  { injection H as <- <- <-. by subst self2. }
  destruct Hout2 as (j & q & Hq & Hins & ->).
  assert (res = None) as ->.
  { eapply insert_below_capacity; [|exact Hins].
    eapply (Forall_lookup_1 _ _ _ _ Hbelow Hq). }
  unfold flush_returned, mret in H. simpl in H.
  by injection H as <- <- <-.
Qed.

Lemma flushed_batches_cons (q : _WorkerQueue.t encoded)
    (qs : list (_WorkerQueue.t encoded)) :
  flushed_batches (q :: qs) = flushed_batches [q] ++ flushed_batches qs.
Proof.
  unfold flushed_batches. simpl. by destruct (_WorkerQueue.record_queue q).
Qed.

Lemma flush_loop_spec (n : nat) :
  forall (pre rest : list (_WorkerQueue.t encoded)) self w out self' w',
    worker_queues self = pre ++ rest ->
    length rest = n ->
    flush_loop n (length pre) self w = (out, self', w') ->
    exists dispatched todo : list (_WorkerQueue.t encoded),
      rest = dispatched ++ todo
      /\ worker_queues self' = pre ++ map emptied dispatched ++ todo
      /\ match out with
         | inr _ =>
             todo = []
             /\ committed w' = committed w ++ flushed_batches dispatched
         | inl failed =>
             exists (sent : list (_WorkerQueue.t encoded))
                    (q : _WorkerQueue.t encoded),
               dispatched = sent ++ [q]
               /\ _WorkerQueue.record_queue q <> []
               /\ committed w' = committed w ++ flushed_batches sent
               /\ match failed with
                  | InsertionException _ records =>
                      records = map Queued (_WorkerQueue.record_queue q)
                  | Raised _ => True
                  end
         end.
Proof.
  induction n as [|n IH]; intros pre rest self w out self' w' Hqs Hlen H.
  - destruct rest; [|done]. injection H as <- <- <-.
    exists [], []. simpl. rewrite !app_nil_r in *. by repeat split.
  - destruct rest as [|q rest]; [done|]. injection Hlen as Hlen.
    simpl in H. rewrite Hqs, list_lookup_middle in H by done.
    change (_WorkerQueue.set_queue q [] _) with (emptied q) in H.
    assert (Hins : <[length pre := emptied q]> (pre ++ q :: rest)
                   = (pre ++ [emptied q]) ++ rest).
    { rewrite <- (Nat.add_0_r (length pre)), insert_app_r. simpl.
      by rewrite <- app_assoc. }
    rewrite Hins in H. unfold mbind in H.
    set (self1 := set_worker_queues self ((pre ++ [emptied q]) ++ rest)) in H.
    assert (Hnext : forall s1 w1,
      worker_queues s1 = (pre ++ [emptied q]) ++ rest ->
      committed w1 = committed w ++ flushed_batches [q] ->
      flush_loop n (S (length pre)) s1 w1 = (out, self', w') ->
      exists dispatched todo : list (_WorkerQueue.t encoded),
        q :: rest = dispatched ++ todo
        /\ worker_queues self' = pre ++ map emptied dispatched ++ todo
        /\ match out with
           | inr _ =>
               todo = []
               /\ committed w' = committed w ++ flushed_batches dispatched
           | inl failed =>
               exists (sent : list (_WorkerQueue.t encoded))
                      (q : _WorkerQueue.t encoded),
                 dispatched = sent ++ [q]
                 /\ _WorkerQueue.record_queue q <> []
                 /\ committed w' = committed w ++ flushed_batches sent
                 /\ match failed with
                    | InsertionException _ records =>
                        records = map Queued (_WorkerQueue.record_queue q)
                    | Raised _ => True
                    end
           end).
    { intros s1 w1 Hs1 Hw1 Hloop.
      replace (S (length pre)) with (length (pre ++ [emptied q])) in Hloop
        by (rewrite length_app; simpl; lia).
      destruct (IH _ _ _ _ _ _ _ Hs1 Hlen Hloop)
        as (dispatched & todo & -> & Hqs' & Hout).
      exists (q :: dispatched), todo. split; [done|].
      split; [by rewrite Hqs', <- app_assoc|].
      destruct out as [failed|[]].
      - destruct Hout as (sent & q2 & -> & Hq2 & Hcom & Hfailed).
        exists (q :: sent), q2. split; [done|]. split; [done|].
        split; [|done].
        by rewrite Hcom, Hw1, <- app_assoc, <- flushed_batches_cons.
      - destruct Hout as [-> Hcom]. split; [done|].
        by rewrite Hcom, Hw1, <- app_assoc, <- flushed_batches_cons. }
    unfold GPUdbIngestor.__flush in H.
    destruct (_WorkerQueue.record_queue q) as [|e0 queue] eqn:Hqueue.
    { apply (Hnext self1 w); [done| |done].
      unfold flushed_batches. simpl. by rewrite Hqueue, app_nil_r. }
    destruct (rpc_insert_records _ _ _ _) as [err|rsp].
    { injection H as <- <- <-. exists [q], rest. split; [done|].
      split; [subst self1; simpl; by rewrite <- app_assoc|].
      exists [], q. rewrite Hqueue. simpl. by rewrite app_nil_r. }
    destruct (negb (String.eqb (status rsp) C._ok)).
    { injection H as <- <- <-. exists [q], rest. split; [done|].
      split; [subst self1; simpl; by rewrite <- app_assoc|].
      exists [], q. rewrite Hqueue. simpl. by rewrite app_nil_r. }
    refine (Hnext _ _ _ _ H); [subst self1; done|].
    unfold flushed_batches. simpl. by rewrite Hqueue.
Qed.

(** When [flush] returns, every worker queue has been emptied, and the
    workers have taken one batch for each queue that held records, in
    the order of the queues: the records of the queue, sent to the
    worker of the queue. *)
Theorem flush_commits_every_queue self w self' w' :
  flush self w = (inr tt, self', w') ->
  worker_queues self' = map emptied (worker_queues self)
  /\ Forall (fun q => _WorkerQueue.record_queue q = []) (worker_queues self')
  /\ committed w' = committed w ++ flushed_batches (worker_queues self).
Proof.
  unfold GPUdbIngestor.flush. intros H.
  destruct (flush_loop_spec _ [] (worker_queues self) self w _ self' w'
              eq_refl eq_refl H)
    as (dispatched & todo & Hqs & Hqs' & -> & Hcom).
  rewrite app_nil_r in Hqs, Hqs'. simpl in Hqs'. subst dispatched.
  split; [done|]. split; [|done].
  rewrite Hqs'. apply Forall_fmap, Forall_true. done.
Qed.

(** When [flush] raises an insertion failure, it does so at the first
    queue whose worker refuses its batch.  The queues before it have
    been emptied and their batches committed; the failing queue has been
    emptied too, and its records are the ones the exception carries;
    the queues after it still hold their records. *)
Theorem flush_failure_stops_at_queue self w (msg : string)
    (records : list item) self' w' :
  flush self w = (inl (InsertionException msg records), self', w') ->
  exists (sent : list (_WorkerQueue.t encoded)) (q : _WorkerQueue.t encoded)
         (todo : list (_WorkerQueue.t encoded)),
    worker_queues self = sent ++ q :: todo
    /\ _WorkerQueue.record_queue q <> []
    /\ records = map Queued (_WorkerQueue.record_queue q)
    /\ worker_queues self' = map emptied sent ++ emptied q :: todo
    /\ committed w' = committed w ++ flushed_batches sent.
Proof.
  unfold GPUdbIngestor.flush. intros H.
  destruct (flush_loop_spec _ [] (worker_queues self) self w _ self' w'
              eq_refl eq_refl H)
    as (dispatched & todo & Hqs & Hqs' & sent & q & -> & Hq & Hcom & ->).
  exists sent, q, todo. simpl in Hqs'.
  rewrite Hqs, Hqs', map_app, <- !app_assoc. done.
Qed.

End IngestorFacts.

Lemma insert_record_takes_other_case_as_json_witness :
  GPUdbIngestor.insert_record LittleEndian no_hash64 ascii_digit no_add_other
    no_binary_data ok_rpc first_then_second (plain_record 5) "BINARY"
    two_queues new_world
  = GPUdbIngestor.insert_record LittleEndian no_hash64 ascii_digit no_add_other
      no_binary_data ok_rpc first_then_second (plain_record 5) "json"
      two_queues new_world
  /\ ([plain_record 5] <> [] ->
      GPUdbIngestor.insert_records LittleEndian no_hash64 ascii_digit
        no_add_other no_binary_data ok_rpc first_then_second
        [plain_record 5] "BINARY" two_queues new_world
      = (inl (Raised (GPUdbException
           "Input parameter 'record_encoding' must be one of ['json', 'binary']")),
         two_queues, new_world)).
Proof.
  apply (insert_record_takes_other_case_as_json LittleEndian no_hash64
           ascii_digit no_add_other no_binary_data ok_rpc first_then_second
           (plain_record 5) [plain_record 5] "BINARY" two_queues new_world);
    reflexivity.
Defined.

Lemma insert_record_below_batch_size_sends_nothing_witness :
  let res :=
    GPUdbIngestor.insert_record LittleEndian no_hash64 ascii_digit no_add_other
      no_binary_data failing_rpc first_then_second (plain_record 5) "json"
      three_queues new_world in
  GPUdbIngestor.committed (snd res) = GPUdbIngestor.committed new_world
  /\ GPUdbIngestor.count_inserted (snd (fst res))
     = GPUdbIngestor.count_inserted three_queues
  /\ GPUdbIngestor.count_updated (snd (fst res))
     = GPUdbIngestor.count_updated three_queues
  /\ forall msg records, fst (fst res) <> inl (InsertionException msg records).
Proof.
  apply (insert_record_below_batch_size_sends_nothing LittleEndian no_hash64
           ascii_digit no_add_other no_binary_data failing_rpc first_then_second
           (plain_record 5) "json" three_queues new_world).
  - repeat constructor.
  - reflexivity.
Defined.

Lemma flush_commits_every_queue_witness :
  let res := GPUdbIngestor.flush ok_rpc three_queues new_world in
  GPUdbIngestor.worker_queues (snd (fst res))
  = map emptied (GPUdbIngestor.worker_queues three_queues)
  /\ Forall (fun q => _WorkerQueue.record_queue q = [])
            (GPUdbIngestor.worker_queues (snd (fst res)))
  /\ GPUdbIngestor.committed (snd res)
     = GPUdbIngestor.committed new_world
       ++ flushed_batches (GPUdbIngestor.worker_queues three_queues).
Proof.
  apply (flush_commits_every_queue ok_rpc three_queues new_world).
  reflexivity.
Defined.

Lemma flush_failure_stops_at_queue_witness :
  exists (sent : list (_WorkerQueue.t encoded)) (q : _WorkerQueue.t encoded)
         (todo : list (_WorkerQueue.t encoded)),
    GPUdbIngestor.worker_queues three_queues = sent ++ q :: todo
    /\ _WorkerQueue.record_queue q <> []
    /\ [Queued (Json (plain_record 2))]
       = map Queued (_WorkerQueue.record_queue q)
    /\ GPUdbIngestor.worker_queues
         (snd (fst (GPUdbIngestor.flush w2_fails three_queues new_world)))
       = map emptied sent ++ emptied q :: todo
    /\ GPUdbIngestor.committed
         (snd (GPUdbIngestor.flush w2_fails three_queues new_world))
       = GPUdbIngestor.committed new_world ++ flushed_batches sent.
Proof.
  apply (flush_failure_stops_at_queue w2_fails three_queues new_world "boom").
  reflexivity.
Defined.

(** ** Tables the constructors reject *)

Lemma scan_columns_no_key (props : gmap string (list string))
    (cols : list GPUdbRecordColumn) :
  Forall (fun col =>
            match props !! name col with
            | Some ps => str_in C._shard_key ps = false
            | None => True
            end) cols ->
  forall (st : _RecordKeyBuilder.scan) (i : nat),
    _RecordKeyBuilder.s_routing_key_indices
      (_RecordKeyBuilder.scan_columns props false st i cols)
    = _RecordKeyBuilder.s_routing_key_indices st.
Proof.
  induction 1 as [|col cols Hcol _ IH]; intros st i; simpl; [done|].
  rewrite IH. unfold _RecordKeyBuilder.scan_column.
  destruct (props !! name col) as [[|p ps]|]; simpl in *; try done.
  by rewrite Hcol.
Qed.

(** A track-type table, one with the columns TRACKID, TIMESTAMP, x and
    y, none of whose columns is marked as a shard key, cannot be used:
    the constructor of its shard-key builder raises, at the latest when
    it reads the "is_nullable" entry that the descriptor it adds for
    TRACKID does not have, and so do the constructors of the ingestor
    and of the retriever, which build the shard-key builder first. *)
Theorem track_type_table_without_shard_key_is_rejected
    (record_type : GPUdbRecordType) :
  _RecordKeyBuilder.is_track_type (map name (columns record_type)) = true ->
  no_shard_key_column record_type ->
  (exists e, _RecordKeyBuilder.__init__ record_type false = raise e)
  /\ (forall gpudb table_name batch_size options workers is_table_replicated,
        exists e,
          GPUdbIngestor.__init__ gpudb table_name record_type batch_size
            options workers is_table_replicated = raise e)
  /\ (forall gpudb table_name workers,
        exists e,
          RecordRetriever.__init__ gpudb table_name record_type workers
          = raise e).
Proof.
  intros Htrack Hnone.
  assert (Hinit : exists e,
            _RecordKeyBuilder.__init__ record_type false = raise e).
  { destruct (_RecordKeyBuilder.__init__ record_type false) as [e|b] eqn:Hb;
      [by exists e|exfalso].
    unfold _RecordKeyBuilder.__init__ in Hb.
    apply bind_ret_inv in Hb as (st & Hst & Hb).
    unfold _RecordKeyBuilder.analyze, _RecordKeyBuilder.track_type in Hst.
    rewrite Htrack in Hst. simpl in Hst.
    destruct (str_index _ _) as [track_id_index|]; [|discriminate].
    rewrite (scan_columns_no_key _ _ Hnone) in Hst. simpl in Hst.
    destruct (_RecordKeyBuilder.s_column_name _); [|discriminate].
    destruct (_RecordKeyBuilder.s_column_type _); [|discriminate].
    injection Hst as <-. simpl in Hb.
    apply bind_ret_inv in Hb as (sz & _ & Hb).
    apply bind_ret_inv in Hb as (str & Hstr & _).
    unfold _RecordKeyBuilder.make_key_schema_str in Hstr.
    apply bind_ret_inv in Hstr as (ds & Hds & _).
    apply key_field_descriptions_ret, Forall_app in Hds as [_ Hds].
    apply Forall_cons in Hds as [[? Hnull] _]. discriminate. }
  destruct Hinit as [e He]. split; [by exists e|]. split.
  - intros. unfold GPUdbIngestor.__init__.
    destruct (batch_size <? 1); [by eexists|].
    rewrite He. by eexists.
  - intros. unfold RecordRetriever.__init__. rewrite He. by eexists.
Qed.

Lemma track_type_table_without_shard_key_is_rejected_witness :
  (exists e, _RecordKeyBuilder.__init__ track_record_type false = raise e)
  /\ (forall gpudb table_name batch_size options workers is_table_replicated,
        exists e,
          GPUdbIngestor.__init__ gpudb table_name track_record_type batch_size
            options workers is_table_replicated = raise e)
  /\ (forall gpudb table_name workers,
        exists e,
          RecordRetriever.__init__ gpudb table_name track_record_type workers
          = raise e).
Proof.
  apply (track_type_table_without_shard_key_is_rejected track_record_type).
  - reflexivity.
  - unfold no_shard_key_column. simpl. repeat constructor.
Defined.

(** ** The ingestor the constructor returns *)

Lemma make_worker_queues_fresh (urls : list string) (capacity : Z)
    (has_primary_key update_on_existing_pk : bool)
    (wqs : list (_WorkerQueue.t encoded)) :
  make_worker_queues urls capacity has_primary_key update_on_existing_pk
  = ret wqs ->
  map _WorkerQueue.get_url wqs = urls
  /\ Forall (fun q =>
               _WorkerQueue.capacity q = capacity
               /\ _WorkerQueue.record_queue q = []
               /\ _WorkerQueue.has_primary_key q = has_primary_key
               /\ _WorkerQueue.primary_key_to_queue_index_map q
                  = (if has_primary_key then Some ∅ else None)) wqs.
Proof.
  revert wqs. induction urls as [|u urls IH]; intros wqs H; simpl in H.
  - by injection H as <-.
  - apply bind_ret_inv in H as (wq & Hwq & H).
    apply bind_ret_inv in H as (wqs' & Hwqs & [= <-]).
    apply IH in Hwqs as [Hurls Hfresh].
    unfold _WorkerQueue.__init__ in Hwq.
    destruct (capacity <=? 0); [discriminate|]. injection Hwq as <-.
    simpl. rewrite Hurls. split; [done|]. by constructor.
Qed.

(** The ingestor the constructor returns has a batch size of at least 1
    and one empty worker queue for each worker URL, in the order of the
    URLs, each with the batch size as its capacity and with a
    primary-key index exactly when the ingestor has a primary-key
    builder.  It has a builder only for a key the table has, and a table
    with a primary key always gets a shard-key builder: the primary key
    serves as shard key when the table declares none. *)
Theorem ingestor_init_invariants (gpudb : GPUdb) (table_name : string)
    (record_type : GPUdbRecordType) (batch_size : Z)
    (options : option (gmap string string)) (workers : GPUdbWorkerList.t)
    (is_table_replicated : bool) (ing : GPUdbIngestor.t) :
  GPUdbIngestor.__init__ gpudb table_name record_type batch_size options
                         (Some workers) is_table_replicated = ret ing ->
  1 <= batch_size
  /\ map _WorkerQueue.get_url (GPUdbIngestor.worker_queues ing)
     = GPUdbWorkerList.get_worker_urls workers
  /\ GPUdbIngestor.num_ranks ing
     = Z.of_nat (length (GPUdbIngestor.worker_queues ing))
  /\ Forall (fresh_queue batch_size (GPUdbIngestor.primary_key_builder ing))
            (GPUdbIngestor.worker_queues ing)
  /\ (forall b, GPUdbIngestor.primary_key_builder ing = Some b ->
        _RecordKeyBuilder.has_key b = true
        /\ is_Some (GPUdbIngestor.shard_key_builder ing))
  /\ (forall b, GPUdbIngestor.shard_key_builder ing = Some b ->
        _RecordKeyBuilder.has_key b = true)
  /\ GPUdbIngestor.count_inserted ing = 0
  /\ GPUdbIngestor.count_updated ing = 0.
Proof.
  unfold GPUdbIngestor.__init__. intros H.
  destruct (Z.ltb_spec batch_size 1); [discriminate|].
  apply bind_ret_inv in H as (skb & _ & H).
  apply bind_ret_inv in H as (pkb & _ & H).
  destruct (_RecordKeyBuilder.has_key pkb) eqn:Hpk;
    destruct (_RecordKeyBuilder.has_key skb) eqn:Hsk; simpl in H;
    try destruct (_RecordKeyBuilder.has_same_key skb pkb); simpl in H;
    apply bind_ret_inv in H as (wqs & Hwqs & H);
    apply bind_ret_inv in H as (table & _ & [= <-]); simpl;
    apply make_worker_queues_fresh in Hwqs as [Hurls Hfresh];
    (split; [lia|]); (split; [done|]);
    (split; [by rewrite <- Hurls, length_map|]);
    (split; [exact Hfresh|]);
    (split; [intros b [= <-]; by eauto|]);
    (split; [by intros b [= <-]|]); done.
Qed.

Lemma ingestor_init_invariants_witness :
  1 <= 2
  /\ map _WorkerQueue.get_url (GPUdbIngestor.worker_queues two_queues)
     = GPUdbWorkerList.get_worker_urls two_workers
  /\ GPUdbIngestor.num_ranks two_queues
     = Z.of_nat (length (GPUdbIngestor.worker_queues two_queues))
  /\ Forall (fresh_queue 2 (GPUdbIngestor.primary_key_builder two_queues))
            (GPUdbIngestor.worker_queues two_queues)
  /\ (forall b, GPUdbIngestor.primary_key_builder two_queues = Some b ->
        _RecordKeyBuilder.has_key b = true
        /\ is_Some (GPUdbIngestor.shard_key_builder two_queues))
  /\ (forall b, GPUdbIngestor.shard_key_builder two_queues = Some b ->
        _RecordKeyBuilder.has_key b = true)
  /\ GPUdbIngestor.count_inserted two_queues = 0
  /\ GPUdbIngestor.count_updated two_queues = 0.
Proof.
  apply (ingestor_init_invariants three_rank_server "t" plain_record_type 2
           None two_workers false two_queues).
  vm_compute. reflexivity.
Defined.


(** ** What [insert_records] and [flush] keep when they return *)

Lemma queued_records_flushed (qs : list (_WorkerQueue.t encoded)) (e : encoded) :
  e ∈ concat (map _WorkerQueue.record_queue qs) ->
  e ∈ concat (map snd (flushed_batches qs)).
Proof.
  induction qs as [|q qs IH]; [done|].
  rewrite flushed_batches_cons, map_app, concat_app. simpl.
  rewrite !elem_of_app. intros [He|He]; [left|right; by apply IH].
  unfold flushed_batches. simpl.
  destruct (_WorkerQueue.record_queue q) as [|e0 queue]; [done|].
  simpl. by rewrite app_nil_r.
Qed.

Section IngestorLossless.
Variable host : byteorder.
Variable hash64 : list Z -> Z -> Z * Z.
Variable unicode_digit : Z -> option Z.
Variable add_other : string -> _RecordKey.t -> pyval -> exc _RecordKey.t.
Variable binary_data : GPUdbRecordType -> record -> list Z.
Variable rpc_insert_records :
  nat -> string -> string -> list encoded -> exc insert_rsp.
Variable random : nat -> Z.
Import GPUdbIngestor.

Implicit Types (self : GPUdbIngestor.t) (w : world) (e : encoded) (r : record).

Local Abbreviation encode := (GPUdbIngestor.encode binary_data).
Local Abbreviation insert_record :=
  (GPUdbIngestor.insert_record host hash64 unicode_digit add_other binary_data
     rpc_insert_records random).
Local Abbreviation insert_records_loop :=
  (GPUdbIngestor.insert_records_loop host hash64 unicode_digit add_other
     binary_data rpc_insert_records random).
Local Abbreviation insert_records :=
  (GPUdbIngestor.insert_records host hash64 unicode_digit add_other binary_data
     rpc_insert_records random).
Local Abbreviation flush := (GPUdbIngestor.flush rpc_insert_records).
Local Abbreviation no_valid_key :=
  (no_valid_key host hash64 unicode_digit add_other).

Lemma insert_records_loop_returns (records : list record) (enc : string)
    (rest : list record) :
  forall self w self' w',
    queues_ok self ->
    insert_records_loop records rest enc self w = (inr tt, self', w') ->
    queues_ok self'
    /\ (forall e, accounted self w e -> accounted self' w' e)
    /\ (forall r, r ∈ rest -> no_valid_key self r ->
          accounted self' w' (encode (record_type self) enc r)).
Proof.
  induction rest as [|rec rest IH]; intros self w self' w' Hok H.
  - injection H as <- <-. split; [done|]. split; [done|].
    intros r Hr. by apply elem_of_nil in Hr.
  - simpl in H.
    destruct (insert_record rec enc self w) as [[out s1] w1] eqn:Hins.
    destruct (insert_record_spec _ _ _ _ _ _ _ _ _ _ _ _ _ _ Hok Hins)
      as (Hok1 & Hpkb & Hrt & Hacc & _).
    destruct out as [[msg c|err]|[]].
    + by destruct (index rec records).
    + discriminate.
    + destruct (Hacc I) as [Ha1 Hn1].
      destruct (IH _ _ _ _ Hok1 H) as (Hok' & Ha & Hn).
      split; [done|]. split.
      * intros e He. apply Ha. by destruct (Ha1 e He).
      * intros r Hr Hk. apply elem_of_cons in Hr as [->|Hr].
        -- apply Ha. by destruct (Hn1 Hk).
        -- rewrite <- Hrt. apply Hn; [done|].
           by apply (no_valid_key_eq host hash64 unicode_digit add_other self s1).
Qed.


(** [insert_records] followed by [flush]: when both return, every
    submitted record to which primary-key dedup does not apply has been
    committed by a worker. *)
Theorem insert_records_then_flush_commits (records : list record)
    (enc : string) self w s1 w1 s2 w2 :
  queues_ok self ->
  insert_records records enc self w = (inr tt, s1, w1) ->
  flush s1 w1 = (inr tt, s2, w2) ->
  forall r, r ∈ records -> no_valid_key self r ->
    encode (record_type self) enc r ∈ committed_records w2.
Proof.
  intros Hok Hins Hflush r Hr Hk.
  assert (Hacc : encode (record_type self) enc r ∈ committed_records w1
                 \/ encode (record_type self) enc r ∈ queued_records s1).
  { unfold GPUdbIngestor.insert_records in Hins.
    destruct records as [|r0 records0] eqn:Hrecords;
      [by apply elem_of_nil in Hr|].
    rewrite <- Hrecords in *.
    destruct (negb (str_in enc ["json"; "binary"]%string)); [discriminate|].
    destruct (insert_records_loop_returns _ _ _ _ _ _ _ Hok Hins)
      as (_ & _ & Hn).
    by apply accounted_cases, Hn. }
  unfold GPUdbIngestor.flush in Hflush.
  destruct (flush_loop_spec rpc_insert_records _ [] (worker_queues s1) s1 w1 _
              s2 w2 eq_refl eq_refl Hflush)
    as (dispatched & todo & Hqs & _ & -> & Hcom).
  rewrite app_nil_r in Hqs. subst dispatched.
  unfold committed_records. rewrite Hcom, map_app, concat_app, elem_of_app.
  destruct Hacc as [Hc|Hq]; [by left|right].
  by apply queued_records_flushed.
Qed.

End IngestorLossless.


Lemma insert_records_then_flush_commits_witness :
  let res :=
    GPUdbIngestor.insert_records LittleEndian no_hash64 ascii_digit no_add_other
      no_binary_data ok_rpc first_then_second
      [plain_record 1; plain_record 2; plain_record 3] "json"
      two_queues new_world in
  let res' := GPUdbIngestor.flush ok_rpc (snd (fst res)) (snd res) in
  GPUdbIngestor.encode no_binary_data
    (GPUdbIngestor.record_type two_queues) "json" (plain_record 3)
    ∈ committed_records (snd res').
Proof.
  intros res res'.
  apply (insert_records_then_flush_commits LittleEndian no_hash64 ascii_digit
           no_add_other no_binary_data ok_rpc first_then_second
           [plain_record 1; plain_record 2; plain_record 3] "json"
           two_queues new_world (snd (fst res)) (snd res)
           (snd (fst res')) (snd res')).
  - repeat constructor; by intros m h i [=].
  - vm_compute. reflexivity.
  - vm_compute. reflexivity.
  - apply list_elem_of_In. simpl. tauto.
  - exact I.
Defined.

(** ** The image of a decimal *)

Section DecimalFacts.
Variable host : byteorder.
Variable unicode_digit : Z -> option Z.
Variable unicode_space : Z -> bool.
Variable max_str_digits : nat.
Hypothesis Hdigit : forall c, 48 <= c <= 57 -> unicode_digit c = Some (c - 48).
Hypothesis Hdot : unicode_digit 46 = None.
Hypothesis Hspace : forall c, 43 <= c <= 57 -> unicode_space c = false.

Local Abbreviation decimal_match :=
  (_RecordKey.decimal_match unicode_digit unicode_space).
Local Abbreviation decimal_value := (_RecordKey.decimal_value max_str_digits).
Local Abbreviation add_decimal :=
  (_RecordKey.add_decimal host unicode_digit unicode_space max_str_digits).

Lemma digit_chars_range (ds : list Z) :
  Forall (fun d => 0 <= d <= 9) ds ->
  Forall (fun c => 48 <= c <= 57) (digit_chars ds).
Proof.
  intros H. unfold digit_chars. apply Forall_fmap.
  eapply Forall_impl; [exact H|]. simpl. lia.
Qed.

Lemma decimal_string_head (sign : pystr) (di df : list Z) :
  is_sign sign ->
  Forall (fun d => 0 <= d <= 9) di ->
  exists c s, decimal_string sign di df = c :: s /\ 43 <= c <= 57.
Proof.
  intros Hsign Hdi. unfold decimal_string.
  destruct Hsign as [->|[->| ->]]; simpl.
  - destruct Hdi as [|d di Hd _]; simpl; eexists _, _; (split; [done|lia]).
  - eexists _, _. split; [done|lia].
  - eexists _, _. split; [done|lia].
Qed.

Lemma take_all_digits (ds : list Z) (rest : pystr) :
  Forall (fun d => 0 <= d <= 9) ds ->
  match rest with [] => True | c :: _ => unicode_digit c = None end ->
  _RecordKey.take_digits unicode_digit (length (digit_chars ds ++ rest))
    (digit_chars ds ++ rest)
  = (ds, rest).
Proof.
  intros Hds Hrest. apply take_digits_digit_chars; [done..| |done].
  rewrite length_app. unfold digit_chars. rewrite length_map. lia.
Qed.

Lemma decimal_match_fraction (sign : pystr) (di df : list Z) :
  is_sign sign ->
  Forall (fun d => 0 <= d <= 9) di ->
  Forall (fun d => 0 <= d <= 9) df ->
  decimal_match (decimal_string sign di df)
  = match di with
    | [] =>
        if (1 <=? length df)%nat && (length df <=? 4)%nat then
          Some {| _RecordKey.g_sign := sign; _RecordKey.g_int := None;
                  _RecordKey.g_frac1 := None; _RecordKey.g_frac2 := Some df |}
        else None
    | _ =>
        if (length df <=? 4)%nat then
          Some {| _RecordKey.g_sign := sign; _RecordKey.g_int := Some di;
                  _RecordKey.g_frac1 := Some df; _RecordKey.g_frac2 := None |}
        else None
    end.
Proof.
  intros Hsign Hdi Hdf. unfold _RecordKey.decimal_match.
  destruct (decimal_string_head sign di df Hsign Hdi) as (c & s & Hs & Hc).
  assert (Hskip : _RecordKey.skip_spaces unicode_space (decimal_string sign di df)
                  = decimal_string sign di df).
  { rewrite Hs. simpl. by rewrite Hspace. }
  rewrite Hskip. clear c s Hs Hc Hskip.
  assert (Hsplit :
    match decimal_string sign di df with
    | c :: s' =>
        if (c =? 43) || (c =? 45) then ([c], s')
        else ([], decimal_string sign di df)
    | [] => ([], [])
    end = (sign, digit_chars di ++ 46 :: digit_chars df)).
  { unfold decimal_string. destruct Hsign as [->|[->| ->]]; simpl; [|done..].
    destruct Hdi as [|d di Hd _]; simpl; [done|].
    destruct (Z.eqb_spec (48 + d) 43); [lia|].
    destruct (Z.eqb_spec (48 + d) 45); [lia|]. done. }
  rewrite Hsplit.
  rewrite (take_all_digits di (46 :: digit_chars df)) by done.
  pose proof (take_all_digits df [] Hdf I) as Hfrac.
  rewrite app_nil_r in Hfrac.
  destruct di as [|d di]; rewrite Hfrac; simpl; by rewrite ?andb_true_r.
Qed.

Lemma int_of_group_within (ds : list Z) :
  max_str_digits = 0%nat \/ (length ds <= max_str_digits)%nat ->
  _RecordKey.int_of_group max_str_digits ds = ret (_RecordKey.int_of_digits ds).
Proof.
  intros Hlimit. unfold _RecordKey.int_of_group.
  destruct (Nat.ltb_spec 0 max_str_digits); [|done].
  destruct (Nat.ltb_spec max_str_digits (length ds)); [lia|done].
Qed.

Lemma decimal_value_fraction (sign : pystr) (di df : list Z) :
  di <> [] ->
  max_str_digits = 0%nat
  \/ (length di <= max_str_digits /\ length df <= max_str_digits)%nat ->
  decimal_value
    {| _RecordKey.g_sign := sign; _RecordKey.g_int := Some di;
       _RecordKey.g_frac1 := Some df; _RecordKey.g_frac2 := None |}
  = ret (scaled sign di df).
Proof.
  intros Hdi Hlimit. unfold _RecordKey.decimal_value, scaled. simpl.
  destruct di as [|d di]; [done|].
  rewrite int_of_group_within by lia. cbn [bind ret].
  destruct df as [|f df].
  - change (_RecordKey.int_of_digits [] * 10 ^ (4 - Z.of_nat (length [])))
      with 0.
    rewrite Z.add_0_r. by destruct (bool_decide _).
  - change (Z.of_nat (length (f :: df)) >? 0) with true. cbn iota.
    rewrite int_of_group_within by lia. by destruct (bool_decide _).
Qed.

(** A decimal is kept as a fixed-point number with four decimal places.
    For a string of an optional sign, one or more digits, a dot and at
    most four digits, none of the two runs of digits longer than [int]
    converts, [add_decimal] appends the eight bytes of the number times
    10000, when it fits 64 bits, and leaves the key valid. *)
Theorem add_decimal_fixed_point (self : _RecordKey.t) (sign : pystr)
    (di df : list Z) :
  is_sign sign ->
  Forall (fun d => 0 <= d <= 9) di -> di <> [] ->
  Forall (fun d => 0 <= d <= 9) df -> (length df <= 4)%nat ->
  max_str_digits = 0%nat
  \/ (length di <= max_str_digits /\ length df <= max_str_digits)%nat ->
  - 2 ^ 63 <= scaled sign di df < 2 ^ 63 ->
  Z.of_nat (length (_RecordKey._buffer_value self)) + 8
  <= _RecordKey._buffer_size self ->
  add_decimal self (PyStr (decimal_string sign di df))
  = ret (_RecordKey.extend self (native_bytes host 8 (scaled sign di df))).
Proof.
  intros Hsign Hdi Hne Hdf Hlen Hlimit Hrange Hroom.
  unfold _RecordKey.add_decimal.
  rewrite will_buffer_overflow_room by (unfold _ColumnTypeSize.DECIMAL; lia).
  cbn [bind ret].
  rewrite decimal_match_fraction by done.
  destruct di as [|d di]; [done|].
  destruct (Nat.leb_spec (length df) 4); [|lia].
  rewrite decimal_value_fraction by done.
  unfold pack_signed, bind, ret, raise. change (8 * Z.of_nat 8 - 1) with 63.
  destruct (Z.leb_spec (- 2 ^ 63) (scaled sign (d :: di) df)); [|lia].
  destruct (Z.ltb_spec (scaled sign (d :: di) df) (2 ^ 63)); [|lia].
  done.
Qed.

(** A decimal with more than four digits after the dot is neither
    rounded nor cut: [add_decimal] appends eight zero bytes and marks
    the key invalid. *)
Theorem add_decimal_five_places_invalid (self : _RecordKey.t) (sign : pystr)
    (di df : list Z) :
  is_sign sign ->
  Forall (fun d => 0 <= d <= 9) di ->
  Forall (fun d => 0 <= d <= 9) df -> (4 < length df)%nat ->
  Z.of_nat (length (_RecordKey._buffer_value self)) + 8
  <= _RecordKey._buffer_size self ->
  add_decimal self (PyStr (decimal_string sign di df))
  = ret (_RecordKey.invalidate
           (_RecordKey.extend self [0; 0; 0; 0; 0; 0; 0; 0])).
Proof.
  intros Hsign Hdi Hdf Hlen Hroom.
  unfold _RecordKey.add_decimal.
  rewrite will_buffer_overflow_room by (unfold _ColumnTypeSize.DECIMAL; lia).
  cbn [bind ret].
  rewrite decimal_match_fraction by done.
  destruct (Nat.leb_spec (length df) 4); [lia|].
  rewrite andb_false_r.
  destruct di; by rewrite (pack_signed_zero host 8) by lia.
Qed.

(** A decimal too large for 64 bits is not marked as an invalid key:
    the [struct.pack] that follows the parsing raises. *)
Theorem add_decimal_too_large_raises (self : _RecordKey.t) (sign : pystr)
    (di df : list Z) :
  is_sign sign ->
  Forall (fun d => 0 <= d <= 9) di -> di <> [] ->
  Forall (fun d => 0 <= d <= 9) df -> (length df <= 4)%nat ->
  max_str_digits = 0%nat
  \/ (length di <= max_str_digits /\ length df <= max_str_digits)%nat ->
  scaled sign di df < - 2 ^ 63 \/ 2 ^ 63 <= scaled sign di df ->
  Z.of_nat (length (_RecordKey._buffer_value self)) + 8
  <= _RecordKey._buffer_size self ->
  add_decimal self (PyStr (decimal_string sign di df)) = raise StructError.
Proof.
  intros Hsign Hdi Hne Hdf Hlen Hlimit Hrange Hroom.
  unfold _RecordKey.add_decimal.
  rewrite will_buffer_overflow_room by (unfold _ColumnTypeSize.DECIMAL; lia).
  cbn [bind ret].
  rewrite decimal_match_fraction by done.
  destruct di as [|d di]; [done|].
  destruct (Nat.leb_spec (length df) 4); [|lia].
  rewrite decimal_value_fraction by done.
  unfold pack_signed, bind, ret, raise. change (8 * Z.of_nat 8 - 1) with 63.
  destruct (Z.leb_spec (- 2 ^ 63) (scaled sign (d :: di) df)); [|done].
  destruct (Z.ltb_spec (scaled sign (d :: di) df) (2 ^ 63)); [lia|done].
Qed.

End DecimalFacts.

Lemma ascii_digit_value (c : Z) : 48 <= c <= 57 -> ascii_digit c = Some (c - 48).
Proof.
  intros Hc. unfold ascii_digit.
  destruct (Z.leb_spec 48 c); [|lia]. by destruct (Z.leb_spec c 57); [|lia].
Qed.

Lemma ascii_space_not (c : Z) : 43 <= c <= 57 -> ascii_space c = false.
Proof.
  intros Hc. unfold ascii_space.
  destruct (Z.eqb_spec c 32); [lia|].
  destruct (Z.leb_spec 9 c); [|done]. by destruct (Z.leb_spec c 13); [lia|].
Qed.

Lemma add_decimal_fixed_point_witness :
  _RecordKey.add_decimal LittleEndian ascii_digit ascii_space 4300
    (fresh_key 8) (PyStr (decimal_string [45] [1; 2] [5]))
  = ret (_RecordKey.extend (fresh_key 8)
           (native_bytes LittleEndian 8 (scaled [45] [1; 2] [5]))).
Proof.
  apply (add_decimal_fixed_point LittleEndian ascii_digit ascii_space 4300
           ascii_digit_value eq_refl ascii_space_not (fresh_key 8)
           [45] [1; 2] [5]).
  - right. by right.
  - repeat constructor; lia.
  - done.
  - repeat constructor; lia.
  - simpl; lia.
  - right. simpl; lia.
  - vm_compute. split; [discriminate|reflexivity].
  - simpl; lia.
Defined.

Lemma add_decimal_five_places_invalid_witness :
  _RecordKey.add_decimal LittleEndian ascii_digit ascii_space 4300
    (fresh_key 8) (PyStr (decimal_string [] [1] [2; 3; 4; 5; 6]))
  = ret (_RecordKey.invalidate
           (_RecordKey.extend (fresh_key 8) [0; 0; 0; 0; 0; 0; 0; 0])).
Proof.
  apply (add_decimal_five_places_invalid LittleEndian ascii_digit ascii_space
           4300 ascii_digit_value eq_refl ascii_space_not (fresh_key 8)
           [] [1] [2; 3; 4; 5; 6]).
  - by left.
  - repeat constructor; lia.
  - repeat constructor; lia.
  - simpl; lia.
  - simpl; lia.
Defined.

Lemma add_decimal_too_large_raises_witness :
  _RecordKey.add_decimal LittleEndian ascii_digit ascii_space 4300
    (fresh_key 8)
    (PyStr (decimal_string [] [9; 9; 9; 9; 9; 9; 9; 9; 9; 9; 9; 9; 9; 9; 9; 9]
              []))
  = raise StructError.
Proof.
  apply (add_decimal_too_large_raises LittleEndian ascii_digit ascii_space
           4300 ascii_digit_value eq_refl ascii_space_not (fresh_key 8)
           [] [9; 9; 9; 9; 9; 9; 9; 9; 9; 9; 9; 9; 9; 9; 9; 9] []).
  - by left.
  - repeat constructor; lia.
  - done.
  - constructor.
  - simpl; lia.
  - right. simpl; lia.
  - right. vm_compute. discriminate.
  - simpl; lia.
Defined.

(** ** The worker list *)

Section WorkerListFacts.
Variable malformed_url : string -> exc bool.
Variable re_match : string -> string -> exc bool.
Variable int_of_str : string -> option Z.

Local Abbreviation first_url := (GPUdbWorkerList.first_url malformed_url re_match).
Local Abbreviation urls_of_ranks :=
  (GPUdbWorkerList.urls_of_ranks malformed_url re_match).
Local Abbreviation validate_ip_address :=
  (GPUdbWorkerList.validate_ip_address int_of_str).
Local Abbreviation first_ip := (GPUdbWorkerList.first_ip re_match int_of_str).
Local Abbreviation urls_of_ips := (GPUdbWorkerList.urls_of_ips re_match int_of_str).
Local Abbreviation __init__ :=
  (GPUdbWorkerList.__init__ malformed_url re_match int_of_str).

Lemma first_url_spec (ip_regex : string) (candidates : list string)
    (url : string) :
  first_url ip_regex candidates = ret (Some url) ->
  exists skipped rest : list string,
    candidates = skipped ++ url :: rest
    /\ malformed_url url = ret false
    /\ Forall (fun u => malformed_url u = ret false
                        /\ re_match ip_regex u = ret false) skipped
    /\ (if String.eqb ip_regex EmptyString then skipped = []
        else re_match ip_regex url = ret true).
Proof.
  induction candidates as [|u candidates IH]; intros H; [discriminate|].
  simpl in H. apply bind_ret_inv in H as (malformed & Hu & H).
  destruct malformed; [discriminate|].
  destruct (String.eqb ip_regex EmptyString) eqn:Hre.
  - injection H as <-. exists [], candidates.
    split; [done|]. split; [done|]. split; [constructor|done].
  - apply bind_ret_inv in H as (matched & Hm & H). destruct matched.
    + injection H as <-. exists [], candidates.
      split; [done|]. split; [done|]. split; [constructor|done].
    + destruct (IH H) as (skipped & rest & -> & Hurl & Hskipped & Hmatch).
      exists (u :: skipped), rest.
      split; [done|]. split; [done|]. split; [by constructor|done].
Qed.

Lemma urls_of_ranks_spec (ip_regex : string) (ranks urls : list string) :
  urls_of_ranks ip_regex ranks = ret urls ->
  Forall2 (chosen_url malformed_url re_match ip_regex) ranks urls.
Proof.
  revert urls. induction ranks as [|rank ranks IH]; intros urls H; simpl in H.
  - injection H as <-. constructor.
  - apply bind_ret_inv in H as (found & Hfound & H).
    destruct found as [url|]; [|discriminate].
    apply bind_ret_inv in H as (urls' & Hurls & [= <-]).
    constructor; [|by apply IH]. by apply first_url_spec.
Qed.

Lemma first_ip_spec (protocol ip_regex port : string)
    (candidates : list string) (url : string) :
  first_ip protocol ip_regex port candidates = ret (Some url) ->
  exists (skipped : list string) (ip_address : string) (rest : list string),
    candidates = skipped ++ ip_address :: rest
    /\ url = (protocol ++ ip_address ++ ":" ++ port)%string
    /\ validate_ip_address ip_address = true
    /\ Forall (fun a => validate_ip_address a = true
                        /\ re_match ip_regex a = ret false) skipped
    /\ (if String.eqb ip_regex EmptyString then skipped = []
        else re_match ip_regex ip_address = ret true).
Proof.
  induction candidates as [|a candidates IH]; intros H; [discriminate|].
  simpl in H.
  destruct (validate_ip_address a) eqn:Hvalid; [|discriminate]. simpl in H.
  destruct (String.eqb ip_regex EmptyString) eqn:Hre.
  - injection H as <-. exists [], a, candidates.
    split; [done|]. split; [done|]. split; [done|]. split; [constructor|done].
  - apply bind_ret_inv in H as (matched & Hm & H). destruct matched.
    + injection H as <-. exists [], a, candidates.
      split; [done|]. split; [done|]. split; [done|].
      split; [constructor|done].
    + destruct (IH H) as (skipped & ip & rest & -> & Hurl & Hip & Hskipped & Hmatch).
      exists (a :: skipped), ip, rest.
      split; [done|]. split; [done|]. split; [done|].
      split; [by constructor|done].
Qed.

Lemma urls_of_ips_spec (protocol ip_regex : string)
    (ranks : list (string * string)) (urls : list string) :
  urls_of_ips protocol ip_regex ranks = ret urls ->
  Forall2 (chosen_ip_url re_match int_of_str protocol ip_regex) ranks urls.
Proof.
  revert urls. induction ranks as [|[ips port] ranks IH]; intros urls H;
    simpl in H.
  - injection H as <-. constructor.
  - apply bind_ret_inv in H as (found & Hfound & H).
    destruct found as [url|]; [|discriminate].
    apply bind_ret_inv in H as (urls' & Hurls & [= <-]).
    constructor; [|by apply IH]. by apply first_ip_spec.
Qed.

(** A worker list made for multi-head use from the URLs the server
    gives has one URL for each rank but rank 0, in the order of the
    ranks, and at least one: for each rank the first of its URLs that
    matches [ip_regex], or its first URL when no pattern is given.
    When multi-head is off at the server, or only the head node is
    asked for, the list is the URL of the head node alone. *)
Theorem worker_list_one_url_per_rank
    (rsp : GPUdbWorkerList.system_properties_response)
    (gpudb_url connection ip_regex : string) (use_head_node_only : bool)
    (wl : GPUdbWorkerList.t) :
  __init__ (ret rsp) gpudb_url connection ip_regex use_head_node_only = ret wl ->
  (GPUdbWorkerList.is_multihead_enabled wl = false \/ use_head_node_only = true ->
   GPUdbWorkerList.get_worker_urls wl = [gpudb_url])
  /\ (GPUdbWorkerList.is_multihead_enabled wl = true ->
      use_head_node_only = false ->
      forall worker_URLs,
        GPUdbWorkerList.sp_property_map rsp !! C._worker_URLs
        = Some worker_URLs ->
        GPUdbWorkerList.get_worker_urls wl <> []
        /\ Forall2 (chosen_url malformed_url re_match ip_regex)
                   (tail (GPUdbWorkerList.split ";" worker_URLs))
                   (GPUdbWorkerList.get_worker_urls wl)).
Proof.
  unfold GPUdbWorkerList.__init__. cbn [bind ret]. intros H.
  destruct (String.eqb _ C._error); [discriminate|].
  destruct (_ !! C._multihead_enabled) as [enabled|]; [|discriminate].
  destruct (String.eqb enabled C._TRUE); simpl in H;
    [|injection H as <-; by split].
  destruct use_head_node_only; [injection H as <-; by split|].
  apply bind_ret_inv in H as (urls & Hurls & H).
  destruct urls as [|u urls]; [discriminate|]. injection H as <-. simpl.
  split; [by intros [?|?]|].
  intros _ _ worker_URLs HURLs. rewrite HURLs in Hurls.
  split; [done|]. by apply urls_of_ranks_spec.
Qed.

(** When the server gives IP addresses and ports instead of URLs, the
    two lists have the same number of entries, and the worker list has
    one URL for each rank but rank 0: the protocol of the connection,
    the first IP address of the rank that matches [ip_regex] (the first
    at all when no pattern is given), a colon and the port of the
    rank. *)
Theorem worker_list_from_ips
    (rsp : GPUdbWorkerList.system_properties_response)
    (gpudb_url connection ip_regex worker_IPs worker_ports : string)
    (wl : GPUdbWorkerList.t) :
  __init__ (ret rsp) gpudb_url connection ip_regex false = ret wl ->
  GPUdbWorkerList.is_multihead_enabled wl = true ->
  GPUdbWorkerList.sp_property_map rsp !! C._worker_URLs = None ->
  GPUdbWorkerList.sp_property_map rsp !! C._worker_IPs = Some worker_IPs ->
  GPUdbWorkerList.sp_property_map rsp !! C._worker_ports = Some worker_ports ->
  length (GPUdbWorkerList.split ";" worker_IPs)
  = length (GPUdbWorkerList.split ";" worker_ports)
  /\ Forall2 (chosen_ip_url re_match int_of_str
                (if String.eqb connection "HTTPS" then "https://"
                 else "http://") ip_regex)
             (zip (tail (GPUdbWorkerList.split ";" worker_IPs))
                  (tail (GPUdbWorkerList.split ";" worker_ports)))
             (GPUdbWorkerList.get_worker_urls wl).
Proof.
  unfold GPUdbWorkerList.__init__. cbn [bind ret].
  intros H Hmulti HURLs HIPs Hports.
  destruct (String.eqb _ C._error); [discriminate|].
  destruct (_ !! C._multihead_enabled) as [enabled|]; [|discriminate].
  destruct (String.eqb enabled C._TRUE); simpl in H;
    [|by injection H as <-].
  rewrite HURLs, HIPs, Hports in H.
  apply bind_ret_inv in H as (urls & Hurls & H).
  destruct urls as [|u urls]; [discriminate|]. injection H as <-. simpl.
  destruct (Nat.eqb_spec (length (GPUdbWorkerList.split ";" worker_IPs))
                         (length (GPUdbWorkerList.split ";" worker_ports)))
    as [Hlen|]; [|discriminate].
  split; [done|]. by apply urls_of_ips_spec.
Qed.

(** When the server gives as many IP addresses as it has ranks but not
    as many ports, the constructor does not raise the [GPUdbException]
    it means to raise: the message names a constant that class [C] does
    not have, and the constructor raises [AttributeError]. *)
Theorem worker_list_count_mismatch_raises_attribute_error
    (rsp : GPUdbWorkerList.system_properties_response)
    (gpudb_url connection ip_regex worker_IPs worker_ports : string) :
  GPUdbWorkerList.sp_status rsp <> C._error ->
  GPUdbWorkerList.sp_property_map rsp !! C._multihead_enabled = Some C._TRUE ->
  GPUdbWorkerList.sp_property_map rsp !! C._worker_URLs = None ->
  GPUdbWorkerList.sp_property_map rsp !! C._worker_IPs = Some worker_IPs ->
  GPUdbWorkerList.sp_property_map rsp !! C._worker_ports = Some worker_ports ->
  length (GPUdbWorkerList.split ";" worker_IPs)
  <> length (GPUdbWorkerList.split ";" worker_ports) ->
  __init__ (ret rsp) gpudb_url connection ip_regex false = raise AttributeError.
Proof.
  intros Hstatus Hmulti HURLs HIPs Hports Hlen.
  unfold GPUdbWorkerList.__init__. cbn [bind ret].
  apply String.eqb_neq in Hstatus. rewrite Hstatus, Hmulti. simpl.
  rewrite HURLs, HIPs, Hports.
  by destruct (Nat.eqb_spec (length (GPUdbWorkerList.split ";" worker_IPs))
                            (length (GPUdbWorkerList.split ";" worker_ports))).
Qed.

End WorkerListFacts.

Lemma worker_list_one_url_per_rank_witness :
  let wl :=
    {| GPUdbWorkerList.worker_urls := ["http://b1:9192"; "http://b2:9193"]%string;
       GPUdbWorkerList._is_multihead_enabled := true |} in
  (GPUdbWorkerList.is_multihead_enabled wl = false \/ false = true ->
   GPUdbWorkerList.get_worker_urls wl = ["http://h0:9191"%string])
  /\ (GPUdbWorkerList.is_multihead_enabled wl = true ->
      false = false ->
      forall worker_URLs,
        GPUdbWorkerList.sp_property_map urls_response !! C._worker_URLs
        = Some worker_URLs ->
        GPUdbWorkerList.get_worker_urls wl <> []
        /\ Forall2 (chosen_url well_formed starts_with_b "b")
                   (tail (GPUdbWorkerList.split ";" worker_URLs))
                   (GPUdbWorkerList.get_worker_urls wl)).
Proof.
  apply (worker_list_one_url_per_rank well_formed starts_with_b small_int
           urls_response "http://h0:9191" "HTTP" "b" false).
  vm_compute. reflexivity.
Defined.

Lemma worker_list_from_ips_witness :
  length (GPUdbWorkerList.split ";" "10.0.0.1;10.0.0.2,10.0.1.2;10.0.1.3")
  = length (GPUdbWorkerList.split ";" "9191;9192;9193")
  /\ Forall2 (chosen_ip_url starts_with_b small_int
                (if String.eqb "HTTPS" "HTTPS" then "https://" else "http://")
                "b")
             (zip (tail (GPUdbWorkerList.split ";"
                           "10.0.0.1;10.0.0.2,10.0.1.2;10.0.1.3"))
                  (tail (GPUdbWorkerList.split ";" "9191;9192;9193")))
             (GPUdbWorkerList.get_worker_urls
                {| GPUdbWorkerList.worker_urls :=
                     ["https://10.0.1.2:9192"; "https://10.0.1.3:9193"]%string;
                   GPUdbWorkerList._is_multihead_enabled := true |}).
Proof.
  apply (worker_list_from_ips well_formed starts_with_b small_int
           (ips_response "9191;9192;9193") "http://h0:9191" "HTTPS" "b").
  - vm_compute. reflexivity.
  - reflexivity.
  - vm_compute. reflexivity.
  - vm_compute. reflexivity.
  - vm_compute. reflexivity.
Defined.

Lemma worker_list_count_mismatch_raises_attribute_error_witness :
  GPUdbWorkerList.__init__ well_formed starts_with_b small_int
    (ret (ips_response "9191;9192")) "http://h0:9191" "HTTP" EmptyString false
  = raise AttributeError.
Proof.
  apply (worker_list_count_mismatch_raises_attribute_error well_formed
           starts_with_b small_int (ips_response "9191;9192") "http://h0:9191"
           "HTTP" EmptyString "10.0.0.1;10.0.0.2,10.0.1.2;10.0.1.3"
           "9191;9192").
  - discriminate.
  - vm_compute. reflexivity.
  - vm_compute. reflexivity.
  - vm_compute. reflexivity.
  - vm_compute. reflexivity.
  - vm_compute. discriminate.
Defined.


(** ** The shard-key builders of an ingestor and of a retriever *)

(** An ingestor and a retriever made for the same table route by the
    same shard-key builder, with one exception: for a table that
    declares a primary key and a shard key with the same key schema
    string, the ingestor routes by the builder of the primary key and
    the retriever by the builder of the shard key.  A table with a
    primary key and no shard key is routed by its primary key in
    both. *)
Theorem ingestor_and_retriever_builders (gpudb gpudb' : GPUdb)
    (table_name table_name' : string) (record_type : GPUdbRecordType)
    (batch_size : Z) (options : option (gmap string string))
    (workers workers' : option GPUdbWorkerList.t) (is_table_replicated : bool)
    (ing : GPUdbIngestor.t) (rr : RecordRetriever.t) :
  GPUdbIngestor.__init__ gpudb table_name record_type batch_size options
                         workers is_table_replicated = ret ing ->
  RecordRetriever.__init__ gpudb' table_name' record_type workers' = ret rr ->
  exists skb pkb : _RecordKeyBuilder.t,
    _RecordKeyBuilder.__init__ record_type false = ret skb
    /\ _RecordKeyBuilder.__init__ record_type true = ret pkb
    /\ if _RecordKeyBuilder.has_key skb then
         RecordRetriever.shard_key_builder rr = Some skb
         /\ (GPUdbIngestor.shard_key_builder ing = Some skb
             \/ (GPUdbIngestor.shard_key_builder ing = Some pkb
                 /\ _RecordKeyBuilder.has_key pkb = true
                 /\ _RecordKeyBuilder.has_same_key skb pkb = true))
       else if _RecordKeyBuilder.has_key pkb then
         RecordRetriever.shard_key_builder rr = Some pkb
         /\ GPUdbIngestor.shard_key_builder ing = Some pkb
       else
         RecordRetriever.shard_key_builder rr = None
         /\ GPUdbIngestor.shard_key_builder ing = None.
Proof.
  unfold GPUdbIngestor.__init__, RecordRetriever.__init__. intros Hing Hrr.
  destruct (batch_size <? 1); [discriminate|].
  apply bind_ret_inv in Hing as (skb & Hskb & Hing).
  apply bind_ret_inv in Hing as (pkb & Hpkb & Hing).
  rewrite Hskb in Hrr. cbn [bind ret] in Hrr.
  exists skb, pkb. split; [done|]. split; [done|].
  destruct (_RecordKeyBuilder.has_key skb) eqn:Hsk; cbn [negb] in Hrr.
  - cbn [bind ret] in Hrr. rewrite Hsk in Hrr. cbn [negb] in Hrr.
    apply bind_ret_inv in Hrr as (wl & _ & Hrr).
    apply bind_ret_inv in Hrr as (wqs & _ & Hrr).
    apply bind_ret_inv in Hrr as (table & _ & [= <-]).
    split; [done|].
    destruct (_RecordKeyBuilder.has_key pkb) eqn:Hpk;
      [destruct (_RecordKeyBuilder.has_same_key skb pkb) eqn:Hsame|];
      simpl in Hing;
      apply bind_ret_inv in Hing as (wl' & _ & Hing);
      apply bind_ret_inv in Hing as (wqs' & _ & Hing);
      apply bind_ret_inv in Hing as (table' & _ & [= <-]); simpl; auto.
  - rewrite Hpkb in Hrr. cbn [bind ret] in Hrr.
    destruct (_RecordKeyBuilder.has_key pkb) eqn:Hpk; cbn [negb] in Hrr;
      apply bind_ret_inv in Hrr as (wl & _ & Hrr);
      apply bind_ret_inv in Hrr as (wqs & _ & Hrr);
      apply bind_ret_inv in Hrr as (table & _ & [= <-]);
      simpl in Hing;
      apply bind_ret_inv in Hing as (wl' & _ & Hing);
      apply bind_ret_inv in Hing as (wqs' & _ & Hing);
      apply bind_ret_inv in Hing as (table' & _ & [= <-]); simpl; auto.
Qed.

Lemma ingestor_and_retriever_builders_witness :
  exists skb pkb : _RecordKeyBuilder.t,
    _RecordKeyBuilder.__init__ shard_key_record_type false = ret skb
    /\ _RecordKeyBuilder.__init__ shard_key_record_type true = ret pkb
    /\ if _RecordKeyBuilder.has_key skb then
         RecordRetriever.shard_key_builder shard_retriever = Some skb
         /\ (GPUdbIngestor.shard_key_builder shard_ingestor = Some skb
             \/ (GPUdbIngestor.shard_key_builder shard_ingestor = Some pkb
                 /\ _RecordKeyBuilder.has_key pkb = true
                 /\ _RecordKeyBuilder.has_same_key skb pkb = true))
       else if _RecordKeyBuilder.has_key pkb then
         RecordRetriever.shard_key_builder shard_retriever = Some pkb
         /\ GPUdbIngestor.shard_key_builder shard_ingestor = Some pkb
       else
         RecordRetriever.shard_key_builder shard_retriever = None
         /\ GPUdbIngestor.shard_key_builder shard_ingestor = None.
Proof.
  apply (ingestor_and_retriever_builders three_rank_server three_rank_server
           "t" "t" shard_key_record_type 10 None (Some two_workers)
           (Some two_workers) false shard_ingestor shard_retriever).
  - vm_compute. reflexivity.
  - vm_compute. reflexivity.
Defined.


(** ** The expression of a key *)

Lemma key_expression_at_middle (b : _RecordKeyBuilder.t) (pv vs : list pyval)
    (v : pyval) (pt ts pn ns : list string) (ty n : string) :
  _RecordKeyBuilder._key_types b = pt ++ ty :: ts ->
  _RecordKeyBuilder.key_columns_names b = pn ++ n :: ns ->
  length pt = length pv -> length pn = length pv ->
  _RecordKeyBuilder.key_expression_at b (pv ++ v :: vs) (length pv)
  = ret (_RecordKeyBuilder.key_expression v ty n).
Proof.
  intros Hty Hn Hpt Hpn. unfold _RecordKeyBuilder.key_expression_at.
  by rewrite Hty, Hn, !list_lookup_middle.
Qed.

Lemma expression_loop_spec (b : _RecordKeyBuilder.t) (vs : list pyval) :
  forall (ts ns : list string) (pv : list pyval) (pt pn : list string)
         (e : pystr),
    _RecordKeyBuilder._key_types b = pt ++ ts ->
    _RecordKeyBuilder.key_columns_names b = pn ++ ns ->
    length pt = length pv -> length pn = length pv ->
    length ts = length vs -> length ns = length vs ->
    _RecordKeyBuilder.expression_loop b (pv ++ vs) (length vs) (length pv) e
    = ret (fold_left (fun acc x => acc ++ str_of " and " ++ x)
                     (key_expressions vs ts ns) e).
Proof.
  induction vs as [|v vs IH]; intros ts ns pv pt pn e Hty Hn Hpt Hpn Hts Hns.
  - by destruct ts, ns.
  - destruct ts as [|ty ts]; [done|]. destruct ns as [|n ns]; [done|].
    cbn [length _RecordKeyBuilder.expression_loop].
    rewrite (key_expression_at_middle b pv vs v pt ts pn ns ty n) by done.
    cbn [bind ret].
    rewrite (cons_middle v pv vs), app_assoc.
    replace (S (length pv)) with (length (pv ++ [v]))
      by (rewrite length_app; simpl; lia).
    rewrite (IH ts ns (pv ++ [v]) (pt ++ [ty]) (pn ++ [n]));
      rewrite ?length_app, <- ?app_assoc; simpl in *; (done || lia).
Qed.

Lemma fold_left_and_prefix (l : list pystr) (p x : pystr) :
  fold_left (fun acc y => acc ++ str_of " and " ++ y) l (p ++ x)
  = p ++ fold_left (fun acc y => acc ++ str_of " and " ++ y) l x.
Proof.
  revert x. induction l as [|y l IH]; intros x; simpl; [done|].
  by rewrite <- IH, <- app_assoc.
Qed.

Lemma joined_by_and_fold (e : pystr) (l : list pystr) :
  joined_by_and (e :: l)
  = fold_left (fun acc y => acc ++ str_of " and " ++ y) l e.
Proof.
  revert e. induction l as [|x l IH]; intros e; [done|].
  change (joined_by_and (e :: x :: l))
    with (e ++ str_of " and " ++ joined_by_and (x :: l)).
  rewrite IH. cbn [fold_left].
  by rewrite (fold_left_and_prefix l e),
    (fold_left_and_prefix l (str_of " and ") x).
Qed.

(** For a builder with a key and a list of as many values as the key
    has columns, [build_expression_with_key_values_only] returns the
    expressions of the key columns, in the order of the key, joined by
    " and ": [is_null(name)] for a null, [(name = "value")] for a value
    of a string type, the value written as it is, and [(name = value)]
    for any other. *)
Theorem expression_is_joined_key_expressions (record_type : GPUdbRecordType)
    (pk : bool) (b : _RecordKeyBuilder.t) (vs : list pyval) :
  _RecordKeyBuilder.__init__ record_type pk = ret b ->
  _RecordKeyBuilder.has_key b = true ->
  length vs = length (_RecordKeyBuilder.key_columns_names b) ->
  _RecordKeyBuilder.build_expression_with_key_values_only b
    (_RecordKeyBuilder.KeyList vs)
  = ret (Some (joined_by_and
                 (key_expressions vs (_RecordKeyBuilder._key_types b)
                                  (_RecordKeyBuilder.key_columns_names b)))).
Proof.
  intros Hinit Hkey Hlen.
  apply init_inv in Hinit as (_ & Hnames & Htys & _ & Hsizes & Hsize).
  apply key_types_size_ge in Hsizes.
  unfold _RecordKeyBuilder.has_key in Hkey. apply Nat.ltb_lt in Hkey.
  unfold _RecordKeyBuilder.build_expression_with_key_values_only.
  destruct (Z.eqb_spec (_RecordKeyBuilder._key_buffer_size b) 0) as [H0|H0];
    [lia|].
  cbn [_RecordKeyBuilder.key_values_len _RecordKeyBuilder.key_values_list].
  rewrite Hlen, Nat.eqb_refl. cbn [negb bind ret].
  destruct vs as [|v vs]; [simpl in Hlen; lia|].
  destruct (_RecordKeyBuilder._key_types b) as [|ty ts] eqn:Hts;
    [simpl in Htys; lia|].
  destruct (_RecordKeyBuilder.key_columns_names b) as [|n ns] eqn:Hns;
    [simpl in Hkey; lia|].
  pose proof (key_expression_at_middle b [] vs v [] ts [] ns ty n Hts Hns
                eq_refl eq_refl) as Hfirst.
  simpl in Hfirst. rewrite Hfirst. cbn [bind ret].
  replace (length (_RecordKeyBuilder.routing_key_indices b) - 1)%nat
    with (length vs) by (simpl in *; lia).
  pose proof (expression_loop_spec b vs ts ns [v] [ty] [n]
                (_RecordKeyBuilder.key_expression v ty n) Hts Hns
                eq_refl eq_refl) as Hloop.
  simpl in Hloop. rewrite Hloop by (simpl in *; lia). cbn [bind ret].
  by rewrite <- joined_by_and_fold.
Qed.

Lemma expression_is_joined_key_expressions_witness :
  _RecordKeyBuilder.build_expression_with_key_values_only two_key_builder
    (_RecordKeyBuilder.KeyList [PyInt 7; PyStr (str_of "ab")])
  = ret (Some (joined_by_and
                 (key_expressions [PyInt 7; PyStr (str_of "ab")]
                    (_RecordKeyBuilder._key_types two_key_builder)
                    (_RecordKeyBuilder.key_columns_names two_key_builder)))).
Proof.
  apply (expression_is_joined_key_expressions two_key_record_type false
           two_key_builder [PyInt 7; PyStr (str_of "ab")]).
  - vm_compute. reflexivity.
  - vm_compute. reflexivity.
  - vm_compute. reflexivity.
Defined.

(** ** Retrieval by key *)

Lemma py_index_fmap_eq {A B} (f : A -> B) (l l' : list A) (i : Z) (a : A) :
  map f l = map f l' ->
  py_index l i = ret a ->
  exists a', py_index l' i = ret a' /\ f a' = f a.
Proof.
  intros Hmap H. unfold py_index in *.
  assert (Hlen : length l' = length l).
  { by rewrite <- (length_map f l'), <- Hmap, length_map. }
  rewrite Hlen.
  destruct ((_ <? 0) || _); [discriminate|].
  destruct (l !! _) as [a0|] eqn:Ha; [|discriminate]. injection H as ->.
  assert (Hfa : map f l' !! Z.to_nat (if i <? 0 then i + Z.of_nat (length l)
                                      else i) = Some (f a)).
  { by rewrite <- Hmap, list_lookup_fmap, Ha. }
  rewrite list_lookup_fmap in Hfa.
  destruct (l' !! _) as [a'|]; [|discriminate].
  injection Hfa as Hfa. by exists a'.
Qed.

Section RetrievalFacts.
Variable host : byteorder.
Variable hash64 : list Z -> Z -> Z * Z.
Variable unicode_digit : Z -> option Z.
Variable add_other : string -> _RecordKey.t -> pyval -> exc _RecordKey.t.
Variable rpc_get_records :
  string -> string -> option pystr -> exc RecordRetriever.get_records_rsp.
Variable decode_binary_data : string -> list (list Z) -> exc (list record).
Variable random : nat -> Z.

Local Abbreviation get_records_by_key :=
  (RecordRetriever.get_records_by_key host hash64 unicode_digit add_other
     rpc_get_records decode_binary_data).
Local Abbreviation build_key :=
  (GPUdbIngestor.build_key host hash64 unicode_digit add_other).

(** Retrieval asks the worker that ingest sent the record to.  For an
    ingestor and a retriever with the same shard-key builder, routing
    table and worker URLs, and a record of the columns of the table:
    when [get_records_by_key] returns for the key values of the record,
    the response is the answer of the worker to whose queue
    [insert_record] adds the record, the one at the index [route] gives
    for the shard key [build] makes of the record. *)
Theorem retrieval_asks_the_worker_of_the_record
    (record_type : GPUdbRecordType) (pk : bool) (b : _RecordKeyBuilder.t)
    (ing : GPUdbIngestor.t) (rr : RecordRetriever.t) (rec : record)
    (expression : pystr) (rsp : RecordRetriever.get_records_rsp)
    (records : list record) (w : GPUdbIngestor.world) :
  _RecordKeyBuilder.__init__ record_type pk = ret b ->
  GPUdbIngestor.shard_key_builder ing = Some b ->
  RecordRetriever.shard_key_builder rr = Some b ->
  RecordRetriever.routing_table rr = GPUdbIngestor.routing_table ing ->
  map _WorkerQueue.get_url (RecordRetriever.worker_queues rr)
  = map _WorkerQueue.get_url (GPUdbIngestor.worker_queues ing) ->
  map fst rec = _RecordKeyBuilder._record_column_names b ->
  get_records_by_key rr (_RecordKeyBuilder.KeyList (key_values_of b rec))
                     expression
  = ret (rsp, records) ->
  exists (shard_key : _RecordKey.t) (worker_index : Z)
         (q : _WorkerQueue.t encoded) (e : option pystr),
    build_key (GPUdbIngestor.shard_key_builder ing) rec = ret (Some shard_key)
    /\ GPUdbIngestor.choose_worker random (Some shard_key) ing w
       = (inr worker_index, ing, w)
    /\ py_index (GPUdbIngestor.worker_queues ing) worker_index = ret q
    /\ rpc_get_records (_WorkerQueue.get_url q) (RecordRetriever.table_name rr) e
       = ret rsp
    /\ RecordRetriever.gr_status rsp = "OK"%string.
Proof.
  intros Hinit Hing Hrr Htable Hurls Hnames H.
  unfold RecordRetriever.get_records_by_key in H. rewrite Hrr in H.
  apply bind_ret_inv in H as (built & _ & H).
  apply bind_ret_inv in H as (e & _ & H).
  apply bind_ret_inv in H as (shard_key & Hkey & H).
  rewrite (build_key_of_key_values host hash64 unicode_digit add_other
             record_type pk b rec Hinit Hnames) in Hkey.
  destruct shard_key as [k|]; [|discriminate].
  apply bind_ret_inv in H as (worker_index & Hroute & H).
  apply bind_ret_inv in H as (q' & Hq' & H).
  apply bind_ret_inv in H as (gr_rsp & Hrpc & H).
  destruct (String.eqb (RecordRetriever.gr_status gr_rsp) "OK") eqn:Hstatus;
    [|discriminate].
  apply bind_ret_inv in H as (decoded & _ & [= -> _]).
  destruct (py_index_fmap_eq _WorkerQueue.get_url _ _ _ _ Hurls Hq')
    as (q & Hq & Hurl).
  exists k, worker_index, q, e.
  split; [by rewrite Hing|]. split.
  { unfold GPUdbIngestor.choose_worker, GPUdbIngestor.lift.
    by rewrite <- Htable, Hroute. }
  split; [done|]. split; [by rewrite Hurl|]. by apply String.eqb_eq.
Qed.

End RetrievalFacts.

Lemma retrieval_asks_the_worker_of_the_record_witness :
  exists (shard_key : _RecordKey.t) (worker_index : Z)
         (q : _WorkerQueue.t encoded) (e : option pystr),
    GPUdbIngestor.build_key LittleEndian no_hash64 ascii_digit no_add_other
      (GPUdbIngestor.shard_key_builder shard_ingestor) [("id"%string, PyInt 5)]
    = ret (Some shard_key)
    /\ GPUdbIngestor.choose_worker first_then_second (Some shard_key)
         shard_ingestor new_world
       = (inr worker_index, shard_ingestor, new_world)
    /\ py_index (GPUdbIngestor.worker_queues shard_ingestor) worker_index = ret q
    /\ ok_get_records (_WorkerQueue.get_url q)
         (RecordRetriever.table_name shard_retriever) e
       = ret {| RecordRetriever.gr_status := "OK";
                RecordRetriever.gr_message := "";
                RecordRetriever.gr_type_schema := "http://w1:9191";
                RecordRetriever.gr_records_binary := [] |}
    /\ RecordRetriever.gr_status
         {| RecordRetriever.gr_status := "OK";
            RecordRetriever.gr_message := "";
            RecordRetriever.gr_type_schema := "http://w1:9191";
            RecordRetriever.gr_records_binary := [] |}
       = "OK"%string.
Proof.
  apply (retrieval_asks_the_worker_of_the_record LittleEndian no_hash64
           ascii_digit no_add_other ok_get_records no_records
           first_then_second shard_key_record_type false shard_builder
           shard_ingestor shard_retriever [("id"%string, PyInt 5)] []
           _ [] new_world).
  - vm_compute. reflexivity.
  - vm_compute. reflexivity.
  - vm_compute. reflexivity.
  - vm_compute. reflexivity.
  - vm_compute. reflexivity.
  - vm_compute. reflexivity.
  - vm_compute. reflexivity.
Defined.
